(** * bfcm-dashboard: the ingestion and hourly aggregation pipeline

    A shallow embedding of the data pipeline of [src/src/App.jsx] and of
    its second variant [src/unnamed/part_000]: the retrying fetcher, the
    CSV parser, the hour bucketer, the multi-source aggregator, the range
    filter and the summary statistics.

    Conventions.
    - A JavaScript string is a [string]; one character stands for one
      UTF-16 code unit below 256.
    - A JavaScript number that holds an integer is a [Z] (exact below
      2^53, which covers epoch milliseconds and the counts of the feeds).
      Where the code divides, in the summary statistics, the numbers are
      IEEE 754 binary64 doubles with their rounding ([Binary64]).
    - What the JavaScript runtime supplies and the repository does not
      define (the [Date] string parser, the local time zone, the [Intl]
      date formatter, the network) is a [Variable] of a section. *)

From Stdlib Require Import ZArith List String Ascii Bool Lia.
From Stdlib Require Import Permutation Sorted SpecFloat.
From stdpp Require Import base gmap strings list.

Import ListNotations.
Local Open Scope string_scope.
Local Open Scope Z_scope.

(** ** JavaScript string primitives *)

Module Js.

Infix "^^" := String.append (at level 60, right associativity).

Definition chr (n : nat) : string := String (ascii_of_nat n) EmptyString.

(** The characters the source names: line feed, comma, double quote. *)
Definition LF : ascii := ascii_of_nat 10.
Definition COMMA : ascii := ascii_of_nat 44.
Definition DQUOTE : ascii := ascii_of_nat 34.

(** [WhiteSpace] and [LineTerminator] of ECMAScript, among the code
    units below 256: TAB, LF, VT, FF, CR, SP and NBSP. *)
Definition isWhiteSpace (c : ascii) : bool :=
  match nat_of_ascii c with
  | 9%nat | 10%nat | 11%nat | 12%nat | 13%nat | 32%nat | 160%nat => true
  | _ => false
  end.

Fixpoint trimStart (s : string) : string :=
  match s with
  | EmptyString => EmptyString
  | String c r => if isWhiteSpace c then trimStart r else s
  end.

Fixpoint trimEnd (s : string) : string :=
  match s with
  | EmptyString => EmptyString
  | String c r =>
      match trimEnd r with
      | EmptyString => if isWhiteSpace c then EmptyString else String c EmptyString
      | r' => String c r'
      end
  end.

(** [String.prototype.trim] *)
Definition trim (s : string) : string := trimEnd (trimStart s).

(** [s.split(sep)] for a one-character separator: never empty. *)
Fixpoint split (sep : ascii) (s : string) : list string :=
  match s with
  | EmptyString => [EmptyString]
  | String c r =>
      if Ascii.eqb c sep then EmptyString :: split sep r
      else match split sep r with
           | [] => [String c EmptyString]
           | hd :: tl => String c hd :: tl
           end
  end.

(** [s.replace(/c/g, '')] for a one-character pattern. *)
Fixpoint removeAll (c : ascii) (s : string) : string :=
  match s with
  | EmptyString => EmptyString
  | String d r => if Ascii.eqb d c then removeAll c r else String d (removeAll c r)
  end.

Definition digitValue (c : ascii) : option Z :=
  let n := nat_of_ascii c in
  if (48 <=? n)%nat && (n <=? 57)%nat then Some (Z.of_nat (n - 48)) else None.

(** The longest prefix of decimal digits, most significant first. *)
Fixpoint digitsPrefix (s : string) : list Z :=
  match s with
  | EmptyString => []
  | String c r =>
      match digitValue c with
      | Some d => d :: digitsPrefix r
      | None => []
      end
  end.

Definition decimalValue (ds : list Z) : Z :=
  fold_left (fun acc d => 10 * acc + d) ds 0.

(** [parseInt(s, 10)]: leading white space is skipped, one sign is
    read, then the longest run of digits; [None] is [NaN]. *)
Definition parseInt10 (s : string) : option Z :=
  let s1 := trimStart s in
  let '(sign, s2) :=
    match s1 with
    | String c r =>
        if Ascii.eqb c (ascii_of_nat 45) then (-1, r)
        else if Ascii.eqb c (ascii_of_nat 43) then (1, r)
        else (1, s1)
    | EmptyString => (1, s1)
    end in
  match digitsPrefix s2 with
  | [] => None
  | ds => Some (sign * decimalValue ds)
  end.

(** Decimal rendering of an integer, as a template literal prints it. *)
Fixpoint showDigits (fuel : nat) (n : Z) (acc : string) : string :=
  match fuel with
  | O => acc
  | S fuel' =>
      let acc' := String (ascii_of_nat (48 + Z.to_nat (n mod 10))) acc in
      if n / 10 =? 0 then acc' else showDigits fuel' (n / 10) acc'
  end.

Definition showZ (n : Z) : string :=
  if n <? 0 then String (ascii_of_nat 45) (showDigits (S (Z.to_nat (Z.log2 (- n)))) (- n) EmptyString)
  else showDigits (S (Z.to_nat (Z.log2 n))) n EmptyString.

(** [s.padStart(w, '0')] *)
Definition padStart0 (w : nat) (s : string) : string :=
  String.concat EmptyString (repeat (chr 48) (w - String.length s)) ^^ s.

(** [s.includes(t)] *)
Fixpoint includes (s t : string) : bool :=
  String.prefix t s ||
  match s with
  | EmptyString => false
  | String _ r => includes r t
  end.

End Js.

Import Js.

(** ** Completions: a JavaScript evaluation returns or throws *)

Record JsError := mkError { message : string }.

Inductive completion (A : Type) : Type :=
| Normal (a : A)
| Throw (e : JsError).
Arguments Normal {A} a.
Arguments Throw {A} e.

#[global] Instance completion_ret : MRet completion := fun A a => Normal a.
#[global] Instance completion_bind : MBind completion := fun A B k c =>
  match c with
  | Normal a => k a
  | Throw e => Throw e
  end.

(** [xs[i].m(...)]: calling a method on [undefined] is a [TypeError]. *)
Definition at_index (xs : list string) (i : nat) : completion string :=
  match nth_error xs i with
  | Some s => Normal s
  | None => Throw (mkError "Cannot read properties of undefined")
  end.

(** ** CsvRecordParser: [parseCSV] *)

Record RawRecord := mkRaw { timestamp : string; value : Z }.

(** The callback of [lines.slice(1).map(...)], App.jsx lines 63-73. *)
Definition parseCSV_line (line : string) : completion RawRecord :=
  let parts := split COMMA line in
  if (length parts <? 2)%nat then Normal (mkRaw "" 0)
  else
    timestampStr ← at_index parts 0;
    valueStr ← at_index parts 1;
    let timestamp := trim (removeAll DQUOTE timestampStr) in
    let value := parseInt10 (trim (removeAll DQUOTE valueStr)) in
    Normal (mkRaw timestamp (match value with None => 0 | Some v => v end)).

(** [parseCSV], App.jsx lines 58-74. *)
Definition parseCSV (csvText : string) : completion (list RawRecord) :=
  if String.eqb csvText "" then Normal []
  else
    let lines := split LF (trim csvText) in
    if (length lines <? 2)%nat then Normal []
    else
      items ← mapM parseCSV_line (List.tl lines);
      Normal (List.filter (fun item => negb (String.eqb (timestamp item) "")) items).

(** The second variant, part_000 lines 52-69: the quote removal and the
    trimming are applied where [parts[0]] and [parts[1]] are read. *)
Module Part000Csv.

Definition parseCSV_line (line : string) : completion RawRecord :=
  let parts := split COMMA line in
  if (length parts <? 2)%nat then Normal (mkRaw "" 0)
  else
    p0 ← at_index parts 0;
    let timestampStr := trim (removeAll DQUOTE p0) in
    p1 ← at_index parts 1;
    let valueStr := trim (removeAll DQUOTE p1) in
    let value := parseInt10 valueStr in
    Normal (mkRaw timestampStr (match value with None => 0 | Some v => v end)).

Definition parseCSV (csvText : string) : completion (list RawRecord) :=
  if String.eqb csvText "" then Normal []
  else
    let lines := split LF (trim csvText) in
    if (length lines <? 2)%nat then Normal []
    else
      items ← mapM parseCSV_line (List.tl lines);
      Normal (List.filter (fun item => negb (String.eqb (timestamp item) "")) items).

End Part000Csv.

(** What one data line contributes, stated on its own: a line with
    fewer than two fields, or whose first field is empty once quotes and
    white space are removed, contributes nothing; any other line
    contributes one record, whose value is 0 when the second field does
    not start with an integer. *)
Definition lineRecord (line : string) : option RawRecord :=
  match split COMMA line with
  | f0 :: f1 :: _ =>
      let ts := trim (removeAll DQUOTE f0) in
      if String.eqb ts "" then None
      else Some (mkRaw ts (default 0 (parseInt10 (trim (removeAll DQUOTE f1)))))
  | _ => None
  end.

(** The data lines of a payload: all lines but the first of the trimmed
    text. *)
Definition dataLines (csvText : string) : list string :=
  List.tl (split LF (trim csvText)).

(** The input of property P6 of the specification. *)
Definition P6_input : string :=
  "header" ^^ chr 10 ^^
  chr 34 ^^ "2024-01-01T00:00:00Z" ^^ chr 34 ^^ "," ^^ chr 34 ^^ "5" ^^ chr 34 ^^ chr 10 ^^
  "badrow" ^^ chr 10 ^^
  "," ^^ chr 10 ^^
  "2024-01-01T01:00:00Z,notanumber" ^^ chr 10.

(** ** The [Date] arithmetic of ECMAScript *)

Module JsDate.

Definition msPerSecond : Z := 1000.
Definition msPerMinute : Z := 60000.
Definition msPerHour : Z := 3600000.
Definition msPerDay : Z := 86400000.

Definition Day (t : Z) : Z := t / msPerDay.
Definition HourFromTime (t : Z) : Z := (t / msPerHour) mod 24.
Definition MakeTime (h m s ms : Z) : Z :=
  h * msPerHour + m * msPerMinute + s * msPerSecond + ms.
Definition MakeDate (day time : Z) : Z := day * msPerDay + time.

(** Day number since the epoch to proleptic Gregorian (year, month
    1..12, day of month), and back. *)
Definition civil_from_days (z0 : Z) : Z * Z * Z :=
  let z := z0 + 719468 in
  let era := z / 146097 in
  let doe := z - era * 146097 in
  let yoe := (doe - doe / 1460 + doe / 36524 - doe / 146096) / 365 in
  let y := yoe + era * 400 in
  let doy := doe - (365 * yoe + yoe / 4 - yoe / 100) in
  let mp := (5 * doy + 2) / 153 in
  let d := doy - (153 * mp + 2) / 5 + 1 in
  let m := if mp <? 10 then mp + 3 else mp - 9 in
  (if m <=? 2 then y + 1 else y, m, d).

Definition days_from_civil (y0 m d : Z) : Z :=
  let y := if m <=? 2 then y0 - 1 else y0 in
  let era := y / 400 in
  let yoe := y - era * 400 in
  let doy := (153 * (if 2 <? m then m - 3 else m + 9) + 2) / 5 + d - 1 in
  let doe := yoe * 365 + yoe / 4 - yoe / 100 + doy in
  era * 146097 + doe - 719468.

Definition YearFromTime (t : Z) : Z := fst (fst (civil_from_days (Day t))).
(** Months count from 0, as [getMonth] returns them. *)
Definition MonthFromTime (t : Z) : Z := snd (fst (civil_from_days (Day t))) - 1.
Definition DateFromTime (t : Z) : Z := snd (civil_from_days (Day t)).

(** [toISOString().split('T')[0]]: the UTC calendar date, four digits
    of year from 0 to 9999 and a sign with six digits otherwise. *)
Definition toISODate (t : Z) : string :=
  let y := YearFromTime t in
  let yyyy :=
    if (0 <=? y) && (y <=? 9999) then padStart0 4 (showZ y)
    else (if y <? 0 then "-" else "+") ^^ padStart0 6 (showZ (Z.abs y)) in
  yyyy ^^ "-" ^^ padStart0 2 (showZ (MonthFromTime t + 1))
       ^^ "-" ^^ padStart0 2 (showZ (DateFromTime t)).

(** The value of a non-empty string of decimal digits. *)
Definition allDigits (s : string) : option Z :=
  if (String.length s =? length (digitsPrefix s))%nat && negb (String.eqb s "")
  then Some (decimalValue (digitsPrefix s)) else None.

Definition daysInMonth (y m : Z) : Z :=
  days_from_civil (if m =? 12 then y + 1 else y) (if m =? 12 then 1 else m + 1) 1
  - days_from_civil y m 1.

(** A parser for the one format [YYYY-MM-DDTHH:MM:SSZ] of ISO 8601,
    the format of the timestamps in the specification; [None] for any
    other string. It serves as the [Date] parser of the concrete
    runtime the examples run in. *)
Definition parseISO (s : string) : option Z :=
  if negb (String.length s =? 20)%nat then None
  else if negb (String.eqb (substring 4 1 s) "-" && String.eqb (substring 7 1 s) "-"
                && String.eqb (substring 10 1 s) "T" && String.eqb (substring 13 1 s) ":"
                && String.eqb (substring 16 1 s) ":" && String.eqb (substring 19 1 s) "Z")
  then None
  else
    match allDigits (substring 0 4 s), allDigits (substring 5 2 s),
          allDigits (substring 8 2 s), allDigits (substring 11 2 s),
          allDigits (substring 14 2 s), allDigits (substring 17 2 s) with
    | Some y, Some m, Some d, Some h, Some mi, Some sec =>
        if (1 <=? m) && (m <=? 12) && (1 <=? d) && (d <=? daysInMonth y m)
           && (h <=? 23) && (mi <=? 59) && (sec <=? 59)
        then Some (MakeDate (days_from_civil y m d) (MakeTime h mi sec 0))
        else None
    | _, _, _, _, _, _ => None
    end.

End JsDate.

Import JsDate.

(** ** HourBucketer: [getHourlyKey] and the truncation to the hour *)

Section HourBucketer.

(** [new Date(s).getTime()], [None] when the date is invalid. *)
Variable Date_parse : string -> option Z.
(** [LocalTZA(t, isUTC)] of ECMAScript: the offset of local time. *)
Variable LocalTZA : Z -> bool -> Z.

Definition LocalTime (t : Z) : Z := t + LocalTZA t true.
Definition UTC (t : Z) : Z := t - LocalTZA t false.

(** [date.setMinutes(0, 0, 0, 0)] on a date of time value [t]:
    minutes, seconds and milliseconds of the local time are set to
    zero (the fourth argument is not read). *)
Definition setMinutes0 (t : Z) : Z :=
  let lt := LocalTime t in
  UTC (MakeDate (Day lt) (MakeTime (HourFromTime lt) 0 0 0)).

Definition months : list string :=
  ["Jan"; "Feb"; "Mar"; "Apr"; "May"; "Jun"; "Jul"; "Aug"; "Sep"; "Oct"; "Nov"; "Dec"].

(** The label of a date of time value [t]: [Mon-DD HH:00]. *)
Definition hourLabel (t : Z) : string :=
  let monthName := nth (Z.to_nat (MonthFromTime (LocalTime t))) months "undefined" in
  let day := padStart0 2 (showZ (DateFromTime (LocalTime t))) in
  let hour := padStart0 2 (showZ (HourFromTime (LocalTime t))) in
  monthName ^^ "-" ^^ day ^^ " " ^^ hour ^^ ":00".

(** [getHourlyKey], App.jsx lines 79-92: the label, or [None] for
    [null]. *)
Definition getHourlyKey (timestampStr : string) : option string :=
  match Date_parse timestampStr with
  | None => None
  | Some t => Some (hourLabel (setMinutes0 t))
  end.

(** [getHourlyKey] of the second variant, part_000 lines 74-90: the
    label together with the truncated time value. *)
Definition getHourlyKey2 (timestampStr : string) : option (string * Z) :=
  match Date_parse timestampStr with
  | None => None
  | Some t => Some (hourLabel (setMinutes0 t), setMinutes0 t)
  end.

End HourBucketer.

(** The runtime of the examples: ISO timestamps, local time is UTC. *)
Definition utcTZA (t : Z) (isUTC : bool) : Z := 0.

(** ** JavaScript values of the aggregation *)

(** A number held in a field of a row: an integer or [NaN]. *)
Inductive jsnum : Type :=
| Num (z : Z)
| NaN.

Definition js_add (a b : jsnum) : jsnum :=
  match a, b with
  | Num x, Num y => Num (x + y)
  | _, _ => NaN
  end.

(** [x || 0] on a field that may be missing: [undefined], [NaN] and [0]
    are falsy. *)
Definition or0 (x : option jsnum) : Z :=
  match x with
  | Some (Num z) => if z =? 0 then 0 else z
  | Some NaN => 0
  | None => 0
  end.

(** A [Map] with string keys: the entries in insertion order. *)
Module JsMap.
Section JsMap.
Context {V : Type}.

Definition has (m : list (string * V)) (k : string) : bool :=
  existsb (fun kv => String.eqb (fst kv) k) m.

Fixpoint get (m : list (string * V)) (k : string) : option V :=
  match m with
  | [] => None
  | (k', v) :: r => if String.eqb k' k then Some v else get r k
  end.

(** [set] keeps the position of a key that is present and appends a
    new key. *)
Fixpoint set (m : list (string * V)) (k : string) (v : V) : list (string * V) :=
  match m with
  | [] => [(k, v)]
  | (k', v') :: r => if String.eqb k' k then (k, v) :: r else (k', v') :: set r k v
  end.

Definition values (m : list (string * V)) : list V := List.map snd m.
Definition keys (m : list (string * V)) : list string := List.map fst m.

End JsMap.
End JsMap.

(** [arr.sort(cmp)]: a stable sort (ECMAScript 2019); [cmp a b < 0]
    puts [a] first. *)
Section ArraySort.
Context {A : Type} (cmp : A -> A -> Z).

Fixpoint sort_insert (x : A) (l : list A) : list A :=
  match l with
  | [] => [x]
  | y :: r => if cmp x y <=? 0 then x :: y :: r else y :: sort_insert x r
  end.

Definition Array_sort (l : list A) : list A := fold_right sort_insert [] l.

End ArraySort.

(** ** MultiSeriesAggregator: the body of [processAllFiles] *)

Record SourceFile := mkFile { path : string; key : string; name : string }.

(** [ALL_CSV_FILES], App.jsx lines 33-39 (the URL is the proxied form of
    [path]). *)
Definition ALL_CSV_FILES : list SourceFile :=
  [ mkFile "orders.csv" "orders" "Orders";
    mkFile "shipping_labels.csv" "labels" "Shipping Labels";
    mkFile "total_packers.csv" "packers" "Total Packers";
    mkFile "total_pickers.csv" "pickers" "Total Pickers" ].

(** A row of the chart data: [{ hour, sortTime, orders, labels, ... }];
    the metric properties are the entries of [fields]. *)
Record HourlyRow := mkRow { hour : string; sortTime : Z; fields : gmap string jsnum }.

(** [Object.fromEntries(ALL_CSV_FILES.map(f => [f.key, 0]))] *)
Definition zeroFields : gmap string jsnum :=
  fold_left (fun o kv => <[fst kv := snd kv]> o)
            (List.map (fun f => (key f, Num 0)) ALL_CSV_FILES) ∅.

(** [currentHour[key] += value]: a missing property reads as
    [undefined], and [undefined + n] is [NaN]. *)
Definition addToField (row : HourlyRow) (k : string) (v : Z) : HourlyRow :=
  mkRow (hour row) (sortTime row)
        (<[k := js_add (default NaN (fields row !! k)) (Num v)]> (fields row)).

Section Aggregator.

Variable Date_parse : string -> option Z.
Variable LocalTZA : Z -> bool -> Z.

(** The body of [parsedData.forEach(item => ...)], App.jsx lines
    433-457, for the source [key] on the map [m]. The last [None]
    branch is never taken: the key has just been set. *)
Definition addItem (k : string) (m : list (string * HourlyRow)) (item : RawRecord)
  : list (string * HourlyRow) :=
  match Date_parse (timestamp item) with
  | None => m
  | Some t =>
      let sortTime := setMinutes0 LocalTZA t in
      match getHourlyKey Date_parse LocalTZA (timestamp item) with
      | None => m
      | Some hourlyKey =>
          if String.eqb hourlyKey "" then m
          else
            let m1 :=
              if JsMap.has m hourlyKey then m
              else JsMap.set m hourlyKey (mkRow hourlyKey sortTime zeroFields) in
            match JsMap.get m1 hourlyKey with
            | Some currentHour =>
                JsMap.set m1 hourlyKey (addToField currentHour k (value item))
            | None => m1
            end
      end
  end.

(** The body of [results.forEach(({ key, csvText }) => ...)]. *)
Definition addResult (cm : completion (list (string * HourlyRow)))
           (result : string * string) : completion (list (string * HourlyRow)) :=
  m ← cm;
  parsedData ← parseCSV (snd result);
  mret (fold_left (addItem (fst result)) parsedData m).

(** [hourlyDataMap] once every result is processed. *)
Definition hourlyDataMap (results : list (string * string))
  : completion (list (string * HourlyRow)) :=
  fold_left addResult results (Normal []).

(** [finalChartData], App.jsx lines 461-463. *)
Definition finalChartData (results : list (string * string))
  : completion (list HourlyRow) :=
  m ← hourlyDataMap results;
  mret (Array_sort (fun a b => sortTime a - sortTime b) (JsMap.values m)).

(** The results of [Promise.all]: one payload per configured file. *)
Definition resultsOf (csvText : SourceFile -> string) : list (string * string) :=
  List.map (fun file => (key file, csvText file)) ALL_CSV_FILES.

End Aggregator.

(** The second variant, part_000 lines 362-386. *)
Module Part000.
Section Aggregator.

Variable Date_parse : string -> option Z.
Variable LocalTZA : Z -> bool -> Z.

(** Destructuring [null] would throw; it does not happen, since
    [getHourlyKey] parses the same string as [new Date]. *)
Definition addItem (k : string) (m : list (string * HourlyRow)) (item : RawRecord)
  : list (string * HourlyRow) :=
  match Date_parse (timestamp item) with
  | None => m
  | Some _ =>
      match getHourlyKey2 Date_parse LocalTZA (timestamp item) with
      | None => m
      | Some (hour, sortTime) =>
          if String.eqb hour "" then m
          else
            let m1 :=
              if JsMap.has m hour then m
              else JsMap.set m hour (mkRow hour sortTime zeroFields) in
            match JsMap.get m1 hour with
            | Some currentHour =>
                JsMap.set m1 hour (addToField currentHour k (value item))
            | None => m1
            end
      end
  end.

Definition addResult (cm : completion (list (string * HourlyRow)))
           (result : string * string) : completion (list (string * HourlyRow)) :=
  m ← cm;
  parsedData ← Part000Csv.parseCSV (snd result);
  mret (fold_left (addItem (fst result)) parsedData m).

Definition hourlyDataMap (results : list (string * string))
  : completion (list (string * HourlyRow)) :=
  fold_left addResult results (Normal []).

Definition finalChartData (results : list (string * string))
  : completion (list HourlyRow) :=
  m ← hourlyDataMap results;
  mret (Array_sort (fun a b => sortTime a - sortTime b) (JsMap.values m)).

End Aggregator.
End Part000.

(** ** RangeFilter: [filteredData], App.jsx lines 481-491 *)

Definition filteredData (data : list HourlyRow) (selectedRangeDays : Z) : list HourlyRow :=
  if (length data =? 0)%nat then []
  else
    match nth_error data (length data - 1) with
    | None => []
    | Some lastRow =>
        let maxDate := sortTime lastRow in
        let rangeInMs := selectedRangeDays * 24 * 60 * 60 * 1000 in
        let minDate := maxDate - rangeInMs in
        List.filter (fun item => minDate <=? sortTime item) data
    end.

(** ** JavaScript numbers that are not integers: IEEE 754 binary64

    The arithmetic is that of the reference specification of binary
    floating-point numbers of the Standard Library ([SpecFloat], taken
    from Flocq) at precision 53 and maximal exponent 1024, rounding to
    nearest, ties to even, as ECMAScript prescribes for [+] and [/]. *)

Module Binary64.

Definition prec : Z := 53.
Definition emax : Z := 1024.

Definition double : Type := spec_float.

(** The double nearest to an integer, the integer itself below 2^53. *)
Definition ofZ (z : Z) : double := binary_normalize prec emax z 0 false.

Definition add : double -> double -> double := SFadd prec emax.
Definition div : double -> double -> double := SFdiv prec emax.
Definition ltb : double -> double -> bool := SFltb.
Definition leb : double -> double -> bool := SFleb.

(** [shl m k] is the mantissa [m] shifted left by [k] bits. *)
Definition shl (m : positive) (k : Z) : positive :=
  match k with Zpos p => Pos.iter xO m p | _ => m end.

Definition NaN : double := S754_nan.
Definition posInf : double := S754_infinity false.
Definition negInf : double := S754_infinity true.

Definition isNaN (x : double) : bool :=
  match x with S754_nan => true | _ => false end.
Definition isPosZero (x : double) : bool :=
  match x with S754_zero false => true | _ => false end.
Definition isNegZero (x : double) : bool :=
  match x with S754_zero true => true | _ => false end.

(** [Math.min(...coerced)], as ECMAScript defines it: [lowest] starts at
    +Infinity; a NaN argument gives NaN; -0 is below +0. *)
Fixpoint Math_min_from (lowest : double) (coerced : list double) : double :=
  match coerced with
  | [] => lowest
  | number :: rest =>
      if isNaN number then NaN
      else
        let lowest1 := if isNegZero number && isPosZero lowest then number else lowest in
        let lowest2 := if ltb number lowest1 then number else lowest1 in
        Math_min_from lowest2 rest
  end.

Definition Math_min (args : list double) : double := Math_min_from posInf args.

(** [Math.max(...coerced)], as ECMAScript defines it: [highest] starts at
    -Infinity; a NaN argument gives NaN; +0 is above -0. *)
Fixpoint Math_max_from (highest : double) (coerced : list double) : double :=
  match coerced with
  | [] => highest
  | number :: rest =>
      if isNaN number then NaN
      else
        let highest1 := if isPosZero number && isNegZero highest then number else highest in
        let highest2 := if ltb highest1 number then number else highest1 in
        Math_max_from highest2 rest
  end.

Definition Math_max (args : list double) : double := Math_max_from negInf args.

End Binary64.

(** ** StatsEngine: the [aggregates] of [SummaryWidget] *)

Module SummaryWidget.

Record Peak := mkPeak { count : Z; date : string; dayName : option string }.
Record Stats := mkStats {
  stats_count : option Binary64.double;
  min : Binary64.double;
  max : Binary64.double;
  avg : Binary64.double }.
Record DayCounts := mkDay { day_orders : Z; day_labels : Z }.

Record Aggregates := mkAggregates {
  maxDailyOrders : Peak;
  maxDailyLabels : Peak;
  labelsPerLabor : Stats;
  ordersStats : Stats;
  labelsStats : Stats;
  laborStats : Stats }.

(** [{ ...defaults }] *)
Definition defaults : Stats :=
  mkStats (Some (Binary64.ofZ 0)) (Binary64.ofZ 0) (Binary64.ofZ 0) (Binary64.ofZ 0).

(** What [data.forEach] fills. *)
Record Collected := mkCollected {
  dailyMap : list (string * DayCounts);
  hourlyEfficiency : list Binary64.double;
  hourlyOrders : list Binary64.double;
  hourlyLabels : list Binary64.double;
  hourlyLabor : list Binary64.double }.

Definition labor_of (item : HourlyRow) : Z :=
  or0 (fields item !! "packers") + or0 (fields item !! "pickers").
Definition labels_of (item : HourlyRow) : Z := or0 (fields item !! "labels").
Definition orders_of (item : HourlyRow) : Z := or0 (fields item !! "orders").

(** The body of [data.forEach(item => ...)], App.jsx lines 175-205. *)
Definition collect (c : Collected) (item : HourlyRow) : Collected :=
  let labor := labor_of item in
  let labels := labels_of item in
  let orders := orders_of item in
  let hourlyEfficiency' :=
    if 0 <? labor
    then (hourlyEfficiency c
            ++ [Binary64.div (Binary64.ofZ labels) (Binary64.ofZ labor)])%list
    else hourlyEfficiency c in
  let dailyMap' :=
    if sortTime item =? 0 then dailyMap c
    else
      let dateKey := toISODate (sortTime item) in
      let m1 :=
        if JsMap.has (dailyMap c) dateKey then dailyMap c
        else JsMap.set (dailyMap c) dateKey (mkDay 0 0) in
      match JsMap.get m1 dateKey with
      | Some currentDay =>
          JsMap.set m1 dateKey
            (mkDay (day_orders currentDay + orders) (day_labels currentDay + labels))
      | None => m1
      end in
  mkCollected dailyMap' hourlyEfficiency'
              (hourlyOrders c ++ [Binary64.ofZ orders])%list
              (hourlyLabels c ++ [Binary64.ofZ labels])%list
              (hourlyLabor c ++ [Binary64.ofZ labor])%list.

(** [getStats], App.jsx lines 229-237: the sum and the quotient are
    those of doubles, each rounded. *)
Definition getStats (arr : list Binary64.double) : Stats :=
  if (length arr =? 0)%nat
  then mkStats None (Binary64.ofZ 0) (Binary64.ofZ 0) (Binary64.ofZ 0)
  else
    let sum := fold_left Binary64.add arr (Binary64.ofZ 0) in
    mkStats None
            (Binary64.Math_min arr)
            (Binary64.Math_max arr)
            (Binary64.div sum (Binary64.ofZ (Z.of_nat (length arr)))).

Section Aggregates.

(** [formatDay date] is the string that [formatter.format] gives for
    the local date built from the three numbers of the day key
    [date] (App.jsx lines 216-218, part_000 lines 199-201); it
    depends on the locale data and the time zone of the runtime. *)
Variable formatDay : string -> string.
(** The [dayName] of the initial peak records: ['N/A'] in App.jsx
    (lines 210-211), no such property in part_000 (lines 193-194). *)
Variable initialDayName : option string.

(** The body of [dailyAggregates.forEach(day => ...)]. *)
Definition peakStep (acc : Peak * Peak) (day : string * DayCounts) : Peak * Peak :=
  let formattedDate := formatDay (fst day) in
  let maxDailyOrders' :=
    if count (fst acc) <? day_orders (snd day)
    then mkPeak (day_orders (snd day)) formattedDate None else fst acc in
  let maxDailyLabels' :=
    if count (snd acc) <? day_labels (snd day)
    then mkPeak (day_labels (snd day)) formattedDate None else snd acc in
  (maxDailyOrders', maxDailyLabels').

(** The [useMemo] callback of [SummaryWidget]. *)
Definition aggregates (data : list HourlyRow) : Aggregates :=
  if (length data =? 0)%nat then
    mkAggregates (mkPeak 0 "N/A" None) (mkPeak 0 "N/A" None)
                 defaults defaults defaults defaults
  else
    let c := fold_left collect data (mkCollected [] [] [] [] []) in
    let dailyAggregates := dailyMap c in
    let peaks :=
      fold_left peakStep dailyAggregates
                (mkPeak 0 "N/A" initialDayName, mkPeak 0 "N/A" initialDayName) in
    mkAggregates (fst peaks) (snd peaks)
                 (getStats (hourlyEfficiency c))
                 (getStats (hourlyOrders c))
                 (getStats (hourlyLabels c))
                 (getStats (hourlyLabor c)).

End Aggregates.

(** The two variants. *)
Definition aggregates_App (formatDay : string -> string) :=
  aggregates formatDay (Some "N/A").
Definition aggregates_Part000 (formatDay : string -> string) :=
  aggregates formatDay None.

End SummaryWidget.

(** ** RetryingFetcher: [fetchWithRetry] *)

Definition MAX_RETRIES : nat := 3.
Definition INITIAL_DELAY_MS : Z := 1000.

(** A [Response]; [text] is what [await res.text()] gives. *)
Record Response := mkResponse {
  ok : bool; status : Z; statusText : string; text : completion string }.

(** What one call of [fetch(url)] gives: a rejection or a response. *)
Inductive FetchOutcome : Type :=
| Rejected (e : JsError)
| Resolved (res : Response).

(** The observable effects, in the order they happen. *)
Inductive Event : Type :=
| Request (url : string)
| Warn (msg : string)
| Sleep (ms : Z).

Record World := mkWorld { requests : nat; trace : list Event }.

Definition Eff (A : Type) : Type := World -> completion A * World.

#[global] Instance Eff_ret : MRet Eff := fun A a w => (Normal a, w).
#[global] Instance Eff_bind : MBind Eff := fun A B k c w =>
  match c w with
  | (Normal a, w') => k a w'
  | (Throw e, w') => (Throw e, w')
  end.

Definition throw {A} (e : JsError) : Eff A := fun w => (Throw e, w).

Definition try_catch {A} (body : Eff A) (handler : JsError -> Eff A) : Eff A :=
  fun w =>
    match body w with
    | (Normal a, w') => (Normal a, w')
    | (Throw e, w') => handler e w'
    end.

Definition emit (ev : Event) : Eff unit :=
  fun w => (Normal tt, mkWorld (requests w) (trace w ++ [ev])%list).

Definition console_warn (msg : string) : Eff unit := emit (Warn msg).

(** [await new Promise(resolve => setTimeout(resolve, delay))] *)
Definition sleep (delay : Z) : Eff unit := emit (Sleep delay).

Section Fetcher.

(** The network: the outcome of the [n]-th request (from 0) for a URL. *)
Variable network : string -> nat -> FetchOutcome.

(** [await fetch(url)] *)
Definition fetch (url : string) : Eff Response :=
  fun w =>
    let w' := mkWorld (S (requests w)) (trace w ++ [Request url])%list in
    match network url (requests w) with
    | Rejected e => (Throw e, w')
    | Resolved res => (Normal res, w')
    end.

(** The [try] block, App.jsx lines 99-104. *)
Definition attempt (url : string) : Eff (option string) :=
  res ← fetch url;
  if negb (ok res) then
    throw (mkError ("HTTP Error " ^^ showZ (status res) ^^ ": " ^^ statusText res))
  else
    match text res with
    | Normal body => mret (Some body)
    | Throw e => throw e
    end.

(** The [for] loop of [fetchWithRetry], App.jsx lines 97-114, with
    [n = retries - i] iterations left; running out of iterations
    returns [undefined], which is [None]. [delay / 1000] is printed as
    an integer: the delay is 1000 times a power of two. *)
Fixpoint retryLoop (url name : string) (retries n i : nat) (delay : Z)
  : Eff (option string) :=
  match n with
  | O => mret None
  | S n' =>
      try_catch (attempt url)
        (fun error =>
           _ ← console_warn ("Fetch attempt " ^^ showZ (Z.of_nat i + 1) ^^ " for " ^^ name
                             ^^ " failed: " ^^ message error ^^ ". Retrying in "
                             ^^ showZ (delay / 1000) ^^ "s...");
           if (i =? retries - 1)%nat then
             throw (mkError ("Failed to fetch " ^^ name ^^ " after "
                             ^^ showZ (Z.of_nat MAX_RETRIES) ^^ " attempts."))
           else
             _ ← sleep delay;
             retryLoop url name retries n' (S i) (delay * 2))
  end.

Definition fetchWithRetry (url name : string) (retries : nat) : Eff (option string) :=
  retryLoop url name retries retries 0 INITIAL_DELAY_MS.

(** The second variant, part_000 lines 93-109: the last error is
    thrown again as it is. *)
Fixpoint retryLoop2 (url name : string) (retries n i : nat) (delay : Z)
  : Eff (option string) :=
  match n with
  | O => mret None
  | S n' =>
      try_catch (attempt url)
        (fun error =>
           _ ← console_warn ("Fetch attempt " ^^ showZ (Z.of_nat i + 1) ^^ " for " ^^ name
                             ^^ " failed. Retrying...");
           if (i =? retries - 1)%nat then throw error
           else
             _ ← sleep delay;
             retryLoop2 url name retries n' (S i) (delay * 2))
  end.

Definition fetchWithRetry2 (url name : string) (retries : nat) : Eff (option string) :=
  retryLoop2 url name retries retries 0 1000.

End Fetcher.

(** The delays a run performed, in order. *)
Definition delays (w : World) : list Z :=
  flat_map (fun ev => match ev with Sleep ms => [ms] | _ => [] end) (trace w).

(** The warnings a run logged, in order. *)
Definition warnings (w : World) : list string :=
  flat_map (fun ev => match ev with Warn msg => [msg] | _ => [] end) (trace w).

Definition initialWorld : World := mkWorld 0 [].

(** An attempt fails when the request is rejected, the status is not a
    success, or reading the body rejects; [failure o] is then the error
    the [catch] block receives. *)
Definition failure (o : FetchOutcome) : option JsError :=
  match o with
  | Rejected e => Some e
  | Resolved res =>
      if negb (ok res)
      then Some (mkError ("HTTP Error " ^^ showZ (status res) ^^ ": " ^^ statusText res))
      else match text res with
           | Normal _ => None
           | Throw e => Some e
           end
  end.

(** The payload of an attempt that succeeds. *)
Definition payload (o : FetchOutcome) : option string :=
  match o with
  | Rejected _ => None
  | Resolved res =>
      if negb (ok res) then None
      else match text res with
           | Normal body => Some body
           | Throw _ => None
           end
  end.

(** The item the callback of [parseCSV] returns for a line; it never
  throws, the guard on [parts.length] protects the two reads. *)
Definition lineItem (line : string) : RawRecord :=
  match split COMMA line with
  | f0 :: f1 :: _ =>
      mkRaw (trim (removeAll DQUOTE f0))
            (default 0 (parseInt10 (trim (removeAll DQUOTE f1))))
  | _ => mkRaw "" 0
  end.

(** ** A series for the examples of the range filter *)

(** A row with every configured source at zero, at time value [t]. *)
Definition emptyRowAt (t : Z) : HourlyRow := mkRow (hourLabel utcTZA t) t zeroFields.

(** One row per day, 2024-01-01 to 2024-01-10, at midnight UTC. *)
Definition january : list HourlyRow :=
  List.map (fun i => emptyRowAt (1704067200000 + i * msPerDay)) [0; 1; 2; 3; 4; 5; 6; 7; 8; 9].

(** ** Concrete networks for the examples *)

Definition serviceUnavailable : FetchOutcome :=
  Resolved (mkResponse false 503 "Service Unavailable" (Normal "")).

(** Two failures, then the payload. *)
Definition flakyNetwork (url : string) (n : nat) : FetchOutcome :=
  match n with
  | 0%nat => Rejected (mkError "Failed to fetch")
  | 1%nat => serviceUnavailable
  | _ => Resolved (mkResponse true 200 "OK" (Normal "timestamp,value"))
  end.

(** Every request answers 503. *)
Definition downNetwork (url : string) (n : nat) : FetchOutcome := serviceUnavailable.

(** The warning of a failed attempt, App.jsx line 106. *)
Definition warningOf (i : nat) (name : string) (error : JsError) (delay : Z) : string :=
  "Fetch attempt " ^^ showZ (Z.of_nat i + 1) ^^ " for " ^^ name
  ^^ " failed: " ^^ message error ^^ ". Retrying in " ^^ showZ (delay / 1000) ^^ "s...".

(** The warning of a failed attempt, part_000 line 103. *)
Definition warningOf2 (i : nat) (name : string) : string :=
  "Fetch attempt " ^^ showZ (Z.of_nat i + 1) ^^ " for " ^^ name ^^ " failed. Retrying...".

(** What the specification asks of the error of an exhausted fetch: its
    message names the label and the number of attempts, and keeps the
    message of the underlying error. *)
Definition identifiesAndPreserves (error : JsError) (name : string) (attempts : nat)
           (underlying : JsError) : bool :=
  includes (message error) name
  && includes (message error) (showZ (Z.of_nat attempts))
  && includes (message error) (message underlying).

Definition thrown {A} (r : completion A * World) : option JsError :=
  match fst r with
  | Throw e => Some e
  | Normal _ => None
  end.

(** The pattern both loops apply to a map: create the entry of [k] with
    the default [d] if it has none, then replace it by [f] of itself. *)
Definition upsert {V : Type} (d : V) (f : V -> V) (m : list (string * V)) (k : string)
  : list (string * V) :=
  let m1 := if JsMap.has m k then m else JsMap.set m k d in
  match JsMap.get m1 k with
  | Some current => JsMap.set m1 k (f current)
  | None => m1
  end.

(** ** Definitions for the statements on the statistics *)

Definition sumZ (l : list Z) : Z := fold_right Z.add 0 l.

(** A row given by its four metrics. *)
Definition metricsRow (h : string) (t orders labels packers pickers : Z) : HourlyRow :=
  mkRow h t (<["orders" := Num orders]> (<["labels" := Num labels]>
            (<["packers" := Num packers]> (<["pickers" := Num pickers]> ∅)))).

Module SummarySpec.
Import SummaryWidget.

(** Labels per unit of labor in one hour. *)
Definition efficiency (item : HourlyRow) : Binary64.double :=
  Binary64.div (Binary64.ofZ (labels_of item)) (Binary64.ofZ (labor_of item)).

Definition hasLabor (item : HourlyRow) : bool := 0 <? labor_of item.

(** The rows the widget assigns to the day [dateKey]: a row whose
    [sortTime] is 0 is falsy and assigned to no day. *)
Definition onDay (dateKey : string) (item : HourlyRow) : bool :=
  negb (sortTime item =? 0) && String.eqb (toISODate (sortTime item)) dateKey.

(** The total of a metric over the rows of one day. *)
Definition dailyTotal (metric : HourlyRow -> Z) (data : list HourlyRow)
           (dateKey : string) : Z :=
  sumZ (List.map metric (List.filter (onDay dateKey) data)).

(** The update of a day's counts by one row. *)
Definition addCounts (orders labels : Z) (currentDay : DayCounts) : DayCounts :=
  mkDay (day_orders currentDay + orders) (day_labels currentDay + labels).

(** The counts of a day in the map are the totals of the rows of that
    day seen so far; a day without entry has no row yet. *)
Definition dailyInv (seen : list HourlyRow) (m : list (string * DayCounts)) : Prop :=
  NoDup (JsMap.keys m) /\
  forall dateKey,
    match JsMap.get m dateKey with
    | Some counts =>
        day_orders counts = dailyTotal orders_of seen dateKey /\
        day_labels counts = dailyTotal labels_of seen dateKey
    | None => List.filter (onDay dateKey) seen = []
    end.

(** The two rows of property P7. *)
Definition idleHour : HourlyRow := metricsRow "Jan-01 00:00" 1704067200000 0 10 0 0.
Definition busyHour : HourlyRow := metricsRow "Jan-01 01:00" 1704070800000 0 10 2 3.

(** Two days on which staff is present and nothing is ordered or
    labelled. *)
Definition quietDays : list HourlyRow :=
  [ metricsRow "Jan-01 00:00" 1704067200000 0 0 2 3;
    metricsRow "Jan-02 00:00" 1704153600000 0 0 1 1 ].

End SummarySpec.

(** ** Definitions for the statements on the aggregation *)

Definition sourceKeys : list string := List.map key ALL_CSV_FILES.

Section AggregatorSpec.

Variable Date_parse : string -> option Z.
Variable LocalTZA : Z -> bool -> Z.

(** The hour bucket of a record: its label and its truncated time
    value, [None] when the timestamp does not parse. *)
Definition bucket (item : RawRecord) : option (string * Z) :=
  getHourlyKey2 Date_parse LocalTZA (timestamp item).

Definition labelOf (item : RawRecord) : option string := fst <$> bucket item.
Definition hourOf (item : RawRecord) : option Z := snd <$> bucket item.

(** The records in the order the two loops visit them, each with the
    key of its source. *)
Definition records (results : list (string * string)) : list (string * RawRecord) :=
  flat_map (fun result =>
              List.map (fun item => (fst result, item))
                       (omap lineRecord (dataLines (snd result))))
           results.

Definition step (m : list (string * HourlyRow)) (rec : string * RawRecord)
  : list (string * HourlyRow) :=
  addItem Date_parse LocalTZA (fst rec) m (snd rec).

(** The records that fall under the label [label]. *)
Definition underLabel (label : string) (item : RawRecord) : bool :=
  match labelOf item with
  | Some l => String.eqb l label
  | None => false
  end.

(** The records of source [k] that fall under the label [label]. *)
Definition inBucket (k label : string) (rec : string * RawRecord) : bool :=
  String.eqb (fst rec) k && underLabel label (snd rec).

(** What source [k] contributes to the row of [label]. *)
Definition contribution (k label : string) (recs : list (string * RawRecord)) : Z :=
  sumZ (List.map (fun rec => value (snd rec)) (List.filter (inBucket k label) recs)).

(** What the aggregation maintains, after the records [seen]. *)
Definition aggInv (seen : list (string * RawRecord)) (m : list (string * HourlyRow)) : Prop :=
  NoDup (JsMap.keys m) /\
  forall label,
    match JsMap.get m label with
    | Some row =>
        hour row = label
        /\ hourLabel LocalTZA (sortTime row) = label
        /\ (exists rec, In rec seen /\ bucket (snd rec) = Some (label, sortTime row))
        /\ (forall k, In k sourceKeys ->
              fields row !! k = Some (Num (contribution k label seen)))
    | None => forall rec, In rec seen -> labelOf (snd rec) <> Some label
    end.

(** The shape the specification asks of the series: one row for each
    distinct truncated hour of the records, and no other row. *)
Definition oneRowPerHour (recs : list (string * RawRecord)) (series : list HourlyRow) : Prop :=
  NoDup (List.map sortTime series) /\
  forall t, In t (List.map sortTime series)
            <-> exists rec, In rec recs /\ hourOf (snd rec) = Some t.

(** The shape the code gives: one row for each distinct label. *)
Definition oneRowPerLabel (recs : list (string * RawRecord)) (series : list HourlyRow) : Prop :=
  NoDup (List.map hour series) /\
  forall label, In label (List.map hour series)
                <-> exists rec, In rec recs /\ labelOf (snd rec) = Some label.

End AggregatorSpec.

(** ** Concrete feeds for the examples *)

(** A payload: the header line, then the given data lines. *)
Definition csvOf (rows : list string) : string :=
  String.concat (chr 10) ("timestamp,value" :: rows).

Definition feed (orders labels : list string) (file : SourceFile) : string :=
  if String.eqb (key file) "orders" then csvOf orders
  else if String.eqb (key file) "labels" then csvOf labels
  else csvOf [].

(** The end-to-end scenario of the specification. *)
Definition scenario : SourceFile -> string :=
  feed ["2024-06-01T10:15:00Z,7"] ["2024-06-01T10:50:00Z,3"].

(** Two orders records in the same hour, one in the hour before, and
    labels in both hours. *)
Definition sameHour : SourceFile -> string :=
  feed ["2024-06-01T10:15:00Z,7"; "2024-06-01T09:05:00Z,1"; "2024-06-01T10:40:00Z,5"]
       ["2024-06-01T10:50:00Z,3"; "2024-06-01T09:50:00Z,4"].

(** Two orders records one year apart, at the same month, day and hour. *)
Definition twoYears : SourceFile -> string :=
  feed ["2023-06-01T10:15:00Z,2"; "2024-06-01T10:15:00Z,7"] [].

Definition ordersFile : SourceFile := mkFile "orders.csv" "orders" "Orders".

(** ** Definitions for the general statements on the fetcher *)

(** The first [n] delays of the backoff: 1000, 2000, 4000, ... *)
Definition backoff (n : nat) : list Z :=
  List.map (fun j => INITIAL_DELAY_MS * 2 ^ Z.of_nat j) (seq 0 n).

(** The first [n] requests for [url] all fail. *)
Definition firstFail (network : string -> nat -> FetchOutcome) (url : string) (n : nat) : Prop :=
  forall j, (j < n)%nat -> failure (network url j) <> None.

(** ** Definitions for the general statements on the parser *)

(** Every character of [s] is white space. *)
Fixpoint allWhite (s : string) : bool :=
  match s with
  | EmptyString => true
  | String c r => isWhiteSpace c && allWhite r
  end.

(** The character [c] does not occur in [s]. *)
Fixpoint noChar (c : ascii) (s : string) : bool :=
  match s with
  | EmptyString => true
  | String d r => negb (Ascii.eqb d c) && noChar c r
  end.

(** ** The component [App]: its state, [processAllFiles] and what it renders *)

Module App.

(** The four [useState] cells. *)
Record State := mkState {
  data : list HourlyRow;
  loading : bool;
  error : option string;
  selectedRangeDays : Z }.

(** The state of the first render: no data, loading, 7 days. *)
Definition initial : State := mkState [] true None 7.

(** [err.message || "An unknown error occurred while loading data."] *)
Definition messageOf (err : JsError) : string :=
  if String.eqb (message err) "" then "An unknown error occurred while loading data."
  else message err.

Section ProcessAllFiles.

Variable Date_parse : string -> option Z.
Variable LocalTZA : Z -> bool -> Z.

(** The state once [processAllFiles] has run to its end, App.jsx lines
    414-473, given what [await Promise.all(fetchPromises)] gave: the
    payload of each file, or the error of a fetch that was rejected.
    [setLoading(true)] and [setError(null)] come first, [setData] last
    in the [try] block, [setError] in the [catch] block and
    [setLoading(false)] in the [finally] block. *)
Definition processAllFiles (fetched : completion (SourceFile -> string)) (s : State) : State :=
  let tried :=
    csvText ← fetched;
    finalChartData Date_parse LocalTZA (resultsOf csvText) in
  match tried with
  | Normal finalChartData => mkState finalChartData false None (selectedRangeDays s)
  | Throw err => mkState (data s) false (Some (messageOf err)) (selectedRangeDays s)
  end.

(** The same for the second variant, part_000 lines 353-395. *)
Definition processAllFiles2 (fetched : completion (SourceFile -> string)) (s : State) : State :=
  let tried :=
    csvText ← fetched;
    Part000.finalChartData Date_parse LocalTZA (resultsOf csvText) in
  match tried with
  | Normal finalChartData => mkState finalChartData false None (selectedRangeDays s)
  | Throw err => mkState (data s) false (Some (messageOf err)) (selectedRangeDays s)
  end.

End ProcessAllFiles.

(** What App.jsx returns, lines 496-573: the loading screen, the error
    screen with its traceback, or the dashboard over the filtered
    data. An empty string is falsy, as [null] is. *)
Inductive View : Type :=
| LoadingScreen
| ErrorScreen (traceback : string)
| Dashboard (selectedRange : Z) (rows : list HourlyRow).

Definition render (s : State) : View :=
  if loading s then LoadingScreen
  else
    match error s with
    | Some e =>
        if String.eqb e "" then
          Dashboard (selectedRangeDays s) (filteredData (data s) (selectedRangeDays s))
        else ErrorScreen e
    | None => Dashboard (selectedRangeDays s) (filteredData (data s) (selectedRangeDays s))
    end.

(** What the second variant returns, part_000 lines 409-475: an error
    banner when there is an error, above the loader or the dashboard. *)
Inductive Body : Type :=
| Loader
| Content (selectedRange : Z) (rows : list HourlyRow).

Record View2 := mkView2 { banner : option string; body : Body }.

Definition render2 (s : State) : View2 :=
  mkView2
    (match error s with
     | Some e => if String.eqb e "" then None else Some e
     | None => None
     end)
    (if loading s && (length (data s) =? 0)%nat then Loader
     else Content (selectedRangeDays s) (filteredData (data s) (selectedRangeDays s))).

End App.

(** ** Definitions for the general statements on the aggregation *)

(** The total of the column [k] over a series. *)
Definition columnTotal (k : string) (series : list HourlyRow) : Z :=
  sumZ (List.map (fun row => or0 (fields row !! k)) series).

Section AggregatorTotals.

Variable Date_parse : string -> option Z.
Variable LocalTZA : Z -> bool -> Z.

(** The total of the values of the records of source [k] whose
    timestamp parses. *)
Definition sourceTotal (k : string) (recs : list (string * RawRecord)) : Z :=
  sumZ (List.map (fun rec => value (snd rec))
                 (List.filter (fun rec => String.eqb (fst rec) k
                                          && bool_decide (is_Some (Date_parse (timestamp (snd rec)))))
                              recs)).

(** No two records of different hours share a label. *)
Definition collisionFree (recs : list (string * RawRecord)) : Prop :=
  forall r r', In r recs -> In r' recs ->
    labelOf Date_parse LocalTZA (snd r) = labelOf Date_parse LocalTZA (snd r') ->
    hourOf Date_parse LocalTZA (snd r) = hourOf Date_parse LocalTZA (snd r').

End AggregatorTotals.

(** ** Definitions for the statement on the order of the records *)

(** The rows hold no property beyond the configured keys. *)
Definition fieldsInv (m : list (string * HourlyRow)) : Prop :=
  forall label row, JsMap.get m label = Some row ->
    forall k, ~ In k sourceKeys -> fields row !! k = None.

(** ** Definitions for the statement on the sum of two records *)

Section SumInvariantSpec.

Variable Date_parse : string -> option Z.
Variable LocalTZA : Z -> bool -> Z.

(** The records that fall in the hour bucket [t], the truncated time
    value. *)
Definition inHour (t : Z) (item : RawRecord) : bool :=
  match hourOf Date_parse LocalTZA item with
  | Some t' => t' =? t
  | None => false
  end.

(** The sum invariant by hour bucket, as the specification words it:
    when the records of a source that map to an hour bucket are two
    records, the row they are added to holds the sum of their two
    values for that source. *)
Definition sumPerHour (csvText : SourceFile -> string) (series : list HourlyRow) : Prop :=
  forall file parsed r1 r2 t,
    In file ALL_CSV_FILES ->
    parseCSV (csvText file) = Normal parsed ->
    Permutation (List.filter (inHour t) parsed) [r1; r2] ->
    exists row,
      In row series
      /\ labelOf Date_parse LocalTZA r1 = Some (hour row)
      /\ fields row !! key file = Some (Num (value r1 + value r2)).

End SumInvariantSpec.

(** Two orders records in one hour of 2024 and one a year before, at the
    same month, day and hour. *)
Definition acrossYears : SourceFile -> string :=
  feed ["2024-06-01T10:15:00Z,7"; "2024-06-01T10:40:00Z,5"; "2023-06-01T10:20:00Z,2"] [].

(** * Theorems *)

(** ** Facts on the CSV parser *)

Section ParserFacts.

Lemma split_nonempty (sep : ascii) (s : string) : split sep s <> [].
Proof.
  destruct s as [| c r]; simpl; [discriminate |].
  destruct (Ascii.eqb c sep); [discriminate |].
  destruct (split sep r); discriminate.
Qed.

Lemma split_length_cons (sep c : ascii) (r : string) :
  length (split sep (String c r)) =
  if Ascii.eqb c sep then S (length (split sep r)) else length (split sep r).
Proof.
  simpl. destruct (Ascii.eqb c sep); [reflexivity |].
  pose proof (split_nonempty sep r).
  destruct (split sep r); [congruence | reflexivity].
Qed.

Lemma split_length_pos (sep : ascii) (s : string) : (1 <= length (split sep s))%nat.
Proof.
  pose proof (split_nonempty sep s). destruct (split sep s); simpl; [congruence | lia].
Qed.

Lemma split_length_trimStart (sep : ascii) (s : string) :
  (length (split sep (trimStart s)) <= length (split sep s))%nat.
Proof.
  induction s as [| c r IH]; [reflexivity |].
  cbn [trimStart]. destruct (isWhiteSpace c); [| reflexivity].
  rewrite split_length_cons. destruct (Ascii.eqb c sep); lia.
Qed.

Lemma split_length_trimEnd (sep : ascii) (s : string) :
  (length (split sep (trimEnd s)) <= length (split sep s))%nat.
Proof.
  induction s as [| c r IH]; [reflexivity |].
  cbn [trimEnd]. rewrite (split_length_cons sep c r).
  destruct (trimEnd r) as [| c' r'] eqn:E.
  - pose proof (split_length_pos sep r).
    destruct (isWhiteSpace c).
    + simpl. destruct (Ascii.eqb c sep); lia.
    + rewrite split_length_cons. simpl. destruct (Ascii.eqb c sep); lia.
  - rewrite split_length_cons. destruct (Ascii.eqb c sep); lia.
Qed.

Lemma split_length_trim (sep : ascii) (s : string) :
  (length (split sep (trim s)) <= length (split sep s))%nat.
Proof.
  unfold trim. etransitivity; [apply split_length_trimEnd | apply split_length_trimStart].
Qed.

Lemma parseCSV_line_total (line : string) :
  parseCSV_line line = Normal (lineItem line).
Proof.
  unfold parseCSV_line, lineItem.
  destruct (split COMMA line) as [| f0 [| f1 parts]]; reflexivity.
Qed.

Lemma parseCSV_line_variant (line : string) :
  Part000Csv.parseCSV_line line = parseCSV_line line.
Proof. reflexivity. Qed.

Lemma mapM_parseCSV_line (lines : list string) :
  mapM parseCSV_line lines = Normal (List.map lineItem lines).
Proof.
  induction lines as [| l ls IH]; [reflexivity |].
  cbn [mapM List.map]. rewrite parseCSV_line_total, IH. reflexivity.
Qed.

Lemma filter_lineItem (lines : list string) :
  List.filter (fun item => negb (String.eqb (timestamp item) "")) (List.map lineItem lines)
  = omap lineRecord lines.
Proof.
  induction lines as [| l ls IH]; [reflexivity |].
  cbn [List.map List.filter omap list_omap]. rewrite IH.
  unfold lineItem, lineRecord.
  destruct (split COMMA l) as [| f0 [| f1 parts]]; try reflexivity.
  cbn [timestamp]. destruct (String.eqb (trim (removeAll DQUOTE f0)) ""); reflexivity.
Qed.

Lemma parseCSV_total (csvText : string) :
  parseCSV csvText = Normal (omap lineRecord (dataLines csvText)).
Proof.
  unfold parseCSV, dataLines.
  destruct (String.eqb csvText "") eqn:E.
  - apply String.eqb_eq in E. subst. reflexivity.
  - destruct (length (split LF (trim csvText)) <? 2)%nat eqn:L.
    + apply Nat.ltb_lt in L.
      destruct (split LF (trim csvText)) as [| l0 [| l1 ls]]; simpl in L; try lia; reflexivity.
    + rewrite mapM_parseCSV_line. cbn. now rewrite filter_lineItem.
Qed.

Lemma parseCSV_variant (csvText : string) :
  Part000Csv.parseCSV csvText = parseCSV csvText.
Proof. reflexivity. Qed.

End ParserFacts.

(** C5: the parser never throws, whatever the text, and what it returns
    is made line by line: each data line either gives its record or is
    dropped, independently of the other lines; a text of fewer than two
    lines (the empty text among them) gives no record; and on the input
    of P6 the result is the two records of the specification. The second
    variant of the parser is the same function. *)
Theorem parseCSV_robust :
  (forall csvText, parseCSV csvText = Normal (omap lineRecord (dataLines csvText))) /\
  (forall csvText, (length (split LF csvText) < 2)%nat -> parseCSV csvText = Normal []) /\
  parseCSV "" = Normal [] /\
  parseCSV P6_input =
    Normal [mkRaw "2024-01-01T00:00:00Z" 5; mkRaw "2024-01-01T01:00:00Z" 0] /\
  (forall csvText, Part000Csv.parseCSV csvText = parseCSV csvText).
Proof.
  split; [exact parseCSV_total |].
  split.
  { intros csvText H. rewrite parseCSV_total. unfold dataLines.
    pose proof (split_length_trim LF csvText) as Ht.
    destruct (split LF (trim csvText)) as [| l0 [| l1 ls]]; simpl in Ht; try reflexivity; lia. }
  split; [reflexivity |].
  split; [vm_compute; reflexivity |].
  exact parseCSV_variant.
Qed.

Lemma parseCSV_robust_witness :
  (length (split LF "timestamp,value") < 2)%nat /\
  parseCSV "timestamp,value" = Normal [].
Proof.
  assert (H : (length (split LF "timestamp,value") < 2)%nat) by (vm_compute; lia).
  split; [exact H |].
  exact (proj1 (proj2 parseCSV_robust) "timestamp,value" H).
Defined.

(** ** Facts on the range filter *)

Section RangeFilterFacts.

Lemma nth_error_last_snoc {A} (front : list A) (x : A) :
  nth_error (front ++ [x])%list (length (front ++ [x])%list - 1) = Some x.
Proof.
  rewrite length_app. simpl.
  replace (length front + 1 - 1)%nat with (length front) by lia.
  rewrite nth_error_app2 by lia.
  now rewrite Nat.sub_diag.
Qed.

Lemma window_ms (d : Z) : d * 24 * 60 * 60 * 1000 = d * 86400000.
Proof. lia. Qed.

End RangeFilterFacts.

(** C2: for every series and every window the filter returns, in the
    original order, exactly the rows whose [sortTime] is at least the
    [sortTime] of the last row of the series minus the window in days
    times 86,400,000 ms; the empty series gives the empty series. *)
Theorem filteredData_window :
  (forall d, filteredData [] d = []) /\
  (forall front lastRow d,
      filteredData (front ++ [lastRow])%list d =
      List.filter (fun r => sortTime lastRow - d * 86400000 <=? sortTime r)
                  (front ++ [lastRow])%list) /\
  (forall front lastRow d r,
      In r (filteredData (front ++ [lastRow])%list d) <->
      In r (front ++ [lastRow])%list /\ sortTime lastRow - d * 86400000 <= sortTime r).
Proof.
  assert (H : forall front lastRow d,
      filteredData (front ++ [lastRow])%list d =
      List.filter (fun r => sortTime lastRow - d * 86400000 <=? sortTime r)
                  (front ++ [lastRow])%list).
  { intros front lastRow d. unfold filteredData.
    rewrite nth_error_last_snoc.
    destruct (length (front ++ [lastRow])%list =? 0)%nat eqn:E.
    - apply Nat.eqb_eq in E. rewrite length_app in E. simpl in E. lia.
    - now rewrite window_ms. }
  split; [reflexivity |]. split; [exact H |].
  intros front lastRow d r. rewrite H, filter_In, Z.leb_le. reflexivity.
Qed.

(** C1, as the code has it: the window is anchored to the [sortTime] of
    the last row of the series, no clock is read; with one row per day
    at the same time of day over ten consecutive days and a window of 3
    days, the filter keeps the last four rows, the lower bound being
    inclusive. *)
Theorem filteredData_ten_days (rows : list HourlyRow) (t0 : Z) :
  length rows = 10%nat ->
  (forall (i : nat) r, nth_error rows i = Some r -> sortTime r = t0 + Z.of_nat i * msPerDay) ->
  filteredData rows 3 = skipn 6 rows
  /\ exists lastRow,
       last rows = Some lastRow
       /\ filteredData rows 3
          = List.filter (fun r => sortTime lastRow - 3 * msPerDay <=? sortTime r) rows.
Proof.
  intros Hlen Hrows.
  split; [| do 10 (destruct rows as [| ? rows]; [discriminate Hlen |]);
            destruct rows; [| discriminate Hlen];
            eexists; split; reflexivity ].
  do 10 (destruct rows as [| ? rows]; [discriminate Hlen |]).
  destruct rows; [| discriminate Hlen].
  pose proof (Hrows 0%nat _ eq_refl) as E0. pose proof (Hrows 1%nat _ eq_refl) as E1.
  pose proof (Hrows 2%nat _ eq_refl) as E2. pose proof (Hrows 3%nat _ eq_refl) as E3.
  pose proof (Hrows 4%nat _ eq_refl) as E4. pose proof (Hrows 5%nat _ eq_refl) as E5.
  pose proof (Hrows 6%nat _ eq_refl) as E6. pose proof (Hrows 7%nat _ eq_refl) as E7.
  pose proof (Hrows 8%nat _ eq_refl) as E8. pose proof (Hrows 9%nat _ eq_refl) as E9.
  unfold msPerDay in *. unfold filteredData. simpl.
  rewrite E0, E1, E2, E3, E4, E5, E6, E7, E8, E9.
  repeat match goal with
         | |- context [?a <=? ?b] =>
             first [ replace (a <=? b) with true by (symmetry; apply Z.leb_le; lia)
                   | replace (a <=? b) with false by (symmetry; apply Z.leb_gt; lia) ]
         end.
  reflexivity.
Qed.

Lemma filteredData_ten_days_witness :
  filteredData january 3 = skipn 6 january /\
  List.map (fun r => toISODate (sortTime r)) (filteredData january 3)
  = ["2024-01-07"; "2024-01-08"; "2024-01-09"; "2024-01-10"].
Proof.
  assert (Hlen : length january = 10%nat) by reflexivity.
  assert (Hrows : forall (i : nat) r, nth_error january i = Some r ->
                    sortTime r = 1704067200000 + Z.of_nat i * msPerDay).
  { intros i r H.
    do 10 (destruct i as [| i]; [injection H as <-; reflexivity |]).
    destruct i; discriminate H. }
  split.
  - exact (proj1 (filteredData_ten_days january 1704067200000 Hlen Hrows)).
  - vm_compute. reflexivity.
Defined.

(** C1 as the specification words it fails: over 2024-01-01 to
    2024-01-10 with a window of 3 days the filter does not return just
    the rows of 01-08, 01-09 and 01-10; the row of 01-07 is kept too. *)
Lemma filteredData_january_not_three :
  List.map (fun r => toISODate (sortTime r)) january
  = ["2024-01-01"; "2024-01-02"; "2024-01-03"; "2024-01-04"; "2024-01-05";
     "2024-01-06"; "2024-01-07"; "2024-01-08"; "2024-01-09"; "2024-01-10"] /\
  filteredData january 3 <> skipn 7 january /\
  List.map (fun r => toISODate (sortTime r)) (filteredData january 3)
  <> ["2024-01-08"; "2024-01-09"; "2024-01-10"].
Proof.
  split; [vm_compute; reflexivity |].
  split; intros H.
  - apply (f_equal (@length HourlyRow)) in H. vm_compute in H. discriminate H.
  - vm_compute in H. discriminate H.
Qed.

(** ** Facts on the retrying fetcher *)

Section FetcherFacts.

Variable network : string -> nat -> FetchOutcome.

Lemma attempt_failure (url : string) (w : World) (e : JsError) :
  failure (network url (requests w)) = Some e ->
  attempt network url w
  = (Throw e, mkWorld (S (requests w)) (trace w ++ [Request url])%list).
Proof.
  unfold failure, attempt, fetch, mbind, Eff_bind, throw.
  destruct (network url (requests w)) as [e' | res].
  - now intros [= ->].
  - destruct (negb (ok res)); [now intros [= ->] |].
    destruct (text res); [discriminate | now intros [= ->]].
Qed.

Lemma attempt_payload (url : string) (w : World) (body : string) :
  payload (network url (requests w)) = Some body ->
  attempt network url w
  = (Normal (Some body), mkWorld (S (requests w)) (trace w ++ [Request url])%list).
Proof.
  unfold payload, attempt, fetch, mbind, Eff_bind, throw.
  destruct (network url (requests w)) as [e' | res]; [discriminate |].
  destruct (negb (ok res)); [discriminate |].
  destruct (text res); [now intros [= ->] | discriminate].
Qed.

(** One iteration that fails and is not the last one. *)
Lemma retryLoop_retry url name retries n i delay w e :
  failure (network url (requests w)) = Some e ->
  i <> (retries - 1)%nat ->
  retryLoop network url name retries (S n) i delay w
  = retryLoop network url name retries n (S i) (delay * 2)
      (mkWorld (S (requests w))
               (trace w ++ [Request url; Warn (warningOf i name e delay); Sleep delay])%list).
Proof.
  intros Hf Hi. cbn [retryLoop]. unfold try_catch. rewrite (attempt_failure _ _ _ Hf).
  apply Nat.eqb_neq in Hi.
  unfold mbind, Eff_bind, console_warn, sleep, emit. cbn. rewrite Hi. cbn.
  rewrite <- !app_assoc. reflexivity.
Qed.

(** The iteration that fails last. *)
Lemma retryLoop_exhausted url name retries n delay w e :
  failure (network url (requests w)) = Some e ->
  retryLoop network url name retries (S n) (retries - 1) delay w
  = (Throw (mkError ("Failed to fetch " ^^ name ^^ " after "
                     ^^ showZ (Z.of_nat MAX_RETRIES) ^^ " attempts.")),
     mkWorld (S (requests w))
             (trace w ++ [Request url; Warn (warningOf (retries - 1) name e delay)])%list).
Proof.
  intros Hf. cbn [retryLoop]. unfold try_catch. rewrite (attempt_failure _ _ _ Hf).
  unfold mbind, Eff_bind, console_warn, emit, throw. cbn. rewrite Nat.eqb_refl. cbn.
  rewrite <- !app_assoc. reflexivity.
Qed.

Lemma retryLoop_success url name retries n i delay w body :
  payload (network url (requests w)) = Some body ->
  retryLoop network url name retries (S n) i delay w
  = (Normal (Some body), mkWorld (S (requests w)) (trace w ++ [Request url])%list).
Proof.
  intros Hp. cbn [retryLoop]. unfold try_catch. now rewrite (attempt_payload _ _ _ Hp).
Qed.

Lemma retryLoop2_retry url name retries n i delay w e :
  failure (network url (requests w)) = Some e ->
  i <> (retries - 1)%nat ->
  retryLoop2 network url name retries (S n) i delay w
  = retryLoop2 network url name retries n (S i) (delay * 2)
      (mkWorld (S (requests w))
               (trace w ++ [Request url; Warn (warningOf2 i name); Sleep delay])%list).
Proof.
  intros Hf Hi. cbn [retryLoop2]. unfold try_catch. rewrite (attempt_failure _ _ _ Hf).
  apply Nat.eqb_neq in Hi.
  unfold mbind, Eff_bind, console_warn, sleep, emit. cbn. rewrite Hi. cbn.
  rewrite <- !app_assoc. reflexivity.
Qed.

Lemma retryLoop2_exhausted url name retries n delay w e :
  failure (network url (requests w)) = Some e ->
  retryLoop2 network url name retries (S n) (retries - 1) delay w
  = (Throw e,
     mkWorld (S (requests w))
             (trace w ++ [Request url; Warn (warningOf2 (retries - 1) name)])%list).
Proof.
  intros Hf. cbn [retryLoop2]. unfold try_catch. rewrite (attempt_failure _ _ _ Hf).
  unfold mbind, Eff_bind, console_warn, emit, throw. cbn. rewrite Nat.eqb_refl. cbn.
  rewrite <- !app_assoc. reflexivity.
Qed.

Lemma retryLoop2_success url name retries n i delay w body :
  payload (network url (requests w)) = Some body ->
  retryLoop2 network url name retries (S n) i delay w
  = (Normal (Some body), mkWorld (S (requests w)) (trace w ++ [Request url])%list).
Proof.
  intros Hp. cbn [retryLoop2]. unfold try_catch. now rewrite (attempt_payload _ _ _ Hp).
Qed.

(** The run of three failed attempts, in full. *)
Lemma fetchWithRetry_three_failures url name e1 e2 e3 :
  failure (network url 0) = Some e1 ->
  failure (network url 1) = Some e2 ->
  failure (network url 2) = Some e3 ->
  fetchWithRetry network url name MAX_RETRIES initialWorld
  = (Throw (mkError ("Failed to fetch " ^^ name ^^ " after 3 attempts.")),
     mkWorld 3 [Request url; Warn (warningOf 0 name e1 1000); Sleep 1000;
                Request url; Warn (warningOf 1 name e2 2000); Sleep 2000;
                Request url; Warn (warningOf 2 name e3 4000)]).
Proof.
  intros H1 H2 H3. unfold fetchWithRetry, MAX_RETRIES, INITIAL_DELAY_MS.
  rewrite retryLoop_retry with (e := e1) by (exact H1 || (simpl; lia)).
  rewrite retryLoop_retry with (e := e2) by (exact H2 || (simpl; lia)).
  change 2%nat with (3 - 1)%nat at 1.
  rewrite retryLoop_exhausted with (e := e3) by exact H3.
  reflexivity.
Qed.

Lemma fetchWithRetry2_three_failures url name e1 e2 e3 :
  failure (network url 0) = Some e1 ->
  failure (network url 1) = Some e2 ->
  failure (network url 2) = Some e3 ->
  fetchWithRetry2 network url name 3 initialWorld
  = (Throw e3,
     mkWorld 3 [Request url; Warn (warningOf2 0 name); Sleep 1000;
                Request url; Warn (warningOf2 1 name); Sleep 2000;
                Request url; Warn (warningOf2 2 name)]).
Proof.
  intros H1 H2 H3. unfold fetchWithRetry2.
  rewrite retryLoop2_retry with (e := e1) by (exact H1 || (simpl; lia)).
  rewrite retryLoop2_retry with (e := e2) by (exact H2 || (simpl; lia)).
  change 2%nat with (3 - 1)%nat at 1.
  rewrite retryLoop2_exhausted with (e := e3) by exact H3.
  reflexivity.
Qed.

Lemma fetchWithRetry_third_succeeds url name e1 e2 body :
  failure (network url 0) = Some e1 ->
  failure (network url 1) = Some e2 ->
  payload (network url 2) = Some body ->
  fetchWithRetry network url name MAX_RETRIES initialWorld
  = (Normal (Some body),
     mkWorld 3 [Request url; Warn (warningOf 0 name e1 1000); Sleep 1000;
                Request url; Warn (warningOf 1 name e2 2000); Sleep 2000;
                Request url]).
Proof.
  intros H1 H2 H3. unfold fetchWithRetry, MAX_RETRIES, INITIAL_DELAY_MS.
  rewrite retryLoop_retry with (e := e1) by (exact H1 || (simpl; lia)).
  rewrite retryLoop_retry with (e := e2) by (exact H2 || (simpl; lia)).
  rewrite retryLoop_success with (body := body) by exact H3.
  reflexivity.
Qed.

Lemma fetchWithRetry2_third_succeeds url name e1 e2 body :
  failure (network url 0) = Some e1 ->
  failure (network url 1) = Some e2 ->
  payload (network url 2) = Some body ->
  fetchWithRetry2 network url name 3 initialWorld
  = (Normal (Some body),
     mkWorld 3 [Request url; Warn (warningOf2 0 name); Sleep 1000;
                Request url; Warn (warningOf2 1 name); Sleep 2000;
                Request url]).
Proof.
  intros H1 H2 H3. unfold fetchWithRetry2.
  rewrite retryLoop2_retry with (e := e1) by (exact H1 || (simpl; lia)).
  rewrite retryLoop2_retry with (e := e2) by (exact H2 || (simpl; lia)).
  rewrite retryLoop2_success with (body := body) by exact H3.
  reflexivity.
Qed.

End FetcherFacts.

(** C3: with the fixed configuration (3 attempts, 1000 ms), a fetch
    whose first two attempts fail returns the payload of the third
    attempt when it succeeds, after exactly two delays, 1000 ms then
    2000 ms; when the third attempt fails too it throws, again after
    exactly these two delays: three requests were made and the last
    event of the run is the warning of the third failure, not a delay.
    Both variants of [fetchWithRetry] behave so. *)
Theorem fetchWithRetry_backoff (network : string -> nat -> FetchOutcome)
        (url name : string) (e1 e2 : JsError) :
  failure (network url 0%nat) = Some e1 ->
  failure (network url 1%nat) = Some e2 ->
  (forall body, payload (network url 2%nat) = Some body ->
     exists w w2,
       fetchWithRetry network url name MAX_RETRIES initialWorld = (Normal (Some body), w)
       /\ delays w = [1000; 2000]
       /\ fetchWithRetry2 network url name 3 initialWorld = (Normal (Some body), w2)
       /\ delays w2 = [1000; 2000])
  /\
  (forall e3, failure (network url 2%nat) = Some e3 ->
     exists err w err2 w2,
       fetchWithRetry network url name MAX_RETRIES initialWorld = (Throw err, w)
       /\ delays w = [1000; 2000] /\ requests w = 3%nat
       /\ (exists msg, last (trace w) = Some (Warn msg))
       /\ fetchWithRetry2 network url name 3 initialWorld = (Throw err2, w2)
       /\ delays w2 = [1000; 2000] /\ requests w2 = 3%nat
       /\ (exists msg, last (trace w2) = Some (Warn msg))).
Proof.
  intros H1 H2. split.
  - intros body H3.
    rewrite (fetchWithRetry_third_succeeds network url name e1 e2 body H1 H2 H3).
    rewrite (fetchWithRetry2_third_succeeds network url name e1 e2 body H1 H2 H3).
    do 2 eexists. repeat split; reflexivity.
  - intros e3 H3.
    rewrite (fetchWithRetry_three_failures network url name e1 e2 e3 H1 H2 H3).
    rewrite (fetchWithRetry2_three_failures network url name e1 e2 e3 H1 H2 H3).
    do 4 eexists. repeat split; try reflexivity; eexists; reflexivity.
Qed.

Lemma fetchWithRetry_backoff_witness :
  (exists w w2,
      fetchWithRetry flakyNetwork "u" "Orders" MAX_RETRIES initialWorld
      = (Normal (Some "timestamp,value"), w)
      /\ delays w = [1000; 2000]
      /\ fetchWithRetry2 flakyNetwork "u" "Orders" 3 initialWorld
         = (Normal (Some "timestamp,value"), w2)
      /\ delays w2 = [1000; 2000])
  /\
  (exists err w err2 w2,
      fetchWithRetry downNetwork "u" "Orders" MAX_RETRIES initialWorld = (Throw err, w)
      /\ delays w = [1000; 2000] /\ requests w = 3%nat
      /\ (exists msg, last (trace w) = Some (Warn msg))
      /\ fetchWithRetry2 downNetwork "u" "Orders" 3 initialWorld = (Throw err2, w2)
      /\ delays w2 = [1000; 2000] /\ requests w2 = 3%nat
      /\ (exists msg, last (trace w2) = Some (Warn msg))).
Proof.
  split.
  - apply (proj1 (fetchWithRetry_backoff flakyNetwork "u" "Orders"
                    (mkError "Failed to fetch")
                    (mkError "HTTP Error 503: Service Unavailable")
                    eq_refl eq_refl) "timestamp,value").
    reflexivity.
  - apply (proj2 (fetchWithRetry_backoff downNetwork "u" "Orders"
                    (mkError "HTTP Error 503: Service Unavailable")
                    (mkError "HTTP Error 503: Service Unavailable")
                    eq_refl eq_refl) (mkError "HTTP Error 503: Service Unavailable")).
    reflexivity.
Defined.

(** C4, as the code has it: when the three attempts fail, App.jsx
    throws an error whose message names the label and the configured
    number of attempts, and the detail of each underlying error goes to
    the warning of its attempt, not into the error; the second variant
    throws the error of the last attempt as it is, and names the label
    and the attempt in the warnings only. *)
Theorem fetchError_content (network : string -> nat -> FetchOutcome)
        (url name : string) (e1 e2 e3 : JsError) :
  failure (network url 0%nat) = Some e1 ->
  failure (network url 1%nat) = Some e2 ->
  failure (network url 2%nat) = Some e3 ->
  thrown (fetchWithRetry network url name MAX_RETRIES initialWorld)
  = Some (mkError ("Failed to fetch " ^^ name ^^ " after 3 attempts."))
  /\ warnings (snd (fetchWithRetry network url name MAX_RETRIES initialWorld))
     = [ "Fetch attempt 1 for " ^^ name ^^ " failed: " ^^ message e1 ^^ ". Retrying in 1s...";
         "Fetch attempt 2 for " ^^ name ^^ " failed: " ^^ message e2 ^^ ". Retrying in 2s...";
         "Fetch attempt 3 for " ^^ name ^^ " failed: " ^^ message e3 ^^ ". Retrying in 4s..." ]
  /\ thrown (fetchWithRetry2 network url name 3 initialWorld) = Some e3
  /\ warnings (snd (fetchWithRetry2 network url name 3 initialWorld))
     = [ "Fetch attempt 1 for " ^^ name ^^ " failed. Retrying...";
         "Fetch attempt 2 for " ^^ name ^^ " failed. Retrying...";
         "Fetch attempt 3 for " ^^ name ^^ " failed. Retrying..." ].
Proof.
  intros H1 H2 H3.
  rewrite (fetchWithRetry_three_failures network url name e1 e2 e3 H1 H2 H3).
  rewrite (fetchWithRetry2_three_failures network url name e1 e2 e3 H1 H2 H3).
  repeat split; reflexivity.
Qed.

Lemma fetchError_content_witness :
  thrown (fetchWithRetry downNetwork "u" "Orders" MAX_RETRIES initialWorld)
  = Some (mkError "Failed to fetch Orders after 3 attempts.")
  /\ thrown (fetchWithRetry2 downNetwork "u" "Orders" 3 initialWorld)
     = Some (mkError "HTTP Error 503: Service Unavailable").
Proof.
  pose proof (fetchError_content downNetwork "u" "Orders"
                (mkError "HTTP Error 503: Service Unavailable")
                (mkError "HTTP Error 503: Service Unavailable")
                (mkError "HTTP Error 503: Service Unavailable")
                eq_refl eq_refl eq_refl) as [Ha [_ [Hb _]]].
  split; [exact Ha | exact Hb].
Defined.

(** C4 as the specification words it fails in both variants: when every
    request answers 503, the error of App.jsx does not keep the
    underlying [HTTP Error 503: Service Unavailable], and the error of
    the second variant does not name the label [Orders]. *)
Lemma fetchError_not_label_and_detail :
  failure (downNetwork "u" 2%nat) = Some (mkError "HTTP Error 503: Service Unavailable")
  /\ (exists error,
        thrown (fetchWithRetry downNetwork "u" "Orders" MAX_RETRIES initialWorld) = Some error
        /\ includes (message error) "HTTP Error 503: Service Unavailable" = false
        /\ identifiesAndPreserves error "Orders" 3
             (mkError "HTTP Error 503: Service Unavailable") = false)
  /\ (exists error,
        thrown (fetchWithRetry2 downNetwork "u" "Orders" 3 initialWorld) = Some error
        /\ includes (message error) "Orders" = false
        /\ identifiesAndPreserves error "Orders" 3
             (mkError "HTTP Error 503: Service Unavailable") = false).
Proof.
  split; [reflexivity |].
  split; eexists; (split; [vm_compute; reflexivity |]); split; vm_compute; reflexivity.
Qed.

(** ** Facts on insertion-ordered maps *)

Section JsMapFacts.
Context {V : Type}.
Implicit Types (m : list (string * V)) (k : string) (v : V).

Lemma has_get m k : JsMap.has m k = true <-> JsMap.get m k <> None.
Proof.
  induction m as [| [k' v'] r IH]; simpl.
  - split; [discriminate | congruence].
  - destruct (String.eqb k' k); simpl; [split; [discriminate | reflexivity] | exact IH].
Qed.

Lemma has_keys m k : JsMap.has m k = true <-> In k (JsMap.keys m).
Proof.
  induction m as [| [k' v'] r IH]; simpl.
  - split; [discriminate | tauto].
  - destruct (String.eqb_spec k' k) as [-> | Hne]; simpl.
    + split; auto.
    + rewrite IH. split; [auto | intros [H | H]; [contradiction | exact H]].
Qed.

Lemma get_set_eq m k v : JsMap.get (JsMap.set m k v) k = Some v.
Proof.
  induction m as [| [k' v'] r IH]; simpl.
  - now rewrite String.eqb_refl.
  - destruct (String.eqb k' k) eqn:E; simpl.
    + now rewrite String.eqb_refl.
    + now rewrite E.
Qed.

Lemma get_set_ne m k k' v : k <> k' -> JsMap.get (JsMap.set m k v) k' = JsMap.get m k'.
Proof.
  intros Hne. induction m as [| [k0 v0] r IH]; simpl.
  - destruct (String.eqb_spec k k'); [contradiction | reflexivity].
  - destruct (String.eqb_spec k0 k) as [-> | Hk]; simpl.
    + destruct (String.eqb_spec k k'); [contradiction | reflexivity].
    + now rewrite IH.
Qed.

Lemma keys_set m k v :
  JsMap.keys (JsMap.set m k v)
  = if JsMap.has m k then JsMap.keys m else (JsMap.keys m ++ [k])%list.
Proof.
  induction m as [| [k0 v0] r IH]; simpl; [reflexivity |].
  destruct (String.eqb_spec k0 k) as [-> | Hk]; simpl; [reflexivity |].
  rewrite IH.
  now destruct (JsMap.has r k).
Qed.

Lemma get_In m k v : JsMap.get m k = Some v -> In (k, v) m.
Proof.
  induction m as [| [k0 v0] r IH]; simpl; [discriminate |].
  destruct (String.eqb_spec k0 k) as [-> | Hk].
  - intros [= ->]. now left.
  - intros H. right. now apply IH.
Qed.

Lemma In_get m k v : NoDup (JsMap.keys m) -> In (k, v) m -> JsMap.get m k = Some v.
Proof.
  induction m as [| [k0 v0] r IH]; simpl; [tauto |].
  intros Hnd [H | H].
  - injection H as -> ->. now rewrite String.eqb_refl.
  - apply NoDup_cons in Hnd as [Hnotin Hnd].
    destruct (String.eqb_spec k0 k) as [-> | Hk].
    + exfalso. apply Hnotin. apply list_elem_of_In.
      change k with (fst (k, v)). now apply in_map.
    + now apply IH.
Qed.

(** The map after an upsert. *)
Lemma upsert_get_eq (d : V) (f : V -> V) m k :
  JsMap.get (upsert d f m k) k = Some (f (default d (JsMap.get m k))).
Proof.
  unfold upsert.
  destruct (JsMap.has m k) eqn:E.
  - apply has_get in E. destruct (JsMap.get m k) as [c |] eqn:G; [| congruence].
    apply get_set_eq.
  - rewrite get_set_eq. rewrite get_set_eq.
    destruct (JsMap.get m k) as [c |] eqn:G; [| reflexivity].
    assert (JsMap.has m k = true) by (apply has_get; congruence). congruence.
Qed.

Lemma upsert_get_ne (d : V) (f : V -> V) m k k' :
  k <> k' -> JsMap.get (upsert d f m k) k' = JsMap.get m k'.
Proof.
  intros Hne. unfold upsert.
  destruct (JsMap.has m k) eqn:E.
  - destruct (JsMap.get m k); [now apply get_set_ne | reflexivity].
  - rewrite get_set_eq. rewrite !get_set_ne by exact Hne. reflexivity.
Qed.

Lemma upsert_keys (d : V) (f : V -> V) m k :
  JsMap.keys (upsert d f m k)
  = if JsMap.has m k then JsMap.keys m else (JsMap.keys m ++ [k])%list.
Proof.
  unfold upsert.
  destruct (JsMap.has m k) eqn:E.
  - destruct (JsMap.get m k); [| reflexivity]. now rewrite keys_set, E.
  - rewrite get_set_eq, keys_set.
    assert (JsMap.has (JsMap.set m k d) k = true) as ->
        by (apply has_get; rewrite get_set_eq; discriminate).
    now rewrite keys_set, E.
Qed.

Lemma upsert_NoDup (d : V) (f : V -> V) m k :
  NoDup (JsMap.keys m) -> NoDup (JsMap.keys (upsert d f m k)).
Proof.
  intros Hnd. rewrite upsert_keys.
  destruct (JsMap.has m k) eqn:E; [exact Hnd |].
  apply NoDup_app. repeat split.
  - exact Hnd.
  - intros x Hx Hx'. apply list_elem_of_In in Hx. apply list_elem_of_In in Hx'.
    destruct Hx' as [<- | []].
    apply has_keys in Hx. congruence.
  - apply NoDup_singleton.
Qed.

End JsMapFacts.

(** ** Facts on binary64: integers below 2^53 are added exactly *)

Section Binary64Facts.
Import Binary64.

Lemma shl_spec (m : positive) (k : Z) : 0 <= k -> Zpos (shl m k) = Zpos m * 2 ^ k.
Proof.
  intros Hk. destruct k as [| p | p]; [cbn; lia | | lia].
  clear Hk. cbn [shl]. revert m. induction p using Pos.peano_ind; intros m.
  - cbn. lia.
  - rewrite Pos.iter_succ. rewrite Pos2Z.inj_xO, IHp.
    rewrite Pos2Z.inj_succ, Z.pow_succ_r by lia. lia.
Qed.

Lemma shl_shl (m : positive) (a b : Z) : 0 <= a -> 0 <= b -> shl (shl m a) b = shl m (a + b).
Proof.
  intros Ha Hb. apply Pos2Z.inj. rewrite !shl_spec by lia.
  rewrite Z.pow_add_r by lia. lia.
Qed.

Lemma digits2_pos_size (m : positive) : digits2_pos m = Pos.size m.
Proof. induction m; cbn; congruence. Qed.

Lemma digits2_shl (m : positive) (k : Z) :
  0 <= k -> Zpos (digits2_pos (shl m k)) = Zpos (digits2_pos m) + k.
Proof.
  intros Hk. destruct k as [| p | p]; [cbn; lia | | lia].
  clear Hk. cbn [shl]. induction p using Pos.peano_ind.
  - cbn. lia.
  - rewrite Pos.iter_succ. cbn [digits2_pos]. lia.
Qed.

Lemma digits2_bound (m : positive) : Zpos m < 2 ^ 53 -> Zpos (digits2_pos m) <= 53.
Proof.
  intros H. rewrite digits2_pos_size.
  destruct (Z.le_gt_cases (Zpos (Pos.size m)) 53) as [Hle | Hgt]; [exact Hle | exfalso].
  pose proof (Pos.size_le m) as Hs.
  assert (H2 : 2 ^ Zpos (Pos.size m) <= Zpos m~0).
  { rewrite <- Pos2Z.inj_pow. apply Pos2Z.pos_le_pos. exact Hs. }
  assert (2 ^ 54 <= 2 ^ Zpos (Pos.size m)) by (apply Z.pow_le_mono_r; lia).
  change (2 ^ 54) with (2 * 2 ^ 53) in *. lia.
Qed.

(** Shifting right the bits that a shift to the left added loses
    nothing. *)
Lemma iter_shr_1 (p : positive) (m : positive) :
  SpecFloat.iter_pos shr_1 p (Build_shr_record (Zpos (Pos.iter xO m p)) false false)
  = Build_shr_record (Zpos m) false false.
Proof.
  revert m. induction p as [p IH | p IH |]; intros m.
  - cbn [SpecFloat.iter_pos Pos.iter]. cbn [shr_1 orb]. rewrite IH, IH. reflexivity.
  - cbn [SpecFloat.iter_pos Pos.iter]. rewrite IH, IH. reflexivity.
  - reflexivity.
Qed.

Lemma shl_align_spec (mx : positive) (ex ex' : Z) :
  shl_align mx ex ex' = if ex' <? ex then (shl mx (ex - ex'), ex') else (mx, ex).
Proof.
  unfold shl_align. destruct (Z.ltb_spec ex' ex) as [Hlt | Hge].
  - destruct (ex' - ex) as [| q | q] eqn:E; try lia.
    replace (ex - ex') with (Zpos q) by lia. reflexivity.
  - destruct (ex' - ex) as [| q | q] eqn:E; try lia; reflexivity.
Qed.

Lemma fexp_small (d : Z) : 1 <= d -> fexp prec emax d = d - 53.
Proof. unfold fexp, emin, prec, emax. lia. Qed.

(** A mantissa that carries [n] more bits than its format allows, all
    of them 0, is rounded exactly. *)
Lemma binary_round_aux_exact (s : bool) (m0 : positive) (n e : Z) :
  0 <= n ->
  Zpos (digits2_pos m0) = 53 ->
  -1074 <= e + n <= 971 ->
  binary_round_aux prec emax s (Zpos (shl m0 n)) e loc_Exact = S754_finite s m0 (e + n).
Proof.
  intros Hn Hd He. unfold binary_round_aux, shr_fexp.
  cbn [Zdigits2 shr_record_of_loc]. rewrite (digits2_shl m0 n Hn), Hd.
  replace (fexp prec emax (53 + n + e) - e) with n
    by (unfold fexp, emin, prec, emax; lia).
  assert (Hshr : shr (Build_shr_record (Zpos (shl m0 n)) false false) e n
                 = (Build_shr_record (Zpos m0) false false, e + n)).
  { unfold shr. destruct n as [| p | p]; [| | lia].
    - cbn [shl]. now rewrite Z.add_0_r.
    - cbn [shl]. now rewrite iter_shr_1. }
  rewrite Hshr. cbn [shr_m loc_of_shr_record round_nearest_even Zdigits2].
  rewrite Hd.
  replace (fexp prec emax (53 + (e + n)) - (e + n)) with 0
    by (unfold fexp, emin, prec, emax; lia).
  cbn [shr shr_m].
  replace (e + n <=? emax - prec) with true
    by (symmetry; apply Z.leb_le; unfold emax, prec; lia).
  reflexivity.
Qed.

(** The double of a mantissa below 2^53 at a non-positive exponent. *)
Lemma binary_round_shl (s : bool) (m : positive) (k : Z) :
  0 <= k -> Zpos m < 2 ^ 53 ->
  binary_round prec emax s (shl m k) (- k)
  = S754_finite s (shl m (53 - Zpos (digits2_pos m))) (Zpos (digits2_pos m) - 53).
Proof.
  intros Hk Hm. pose proof (digits2_bound m Hm) as Hd.
  assert (Hd1 : 1 <= Zpos (digits2_pos m)) by lia.
  unfold binary_round. rewrite (digits2_shl m k Hk).
  replace (Zpos (digits2_pos m) + k + - k) with (Zpos (digits2_pos m)) by lia.
  rewrite (fexp_small _ Hd1), shl_align_spec.
  set (d := Zpos (digits2_pos m)) in *.
  assert (Hd0 : Zpos (digits2_pos (shl m (53 - d))) = 53)
    by (rewrite digits2_shl by lia; fold d; lia).
  destruct (Z.ltb_spec (d - 53) (- k)) as [Hlt | Hge].
  - rewrite shl_shl by lia. replace (k + (- k - (d - 53))) with (53 - d) by lia.
    replace (shl m (53 - d)) with (shl (shl m (53 - d)) 0) at 1 by reflexivity.
    rewrite (binary_round_aux_exact s _ 0 (d - 53)) by (try exact Hd0; lia).
    now rewrite Z.add_0_r.
  - replace (shl m k) with (shl (shl m (53 - d)) (d - 53 + k))
      by (rewrite shl_shl by lia; f_equal; lia).
    rewrite (binary_round_aux_exact s _ (d - 53 + k) (- k)) by (try exact Hd0; lia).
    f_equal. lia.
Qed.

(** The double of an integer below 2^53 in absolute value is the
    integer: its mantissa, shifted to 53 bits, and its exponent. *)
Lemma ofZ_pos (m : positive) :
  Zpos m < 2 ^ 53 ->
  ofZ (Zpos m)
  = S754_finite false (shl m (53 - Zpos (digits2_pos m))) (Zpos (digits2_pos m) - 53).
Proof. intros Hm. exact (binary_round_shl false m 0 (Z.le_refl 0) Hm). Qed.

Lemma ofZ_neg (m : positive) :
  Zpos m < 2 ^ 53 ->
  ofZ (Zneg m)
  = S754_finite true (shl m (53 - Zpos (digits2_pos m))) (Zpos (digits2_pos m) - 53).
Proof. intros Hm. exact (binary_round_shl true m 0 (Z.le_refl 0) Hm). Qed.

(** An integer below 2^53 written with [k] more bits at the exponent
    [- k] is normalised to the double of the integer. *)
Lemma binary_normalize_shift (z k : Z) :
  0 <= k -> Z.abs z < 2 ^ 53 ->
  binary_normalize prec emax (z * 2 ^ k) (- k) false = ofZ z.
Proof.
  intros Hk Hz. destruct z as [| q | q].
  - reflexivity.
  - rewrite <- (shl_spec q k Hk), ofZ_pos by exact Hz.
    exact (binary_round_shl false q k Hk Hz).
  - replace (Zneg q * 2 ^ k) with (- (Zpos q * 2 ^ k)) by lia.
    rewrite <- (shl_spec q k Hk), ofZ_neg by exact Hz. cbn [Z.opp binary_normalize].
    exact (binary_round_shl true q k Hk Hz).
Qed.

(** [a + b] in JavaScript is the integer sum when [a], [b] and the sum
    are integers below 2^53 in absolute value. *)
Lemma add_ofZ (a b : Z) :
  Z.abs a < 2 ^ 53 -> Z.abs b < 2 ^ 53 -> Z.abs (a + b) < 2 ^ 53 ->
  add (ofZ a) (ofZ b) = ofZ (a + b).
Proof.
  intros Ha Hb Hab.
  assert (Hfin : forall (sa sb : bool) (ma mb : positive),
             Zpos ma < 2 ^ 53 -> Zpos mb < 2 ^ 53 ->
             Z.abs (cond_Zopp sa (Zpos ma) + cond_Zopp sb (Zpos mb)) < 2 ^ 53 ->
             add (S754_finite sa (shl ma (53 - Zpos (digits2_pos ma)))
                             (Zpos (digits2_pos ma) - 53))
                 (S754_finite sb (shl mb (53 - Zpos (digits2_pos mb)))
                             (Zpos (digits2_pos mb) - 53))
             = ofZ (cond_Zopp sa (Zpos ma) + cond_Zopp sb (Zpos mb))).
  { intros sa sb ma mb Hma Hmb Hsum.
    pose proof (digits2_bound ma Hma) as Hda. pose proof (digits2_bound mb Hmb) as Hdb.
    unfold add, SFadd. cbv zeta. rewrite !shl_align_spec.
    set (da := Zpos (digits2_pos ma)) in *. set (db := Zpos (digits2_pos mb)) in *.
    assert (Hda1 : 1 <= da) by (unfold da; lia).
    assert (Hdb1 : 1 <= db) by (unfold db; lia).
    set (ez := Z.min (da - 53) (db - 53)).
    assert (Ea : fst (if ez <? da - 53
                      then (shl (shl ma (53 - da)) (da - 53 - ez), ez)
                      else (shl ma (53 - da), da - 53)) = shl ma (- ez)).
    { destruct (Z.ltb_spec ez (da - 53)); cbn [fst].
      - rewrite shl_shl by lia. f_equal. lia.
      - f_equal. lia. }
    assert (Eb : fst (if ez <? db - 53
                      then (shl (shl mb (53 - db)) (db - 53 - ez), ez)
                      else (shl mb (53 - db), db - 53)) = shl mb (- ez)).
    { destruct (Z.ltb_spec ez (db - 53)); cbn [fst].
      - rewrite shl_shl by lia. f_equal. lia.
      - f_equal. lia. }
    rewrite Ea, Eb.
    replace (cond_Zopp sa (Zpos (shl ma (- ez))) + cond_Zopp sb (Zpos (shl mb (- ez))))
      with ((cond_Zopp sa (Zpos ma) + cond_Zopp sb (Zpos mb)) * 2 ^ (- ez)).
    - replace ez with (- (- ez)) at 2 by lia.
      apply binary_normalize_shift; [lia | exact Hsum].
    - rewrite !shl_spec by lia. destruct sa, sb; cbn [cond_Zopp]; lia. }
  destruct a as [| ma | ma], b as [| mb | mb];
    try reflexivity;
    rewrite ?Z.add_0_l, ?Z.add_0_r, ?ofZ_pos, ?ofZ_neg by assumption; try reflexivity.
  - apply (Hfin false false ma mb Ha Hb Hab).
  - apply (Hfin false true ma mb Ha Hb Hab).
  - apply (Hfin true false ma mb Ha Hb Hab).
  - apply (Hfin true true ma mb Ha Hb Hab).
Qed.

End Binary64Facts.

(** ** Facts on binary64: the order and [Math.min], [Math.max] *)

Section Binary64Order.
Import Binary64.

Local Ltac order_cases :=
  repeat match goal with
         | |- context [Pos.compare_cont Eq ?a ?b] =>
             change (Pos.compare_cont Eq a b) with (Pos.compare a b)
         | H : context [Pos.compare_cont Eq ?a ?b] |- _ =>
             change (Pos.compare_cont Eq a b) with (Pos.compare a b) in H
         end;
  repeat match goal with
         | |- context [Z.compare ?a ?b] => destruct (Z.compare_spec a b)
         | H : context [Z.compare ?a ?b] |- _ => destruct (Z.compare_spec a b)
         | |- context [Pos.compare ?a ?b] => destruct (Pos.compare_spec a b)
         | H : context [Pos.compare ?a ?b] |- _ => destruct (Pos.compare_spec a b)
         end;
  cbn in *; try discriminate; try reflexivity; try lia.

Lemma ltb_leb (x y : double) : ltb x y = true -> leb x y = true.
Proof. unfold ltb, leb, SFltb, SFleb. now destruct (SFcompare x y) as [[] |]. Qed.

Lemma leb_refl (x : double) : isNaN x = false -> leb x x = true.
Proof.
  unfold leb, SFleb. destruct x as [[] | [] | | [] m e]; cbn; try discriminate; intros _;
    try reflexivity; rewrite Z.compare_refl;
    change (Pos.compare_cont Eq m m) with (Pos.compare m m);
    now rewrite Pos.compare_refl.
Qed.

Lemma leb_total (x y : double) :
  isNaN x = false -> isNaN y = false -> ltb x y = false -> leb y x = true.
Proof.
  unfold ltb, leb, SFltb, SFleb.
  destruct x as [[] | [] | | [] mx ex], y as [[] | [] | | [] my ey];
    cbn; try discriminate; try reflexivity; intros _ _; order_cases.
Qed.

Lemma leb_trans (x y z : double) : leb x y = true -> leb y z = true -> leb x z = true.
Proof.
  unfold leb, SFleb.
  destruct x as [[] | [] | | [] mx ex], y as [[] | [] | | [] my ey],
           z as [[] | [] | | [] mz ez];
    cbn; try discriminate; try reflexivity; intros H1 H2; order_cases.
Qed.

Lemma leb_posInf (x : double) : isNaN x = false -> leb posInf x = true -> x = posInf.
Proof. destruct x as [[] | [] | | [] m e]; cbn; try discriminate; reflexivity. Qed.

Lemma leb_negInf (x : double) : isNaN x = false -> leb x negInf = true -> x = negInf.
Proof. destruct x as [[] | [] | | [] m e]; cbn; try discriminate; reflexivity. Qed.

Lemma Math_min_from_spec (coerced : list double) (lowest : double) :
  isNaN lowest = false ->
  Forall (fun a => isNaN a = false) coerced ->
  let r := Math_min_from lowest coerced in
  isNaN r = false
  /\ (r = lowest \/ In r coerced)
  /\ leb r lowest = true
  /\ (forall a, In a coerced -> leb r a = true).
Proof.
  cbn zeta. revert lowest.
  induction coerced as [| number rest IH]; intros lowest Hl Hall.
  - cbn. split; [exact Hl |]. split; [now left |]. split; [now apply leb_refl | tauto].
  - apply Forall_cons in Hall as [Hn Hrest]. cbn [Math_min_from]. rewrite Hn.
    set (lowest1 := if isNegZero number && isPosZero lowest then number else lowest).
    set (lowest2 := if ltb number lowest1 then number else lowest1).
    assert (H2 : isNaN lowest2 = false
                 /\ (lowest2 = lowest \/ lowest2 = number)
                 /\ leb lowest2 lowest = true /\ leb lowest2 number = true).
    { unfold lowest2, lowest1.
      destruct (isNegZero number && isPosZero lowest) eqn:Ez.
      - apply andb_prop in Ez as [Ez1 Ez2].
        destruct number as [[] | | |]; try discriminate Ez1.
        destruct lowest as [[] | | |]; try discriminate Ez2.
        cbn. auto.
      - destruct (ltb number lowest) eqn:El.
        + split; [exact Hn |]. split; [now right |].
          split; [now apply ltb_leb | now apply leb_refl].
        + split; [exact Hl |]. split; [now left |].
          split; [now apply leb_refl | now apply leb_total]. }
    destruct H2 as (Hnan2 & Hin2 & Hle2 & Hlen).
    destruct (IH lowest2 Hnan2 Hrest) as (Hnan & Hin & Hle & Hbound).
    split; [exact Hnan |]. split; [| split].
    + destruct Hin as [-> | Hin]; [| right; now right].
      destruct Hin2 as [-> | ->]; [now left | right; now left].
    + now apply (leb_trans _ lowest2).
    + intros a [<- | Ha]; [now apply (leb_trans _ lowest2) | now apply Hbound].
Qed.

Lemma Math_max_from_spec (coerced : list double) (highest : double) :
  isNaN highest = false ->
  Forall (fun a => isNaN a = false) coerced ->
  let r := Math_max_from highest coerced in
  isNaN r = false
  /\ (r = highest \/ In r coerced)
  /\ leb highest r = true
  /\ (forall a, In a coerced -> leb a r = true).
Proof.
  cbn zeta. revert highest.
  induction coerced as [| number rest IH]; intros highest Hl Hall.
  - cbn. split; [exact Hl |]. split; [now left |]. split; [now apply leb_refl | tauto].
  - apply Forall_cons in Hall as [Hn Hrest]. cbn [Math_max_from]. rewrite Hn.
    set (highest1 := if isPosZero number && isNegZero highest then number else highest).
    set (highest2 := if ltb highest1 number then number else highest1).
    assert (H2 : isNaN highest2 = false
                 /\ (highest2 = highest \/ highest2 = number)
                 /\ leb highest highest2 = true /\ leb number highest2 = true).
    { unfold highest2, highest1.
      destruct (isPosZero number && isNegZero highest) eqn:Ez.
      - apply andb_prop in Ez as [Ez1 Ez2].
        destruct number as [[] | | |]; try discriminate Ez1.
        destruct highest as [[] | | |]; try discriminate Ez2.
        cbn. auto.
      - destruct (ltb highest number) eqn:El.
        + split; [exact Hn |]. split; [now right |].
          split; [now apply ltb_leb | now apply leb_refl].
        + split; [exact Hl |]. split; [now left |].
          split; [now apply leb_refl | now apply leb_total]. }
    destruct H2 as (Hnan2 & Hin2 & Hle2 & Hlen).
    destruct (IH highest2 Hnan2 Hrest) as (Hnan & Hin & Hle & Hbound).
    split; [exact Hnan |]. split; [| split].
    + destruct Hin as [-> | Hin]; [| right; now right].
      destruct Hin2 as [-> | ->]; [now left | right; now left].
    + now apply (leb_trans _ highest2).
    + intros a [<- | Ha]; [now apply (leb_trans _ highest2) | now apply Hbound].
Qed.

(** On arguments without NaN, [Math.min] and [Math.max] give one of
    the arguments, below and above every argument. *)
Lemma Math_min_spec (x : double) (xs : list double) :
  Forall (fun a => isNaN a = false) (x :: xs) ->
  In (Math_min (x :: xs)) (x :: xs)
  /\ forall a, In a (x :: xs) -> leb (Math_min (x :: xs)) a = true.
Proof.
  intros Hall.
  destruct (Math_min_from_spec (x :: xs) posInf eq_refl Hall) as (_ & Hin & _ & Hb).
  split; [| exact Hb].
  destruct Hin as [E | Hin]; [| exact Hin].
  left. unfold Math_min. rewrite E. apply leb_posInf.
  - now apply Forall_cons in Hall as [Hx _].
  - unfold Math_min in E. rewrite <- E. apply Hb. now left.
Qed.

Lemma Math_max_spec (x : double) (xs : list double) :
  Forall (fun a => isNaN a = false) (x :: xs) ->
  In (Math_max (x :: xs)) (x :: xs)
  /\ forall a, In a (x :: xs) -> leb a (Math_max (x :: xs)) = true.
Proof.
  intros Hall.
  destruct (Math_max_from_spec (x :: xs) negInf eq_refl Hall) as (_ & Hin & _ & Hb).
  split; [| exact Hb].
  destruct Hin as [E | Hin]; [| exact Hin].
  left. unfold Math_max. rewrite E. apply leb_negInf.
  - now apply Forall_cons in Hall as [Hx _].
  - unfold Math_max in E. rewrite <- E. apply Hb. now left.
Qed.

End Binary64Order.

(** ** Facts on the summary statistics *)

Section SummaryFacts.
Import SummaryWidget SummarySpec.

Lemma sumZ_app (l1 l2 : list Z) : sumZ (l1 ++ l2) = sumZ l1 + sumZ l2.
Proof. unfold sumZ. induction l1 as [| x l1 IH]; simpl; lia. Qed.

Lemma dailyTotal_snoc metric data item dateKey :
  dailyTotal metric (data ++ [item]) dateKey
  = dailyTotal metric data dateKey + (if onDay dateKey item then metric item else 0).
Proof.
  unfold dailyTotal. rewrite List.filter_app, List.map_app, sumZ_app. simpl.
  destruct (onDay dateKey item); simpl; lia.
Qed.

Lemma collect_dailyMap c item :
  dailyMap (collect c item)
  = if sortTime item =? 0 then dailyMap c
    else upsert (mkDay 0 0) (addCounts (orders_of item) (labels_of item))
                (dailyMap c) (toISODate (sortTime item)).
Proof. reflexivity. Qed.

Lemma collect_hourlyEfficiency c item :
  hourlyEfficiency (collect c item)
  = (hourlyEfficiency c ++ (if hasLabor item then [efficiency item] else []))%list.
Proof.
  unfold collect, hasLabor, efficiency. cbn [hourlyEfficiency].
  destruct (0 <? labor_of item); [reflexivity | now rewrite app_nil_r].
Qed.

(** The efficiency list holds the hours with labor, in order. *)
Lemma collected_efficiency data c :
  hourlyEfficiency (fold_left collect data c)
  = (hourlyEfficiency c ++ List.map efficiency (List.filter hasLabor data))%list.
Proof.
  revert c. induction data as [| item data IH]; intros c; simpl.
  - now rewrite app_nil_r.
  - rewrite IH, collect_hourlyEfficiency, <- app_assoc.
    now destruct (hasLabor item).
Qed.

Lemma dailyInv_step seen c item :
  dailyInv seen (dailyMap c) -> dailyInv (seen ++ [item]) (dailyMap (collect c item)).
Proof.
  intros [Hnd Hget]. rewrite collect_dailyMap.
  destruct (sortTime item =? 0) eqn:E0.
  - split; [exact Hnd |]. intros dateKey. specialize (Hget dateKey).
    assert (Eo : onDay dateKey item = false) by (unfold onDay; now rewrite E0).
    rewrite !dailyTotal_snoc, List.filter_app. simpl. rewrite !Eo.
    rewrite !Z.add_0_r, app_nil_r. exact Hget.
  - split; [now apply upsert_NoDup |]. intros dateKey.
    assert (Eo : onDay dateKey item = String.eqb (toISODate (sortTime item)) dateKey)
      by (unfold onDay; now rewrite E0).
    rewrite !dailyTotal_snoc, List.filter_app. simpl. rewrite !Eo. clear Eo.
    destruct (String.eqb_spec (toISODate (sortTime item)) dateKey) as [Heq | Hne].
    + subst dateKey. rewrite upsert_get_eq. specialize (Hget (toISODate (sortTime item))).
      destruct (JsMap.get (dailyMap c) (toISODate (sortTime item))) as [cur |] eqn:G.
      * destruct Hget as [Ho Hl]. simpl. now rewrite Ho, Hl.
      * unfold dailyTotal. rewrite Hget. simpl. split; lia.
    + rewrite upsert_get_ne by exact Hne. specialize (Hget dateKey).
      rewrite !Z.add_0_r, app_nil_r. exact Hget.
Qed.

Lemma dailyInv_collected data :
  dailyInv data (dailyMap (fold_left collect data (mkCollected [] [] [] [] []))).
Proof.
  induction data as [| item data IH] using rev_ind.
  - split; [constructor | reflexivity].
  - rewrite fold_left_app. simpl. now apply dailyInv_step.
Qed.

(** A day whose total is not above the running maximum changes
    nothing. *)
Lemma peakStep_orders_kept formatDay days acc :
  Forall (fun day => day_orders (snd day) <= count (fst acc)) days ->
  fst (fold_left (peakStep formatDay) days acc) = fst acc.
Proof.
  revert acc. induction days as [| day days IH]; intros acc H; [reflexivity |].
  apply Forall_cons in H as [Hd Hrest]. simpl.
  assert (E : fst (peakStep formatDay acc day) = fst acc).
  { unfold peakStep. simpl.
    destruct (count (fst acc) <? day_orders (snd day)) eqn:L; [| reflexivity].
    apply Z.ltb_lt in L. lia. }
  rewrite IH; [exact E |]. now rewrite E.
Qed.

Lemma peakStep_labels_kept formatDay days acc :
  Forall (fun day => day_labels (snd day) <= count (snd acc)) days ->
  snd (fold_left (peakStep formatDay) days acc) = snd acc.
Proof.
  revert acc. induction days as [| day days IH]; intros acc H; [reflexivity |].
  apply Forall_cons in H as [Hd Hrest]. simpl.
  assert (E : snd (peakStep formatDay acc day) = snd acc).
  { unfold peakStep. simpl.
    destruct (count (snd acc) <? day_labels (snd day)) eqn:L; [| reflexivity].
    apply Z.ltb_lt in L. lia. }
  rewrite IH; [exact E |]. now rewrite E.
Qed.

(** Every entry of the daily map carries the totals of its day. *)
Lemma dailyMap_totals data :
  Forall (fun day =>
            day_orders (snd day) = dailyTotal orders_of data (fst day) /\
            day_labels (snd day) = dailyTotal labels_of data (fst day))
         (dailyMap (fold_left collect data (mkCollected [] [] [] [] []))).
Proof.
  destruct (dailyInv_collected data) as [Hnd Hget].
  apply Forall_forall. intros [dateKey counts] Hin. simpl.
  apply list_elem_of_In in Hin. apply (In_get _ _ _ Hnd) in Hin.
  specialize (Hget dateKey). now rewrite Hin in Hget.
Qed.

Lemma aggregates_nonempty formatDay initialDayName data :
  data <> [] ->
  aggregates formatDay initialDayName data =
  let c := fold_left collect data (mkCollected [] [] [] [] []) in
  let peaks := fold_left (peakStep formatDay) (dailyMap c)
                 (mkPeak 0 "N/A" initialDayName, mkPeak 0 "N/A" initialDayName) in
  mkAggregates (fst peaks) (snd peaks)
               (getStats (hourlyEfficiency c)) (getStats (hourlyOrders c))
               (getStats (hourlyLabels c)) (getStats (hourlyLabor c)).
Proof. intros H. destruct data; [congruence | reflexivity]. Qed.

End SummaryFacts.

(** C10: for a series that is not empty, when the orders of every day
    (the totals over the rows the widget assigns to that day) sum to 0,
    the peak day of orders keeps its initial value, count 0 and date
    ['N/A'], and likewise for labels: the comparison with the running
    maximum is strict. In App.jsx the initial record also carries
    [dayName: 'N/A']; in the second variant it has no such property. *)
Theorem peak_day_zero_is_NA (formatDay : string -> string) (data : list HourlyRow) :
  data <> [] ->
  ((forall dateKey, SummarySpec.dailyTotal SummaryWidget.orders_of data dateKey = 0) ->
   SummaryWidget.maxDailyOrders (SummaryWidget.aggregates_App formatDay data)
   = SummaryWidget.mkPeak 0 "N/A" (Some "N/A")
   /\ SummaryWidget.maxDailyOrders (SummaryWidget.aggregates_Part000 formatDay data)
      = SummaryWidget.mkPeak 0 "N/A" None)
  /\
  ((forall dateKey, SummarySpec.dailyTotal SummaryWidget.labels_of data dateKey = 0) ->
   SummaryWidget.maxDailyLabels (SummaryWidget.aggregates_App formatDay data)
   = SummaryWidget.mkPeak 0 "N/A" (Some "N/A")
   /\ SummaryWidget.maxDailyLabels (SummaryWidget.aggregates_Part000 formatDay data)
      = SummaryWidget.mkPeak 0 "N/A" None).
Proof.
  intros Hne. unfold SummaryWidget.aggregates_App, SummaryWidget.aggregates_Part000.
  rewrite !(aggregates_nonempty formatDay _ data Hne). cbn zeta.
  cbn [SummaryWidget.maxDailyOrders SummaryWidget.maxDailyLabels].
  pose proof (dailyMap_totals data) as Ht.
  split; intros Hzero.
  - rewrite !peakStep_orders_kept; [split; reflexivity | |];
      apply (Forall_impl _ _ _ Ht); intros day [Ho _]; simpl; rewrite Ho, Hzero; lia.
  - rewrite !peakStep_labels_kept; [split; reflexivity | |];
      apply (Forall_impl _ _ _ Ht); intros day [_ Hl]; simpl; rewrite Hl, Hzero; lia.
Qed.

Section SummaryExamples.
Import SummaryWidget SummarySpec.

Lemma dailyTotal_all_zero metric data dateKey :
  Forall (fun item => metric item = 0) data -> dailyTotal metric data dateKey = 0.
Proof.
  unfold dailyTotal. induction 1 as [| item data Hi _ IH]; [reflexivity |].
  simpl. destruct (onDay dateKey item); [simpl; rewrite Hi, IH; reflexivity | exact IH].
Qed.

Lemma labelsPerLabor_collected formatDay initialDayName item data :
  labelsPerLabor (aggregates formatDay initialDayName (item :: data))
  = getStats (List.map efficiency (List.filter hasLabor (item :: data))).
Proof.
  rewrite aggregates_nonempty by discriminate. cbn zeta. cbn [labelsPerLabor].
  now rewrite collected_efficiency.
Qed.

End SummaryExamples.

(** C8: the efficiency statistic is [getStats] of the quotients labels
    over labor of the rows whose labor, packers plus pickers, is
    positive, in order; the rows without labor are left out, not counted
    as 0. With one row of 0 packers, 0 pickers and 10 labels and one row
    of 2 packers, 3 pickers and 10 labels, the average is 10/5 = 2, and
    so are the minimum and the maximum, as doubles. *)
Theorem efficiency_excludes_idle_hours (formatDay : string -> string)
        (initialDayName : option string) :
  (forall item data,
      SummaryWidget.labelsPerLabor
        (SummaryWidget.aggregates formatDay initialDayName (item :: data))
      = SummaryWidget.getStats
          (List.map SummarySpec.efficiency
                    (List.filter (fun r => 0 <? SummaryWidget.labor_of r) (item :: data))))
  /\
  (forall r1 r2 : HourlyRow,
      fields r1 !! "packers" = Some (Num 0) ->
      fields r1 !! "pickers" = Some (Num 0) ->
      fields r1 !! "labels" = Some (Num 10) ->
      fields r2 !! "packers" = Some (Num 2) ->
      fields r2 !! "pickers" = Some (Num 3) ->
      fields r2 !! "labels" = Some (Num 10) ->
      let s := SummaryWidget.labelsPerLabor
                 (SummaryWidget.aggregates formatDay initialDayName [r1; r2]) in
      SummaryWidget.avg s = Binary64.ofZ 2 /\ SummaryWidget.min s = Binary64.ofZ 2
      /\ SummaryWidget.max s = Binary64.ofZ 2).
Proof.
  split.
  - intros item data. apply labelsPerLabor_collected.
  - intros r1 r2 Hpa1 Hpi1 Hl1 Hpa2 Hpi2 Hl2 s. subst s.
    rewrite labelsPerLabor_collected.
    unfold SummarySpec.hasLabor, SummarySpec.efficiency,
      SummaryWidget.labor_of, SummaryWidget.labels_of.
    cbn [List.filter List.map].
    rewrite Hpa1, Hpi1, Hpa2, Hpi2.
    change (0 <? or0 (Some (Num 0)) + or0 (Some (Num 0))) with false.
    change (0 <? or0 (Some (Num 2)) + or0 (Some (Num 3))) with true.
    cbn [List.map]. rewrite Hl2, Hpa2, Hpi2.
    vm_compute. repeat split; reflexivity.
Qed.

Lemma efficiency_excludes_idle_hours_witness :
  let s := SummaryWidget.labelsPerLabor
             (SummaryWidget.aggregates_App (fun date => date)
                [SummarySpec.idleHour; SummarySpec.busyHour]) in
  SummaryWidget.avg s = Binary64.ofZ 2 /\ SummaryWidget.min s = Binary64.ofZ 2
  /\ SummaryWidget.max s = Binary64.ofZ 2.
Proof.
  apply (proj2 (efficiency_excludes_idle_hours (fun date => date) (Some "N/A"))
               SummarySpec.idleHour SummarySpec.busyHour); vm_compute; reflexivity.
Defined.

Lemma peak_day_zero_is_NA_witness :
  SummaryWidget.maxDailyOrders
    (SummaryWidget.aggregates_App (fun date => date) SummarySpec.quietDays)
  = SummaryWidget.mkPeak 0 "N/A" (Some "N/A")
  /\ SummaryWidget.maxDailyLabels
       (SummaryWidget.aggregates_Part000 (fun date => date) SummarySpec.quietDays)
     = SummaryWidget.mkPeak 0 "N/A" None.
Proof.
  assert (Hne : SummarySpec.quietDays <> []) by discriminate.
  destruct (peak_day_zero_is_NA (fun date => date) SummarySpec.quietDays Hne) as [Ho Hl].
  split.
  - apply Ho. intros dateKey. apply dailyTotal_all_zero.
    repeat constructor.
  - apply Hl. intros dateKey. apply dailyTotal_all_zero.
    repeat constructor.
Defined.

(** ** Facts on the stable sort *)

Section ArraySortFacts.
Context {A : Type} (f : A -> Z).
Let cmp := fun a b : A => f a - f b.

Lemma sort_insert_perm x l : Permutation (sort_insert cmp x l) (x :: l).
Proof.
  induction l as [| y r IH]; simpl; [reflexivity |].
  destruct (cmp x y <=? 0); [reflexivity |].
  rewrite IH. apply perm_swap.
Qed.

Lemma Array_sort_perm l : Permutation (Array_sort cmp l) l.
Proof.
  induction l as [| x l IH]; simpl; [reflexivity |].
  rewrite sort_insert_perm. now constructor.
Qed.

Lemma sort_insert_sorted x l :
  StronglySorted (fun a b => f a <= f b) l ->
  StronglySorted (fun a b => f a <= f b) (sort_insert cmp x l).
Proof.
  induction 1 as [| y r Hr IH Hy]; simpl.
  - repeat constructor.
  - destruct (cmp x y <=? 0) eqn:E; unfold cmp in E.
    + apply Z.leb_le in E. constructor; [now constructor |].
      constructor; [lia |].
      apply (Forall_impl _ _ _ Hy). intros z Hz. lia.
    + apply Z.leb_gt in E. constructor; [exact IH |].
      apply Forall_forall. intros z Hz.
      apply list_elem_of_In in Hz. apply (Permutation_in _ (sort_insert_perm x r)) in Hz.
      destruct Hz as [<- | Hz]; [lia |].
      rewrite Forall_forall in Hy. apply Hy. now apply list_elem_of_In.
Qed.

Lemma Array_sort_sorted l : StronglySorted (fun a b => f a <= f b) (Array_sort cmp l).
Proof.
  induction l as [| x l IH]; simpl; [constructor | now apply sort_insert_sorted].
Qed.

End ArraySortFacts.

Lemma sorted_NoDup_strict (l : list Z) :
  StronglySorted Z.le l -> NoDup l -> StronglySorted Z.lt l.
Proof.
  induction 1 as [| x l Hl IH Hx]; intros Hnd; [constructor |].
  apply NoDup_cons in Hnd as [Hnotin Hnd].
  constructor; [now apply IH |].
  apply Forall_forall. intros y Hy.
  rewrite Forall_forall in Hx. specialize (Hx y Hy).
  assert (x <> y) by (intros ->; contradiction). lia.
Qed.

(** ** Facts on the aggregation *)

Section AggregatorFacts.

Variable Date_parse : string -> option Z.
Variable LocalTZA : Z -> bool -> Z.

Local Abbreviation bucket' := (bucket Date_parse LocalTZA).
Local Abbreviation labelOf' := (labelOf Date_parse LocalTZA).
Local Abbreviation hourOf' := (hourOf Date_parse LocalTZA).
Local Abbreviation step' := (step Date_parse LocalTZA).
Local Abbreviation contribution' := (contribution Date_parse LocalTZA).
Local Abbreviation inBucket' := (inBucket Date_parse LocalTZA).
Local Abbreviation aggInv' := (aggInv Date_parse LocalTZA).

Lemma append_nonempty (a b : string) : b <> "" -> a ^^ b <> "".
Proof. destruct a; simpl; [auto | discriminate]. Qed.

Lemma hourLabel_nonempty (t : Z) : hourLabel LocalTZA t <> "".
Proof. unfold hourLabel. apply append_nonempty. discriminate. Qed.

Lemma bucket_label item label t :
  bucket' item = Some (label, t) -> label = hourLabel LocalTZA t.
Proof.
  unfold bucket, getHourlyKey2. destruct (Date_parse (timestamp item)); [| discriminate].
  now intros [= <- <-].
Qed.

(** One record either is dropped or upserts the row of its label. *)
Lemma addItem_upsert k m item :
  addItem Date_parse LocalTZA k m item
  = match bucket' item with
    | None => m
    | Some (label, t) =>
        upsert (mkRow label t zeroFields) (fun row => addToField row k (value item)) m label
    end.
Proof.
  unfold addItem, bucket, getHourlyKey, getHourlyKey2.
  destruct (Date_parse (timestamp item)) as [t |]; [| reflexivity].
  destruct (String.eqb_spec (hourLabel LocalTZA (setMinutes0 LocalTZA t)) "") as [E | _].
  - now apply hourLabel_nonempty in E.
  - reflexivity.
Qed.

Lemma addItem_variant k m item :
  Part000.addItem Date_parse LocalTZA k m item = addItem Date_parse LocalTZA k m item.
Proof.
  unfold addItem, Part000.addItem, getHourlyKey, getHourlyKey2.
  destruct (Date_parse (timestamp item)); reflexivity.
Qed.

Lemma fold_step k items m :
  fold_left (addItem Date_parse LocalTZA k) items m
  = fold_left step' (List.map (fun item => (k, item)) items) m.
Proof. revert m. induction items as [| item items IH]; intros m; simpl; [reflexivity | apply IH]. Qed.

Lemma addResult_records k csvText m :
  addResult Date_parse LocalTZA (Normal m) (k, csvText)
  = Normal (fold_left step'
              (List.map (fun item => (k, item)) (omap lineRecord (dataLines csvText))) m).
Proof.
  unfold addResult. cbn [snd fst]. rewrite parseCSV_total.
  unfold mbind, completion_bind, mret, completion_ret. now rewrite fold_step.
Qed.

Lemma hourlyDataMap_from results m :
  fold_left (addResult Date_parse LocalTZA) results (Normal m)
  = Normal (fold_left step' (records results) m).
Proof.
  revert m. induction results as [| [k csvText] results IH]; intros m; [reflexivity |].
  cbn [fold_left]. rewrite addResult_records, IH.
  unfold records. cbn [flat_map fst snd]. now rewrite fold_left_app.
Qed.

Lemma hourlyDataMap_records results :
  hourlyDataMap Date_parse LocalTZA results = Normal (fold_left step' (records results) []).
Proof. apply hourlyDataMap_from. Qed.

Lemma hourlyDataMap_variant results :
  Part000.hourlyDataMap Date_parse LocalTZA results = hourlyDataMap Date_parse LocalTZA results.
Proof.
  unfold Part000.hourlyDataMap, hourlyDataMap. generalize (Normal (@nil (string * HourlyRow))).
  induction results as [| result results IH]; intros cm; simpl; [reflexivity |].
  rewrite IH. f_equal.
  unfold Part000.addResult, addResult. destruct cm as [m |]; simpl; [| reflexivity].
  rewrite parseCSV_variant. destruct (parseCSV result.2) as [items |]; simpl; [| reflexivity].
  f_equal. revert m. induction items as [| item items IHi]; intros m; simpl; [reflexivity |].
  now rewrite addItem_variant, IHi.
Qed.

Lemma finalChartData_variant results :
  Part000.finalChartData Date_parse LocalTZA results = finalChartData Date_parse LocalTZA results.
Proof. unfold Part000.finalChartData, finalChartData. now rewrite hourlyDataMap_variant. Qed.

Lemma zeroFields_lookup k : In k sourceKeys -> zeroFields !! k = Some (Num 0).
Proof.
  intros [<- | [<- | [<- | [<- | []]]]]; vm_compute; reflexivity.
Qed.

Lemma contribution_snoc k label seen rec :
  contribution' k label (seen ++ [rec])
  = contribution' k label seen + (if inBucket' k label rec then value (snd rec) else 0).
Proof.
  unfold contribution. rewrite List.filter_app, List.map_app, sumZ_app. simpl.
  destruct (inBucket' k label rec); simpl; lia.
Qed.

Lemma contribution_fresh k label seen :
  (forall rec, In rec seen -> labelOf' (snd rec) <> Some label) ->
  contribution' k label seen = 0.
Proof.
  intros H. unfold contribution.
  induction seen as [| rec seen IH]; [reflexivity |].
  simpl. assert (E : inBucket' k label rec = false).
  { unfold inBucket, underLabel. specialize (H rec (or_introl eq_refl)).
    destruct (labelOf' (snd rec)) as [l |]; [| now rewrite andb_false_r].
    destruct (String.eqb_spec l label) as [-> | _]; [congruence | now rewrite andb_false_r]. }
  rewrite E. apply IH. intros rec' Hin. apply H. now right.
Qed.

Lemma inBucket_other_key k k' label item :
  k <> k' -> inBucket' k' label (k, item) = false.
Proof.
  intros Hne. unfold inBucket, underLabel. simpl.
  destruct (String.eqb_spec k k'); [contradiction | reflexivity].
Qed.

Lemma inBucket_other_label k k' label item :
  labelOf' item <> Some label -> inBucket' k' label (k, item) = false.
Proof.
  intros Hne. unfold inBucket, underLabel. simpl.
  destruct (labelOf' item) as [l |]; [| apply andb_false_r].
  destruct (String.eqb_spec l label) as [-> | _]; [congruence | apply andb_false_r].
Qed.

Lemma inBucket_same k label item :
  labelOf' item = Some label -> inBucket' k label (k, item) = true.
Proof.
  intros E. unfold inBucket, underLabel. simpl. rewrite E, !String.eqb_refl. reflexivity.
Qed.

Lemma addToField_lookup row k v k' :
  fields (addToField row k v) !! k'
  = if decide (k = k') then Some (js_add (default NaN (fields row !! k)) (Num v))
    else fields row !! k'.
Proof. unfold addToField. cbn [fields]. apply lookup_insert. Qed.

(** The invariant is kept by one record of a configured source. *)
Lemma aggInv_step seen m rec :
  In (fst rec) sourceKeys -> aggInv' seen m -> aggInv' (seen ++ [rec]) (step' m rec).
Proof.
  destruct rec as [k item]. cbn [fst]. intros Hk [Hnd Hget].
  unfold step. cbn [fst snd]. rewrite addItem_upsert.
  destruct (bucket' item) as [[label0 t0] |] eqn:B.
  - pose proof (bucket_label _ _ _ B) as Hl0.
    assert (L0 : labelOf' item = Some label0) by (unfold labelOf; now rewrite B).
    split; [now apply upsert_NoDup |]. intros label.
    destruct (decide (label0 = label)) as [<- | Hne].
    + rewrite upsert_get_eq. specialize (Hget label0).
      destruct (JsMap.get m label0) as [row |] eqn:G; cbn [default from_option]; unfold id.
      * destruct Hget as (Hh & Hhl & (rec' & Hin & Hb) & Hf).
        repeat split; [exact Hh | exact Hhl | |].
        { exists rec'. split; [apply in_or_app; now left | exact Hb]. }
        intros k' Hk'. rewrite addToField_lookup, contribution_snoc.
        destruct (decide (k = k')) as [Heq | Hkne]; [subst k' |].
        -- rewrite (Hf k Hk), (inBucket_same _ _ _ L0). reflexivity.
        -- rewrite (Hf k' Hk'), (inBucket_other_key _ _ _ _ Hkne), Z.add_0_r. reflexivity.
      * repeat split; [now symmetry | |].
        { exists (k, item). split; [apply in_or_app; right; now left | exact B]. }
        intros k' Hk'. rewrite addToField_lookup, contribution_snoc.
        rewrite (contribution_fresh _ _ _ Hget). cbn [fields].
        destruct (decide (k = k')) as [Heq | Hkne]; [subst k' |].
        -- rewrite (zeroFields_lookup k Hk), (inBucket_same _ _ _ L0). reflexivity.
        -- rewrite (zeroFields_lookup k' Hk'), (inBucket_other_key _ _ _ _ Hkne). reflexivity.
    + rewrite upsert_get_ne by exact Hne. specialize (Hget label).
      assert (L : labelOf' item <> Some label) by (rewrite L0; congruence).
      destruct (JsMap.get m label) as [row |] eqn:G.
      * destruct Hget as (Hh & Hhl & (rec' & Hin & Hb) & Hf).
        repeat split; [exact Hh | exact Hhl | |].
        { exists rec'. split; [apply in_or_app; now left | exact Hb]. }
        intros k' Hk'. rewrite contribution_snoc, (inBucket_other_label _ _ _ _ L), Z.add_0_r.
        now apply Hf.
      * intros rec' Hin. apply in_app_or in Hin as [Hin | [<- | []]]; [now apply Hget | exact L].
  - assert (L : forall label, labelOf' item <> Some label)
      by (intros label; unfold labelOf; now rewrite B).
    split; [exact Hnd |]. intros label. specialize (Hget label).
    destruct (JsMap.get m label) as [row |] eqn:G.
    + destruct Hget as (Hh & Hhl & (rec' & Hin & Hb) & Hf).
      repeat split; [exact Hh | exact Hhl | |].
      { exists rec'. split; [apply in_or_app; now left | exact Hb]. }
      intros k' Hk'. rewrite contribution_snoc, (inBucket_other_label _ _ _ _ (L label)), Z.add_0_r.
      now apply Hf.
    + intros rec' Hin. apply in_app_or in Hin as [Hin | [<- | []]]; [now apply Hget | apply L].
Qed.

Lemma aggInv_fold recs :
  Forall (fun rec => In (fst rec) sourceKeys) recs ->
  aggInv' recs (fold_left step' recs []).
Proof.
  induction recs as [| rec recs IH] using rev_ind; intros H.
  - split; [constructor | intros label; simpl; intros rec []].
  - apply Forall_app in H as [Hrecs Hrec]. apply Forall_cons in Hrec as [Hrec _].
    rewrite fold_left_app. cbn [fold_left]. apply aggInv_step; [exact Hrec | now apply IH].
Qed.

Lemma records_keys (csvText : SourceFile -> string) :
  Forall (fun rec => In (fst rec) sourceKeys) (records (resultsOf csvText)).
Proof.
  apply Forall_forall. intros [k item] Hin. apply list_elem_of_In in Hin.
  unfold records in Hin. apply in_flat_map in Hin as ([k' text] & Hres & Hin).
  apply in_map_iff in Hin as (item' & [= <- <-] & _).
  unfold resultsOf in Hres. apply in_map_iff in Hres as (file & [= <- _] & Hfile).
  cbn [fst]. unfold sourceKeys. now apply in_map.
Qed.

End AggregatorFacts.

Section SeriesFacts.

Variable Date_parse : string -> option Z.
Variable LocalTZA : Z -> bool -> Z.
Variable csvText : SourceFile -> string.

Local Abbreviation recs := (records (resultsOf csvText)).
Local Abbreviation theMap := (fold_left (step Date_parse LocalTZA) recs []).
Local Abbreviation theSeries :=
  (Array_sort (fun a b => sortTime a - sortTime b) (JsMap.values theMap)).

Lemma finalChartData_series :
  finalChartData Date_parse LocalTZA (resultsOf csvText) = Normal theSeries
  /\ Part000.finalChartData Date_parse LocalTZA (resultsOf csvText) = Normal theSeries.
Proof.
  rewrite finalChartData_variant. unfold finalChartData.
  rewrite hourlyDataMap_records. split; reflexivity.
Qed.

Lemma theMap_inv : aggInv Date_parse LocalTZA recs theMap.
Proof. apply aggInv_fold, records_keys. Qed.

Lemma series_In row : In row theSeries <-> exists label, JsMap.get theMap label = Some row.
Proof.
  destruct theMap_inv as [Hnd _].
  split.
  - intros Hin. apply (Permutation_in _ (Array_sort_perm sortTime _)) in Hin.
    unfold JsMap.values in Hin. apply in_map_iff in Hin as ([label row'] & <- & Hin).
    exists label. now apply In_get.
  - intros [label Hget]. apply get_In in Hget.
    apply (Permutation_in _ (Permutation_sym (Array_sort_perm sortTime _))).
    unfold JsMap.values. change row with (snd (label, row)). now apply in_map.
Qed.

(** What holds of every row of the series. *)
Lemma series_row row :
  In row theSeries ->
  JsMap.get theMap (hour row) = Some row
  /\ hourLabel LocalTZA (sortTime row) = hour row
  /\ (exists rec, In rec recs /\ bucket Date_parse LocalTZA (snd rec) = Some (hour row, sortTime row))
  /\ (forall k, In k sourceKeys ->
        fields row !! k = Some (Num (contribution Date_parse LocalTZA k (hour row) recs))).
Proof.
  intros Hin. apply series_In in Hin as [label Hget].
  destruct theMap_inv as [_ Hinv]. specialize (Hinv label). rewrite Hget in Hinv.
  destruct Hinv as (Hh & Hhl & Hrec & Hf). subst label. auto.
Qed.

Lemma theMap_hours : List.map hour (JsMap.values theMap) = JsMap.keys theMap.
Proof.
  destruct theMap_inv as [Hnd Hinv].
  assert (H : forall label row, In (label, row) theMap -> hour row = label).
  { intros label row Hin. apply (In_get _ _ _ Hnd) in Hin.
    specialize (Hinv label). rewrite Hin in Hinv. tauto. }
  revert H. generalize theMap. intros m H. induction m as [| [label row] m IH]; [reflexivity |].
  simpl. rewrite (H label row) by now left. f_equal. apply IH.
  intros l r Hin. apply H. now right.
Qed.

Lemma series_hours_perm : Permutation (List.map hour theSeries) (JsMap.keys theMap).
Proof. rewrite <- theMap_hours. apply Permutation_map, Array_sort_perm. Qed.

Lemma theMap_key label :
  In label (JsMap.keys theMap)
  <-> exists rec, In rec recs /\ labelOf Date_parse LocalTZA (snd rec) = Some label.
Proof.
  destruct theMap_inv as [_ Hinv]. specialize (Hinv label).
  rewrite <- has_keys, has_get.
  destruct (JsMap.get theMap label) as [row |].
  - destruct Hinv as (_ & _ & (rec & Hin & Hb) & _).
    split; [| discriminate]. intros _. exists rec. split; [exact Hin |].
    unfold labelOf. now rewrite Hb.
  - split; [congruence |]. intros (rec & Hin & Hl). now apply Hinv in Hin.
Qed.

Lemma series_oneRowPerLabel : oneRowPerLabel Date_parse LocalTZA recs theSeries.
Proof.
  destruct theMap_inv as [Hnd _]. split.
  - now rewrite series_hours_perm.
  - intros label. rewrite <- theMap_key.
    split; apply Permutation_in; [| symmetry]; apply series_hours_perm.
Qed.

Lemma series_sortTime_NoDup : NoDup (List.map sortTime theSeries).
Proof.
  apply (NoDup_fmap_1 (hourLabel LocalTZA)).
  replace (hourLabel LocalTZA <$> List.map sortTime theSeries) with (List.map hour theSeries).
  - apply series_oneRowPerLabel.
  - change (hourLabel LocalTZA <$> List.map sortTime theSeries)
      with (List.map (hourLabel LocalTZA) (List.map sortTime theSeries)).
    rewrite List.map_map. apply map_ext_in. intros row Hin.
    symmetry. now apply series_row.
Qed.

Lemma series_strictly_sorted : StronglySorted Z.lt (List.map sortTime theSeries).
Proof.
  apply sorted_NoDup_strict; [| apply series_sortTime_NoDup].
  pose proof (Array_sort_sorted sortTime (JsMap.values theMap)) as H.
  induction H as [| row l Hl IH Hrow]; simpl; constructor; [exact IH |].
  apply Forall_forall. intros t Ht. apply list_elem_of_In, in_map_iff in Ht as (r & <- & Hr).
  rewrite Forall_forall in Hrow. apply Hrow. now apply list_elem_of_In.
Qed.

Lemma series_sorted : Sorted (fun a b => sortTime a <= sortTime b) theSeries.
Proof. apply StronglySorted_Sorted, (Array_sort_sorted sortTime). Qed.

End SeriesFacts.

Section ContributionFacts.

Variable Date_parse : string -> option Z.
Variable LocalTZA : Z -> bool -> Z.

Local Abbreviation contribution' := (contribution Date_parse LocalTZA).
Local Abbreviation labelOf' := (labelOf Date_parse LocalTZA).

Lemma contribution_app k label l1 l2 :
  contribution' k label (l1 ++ l2) = contribution' k label l1 + contribution' k label l2.
Proof. unfold contribution. now rewrite List.filter_app, List.map_app, sumZ_app. Qed.

(** A source that has no record under a label contributes 0 to it. *)
Lemma contribution_nothing k label recs :
  (forall rec, In rec recs -> fst rec = k -> labelOf' (snd rec) <> Some label) ->
  contribution' k label recs = 0.
Proof.
  intros H. induction recs as [| [k' item] recs IH]; [reflexivity |].
  change ((k', item) :: recs) with ([(k', item)] ++ recs)%list.
  rewrite contribution_app, IH by (intros rec Hin; apply H; now right).
  unfold contribution. simpl.
  destruct (inBucket Date_parse LocalTZA k label (k', item)) eqn:E; [| reflexivity].
  exfalso. unfold inBucket, underLabel in E. simpl in E. apply andb_prop in E as [Ek El].
  apply String.eqb_eq in Ek. subst k'.
  apply (H (k, item) (or_introl eq_refl) eq_refl). cbn [snd].
  destruct (labelOf' item) as [l |]; [| discriminate El].
  apply String.eqb_eq in El. now subst l.
Qed.

Lemma sumZ_perm (l1 l2 : list Z) : Permutation l1 l2 -> sumZ l1 = sumZ l2.
Proof. unfold sumZ. induction 1; simpl; lia. Qed.

(** What a source contributes is the sum over its own records under
    the label. *)
Lemma contribution_source k label items :
  contribution' k label (List.map (fun item => (k, item)) items)
  = sumZ (List.map value (List.filter (underLabel Date_parse LocalTZA label) items)).
Proof.
  induction items as [| item items IH]; [reflexivity |].
  cbn [List.map List.filter].
  change ((k, item) :: List.map (fun item => (k, item)) items)
    with ([(k, item)] ++ List.map (fun item => (k, item)) items)%list.
  rewrite contribution_app, IH.
  unfold contribution. cbn [List.filter]. unfold inBucket. cbn [fst snd].
  rewrite String.eqb_refl. cbn [andb].
  destruct (underLabel Date_parse LocalTZA label item); unfold sumZ; simpl; lia.
Qed.

Lemma records_cons k text results :
  records ((k, text) :: results)
  = (List.map (fun item => (k, item)) (omap lineRecord (dataLines text)) ++ records results)%list.
Proof. reflexivity. Qed.

(** With distinct keys, what a file contributes comes from its own
    payload alone. *)
Lemma contribution_own (csvText : SourceFile -> string) files file label :
  NoDup (List.map key files) -> In file files ->
  contribution' (key file) label
    (records (List.map (fun f => (key f, csvText f)) files))
  = contribution' (key file) label
      (List.map (fun item => (key file, item))
                (omap lineRecord (dataLines (csvText file)))).
Proof.
  induction files as [| f fs IH]; intros Hnd Hin; [destruct Hin |].
  cbn [List.map] in *. apply NoDup_cons in Hnd as [Hnotin Hnd].
  rewrite records_cons, contribution_app.
  assert (Hother : forall g, In g fs ->
            contribution' (key g) label
              (List.map (fun item => (key f, item))
                        (omap lineRecord (dataLines (csvText f)))) = 0).
  { intros g Hg. apply contribution_nothing. intros rec Hrec Hk.
    apply in_map_iff in Hrec as (item & <- & _). cbn [fst] in Hk.
    exfalso. apply Hnotin. rewrite Hk. apply list_elem_of_In. now apply in_map. }
  destruct Hin as [-> | Hin].
  - rewrite (contribution_nothing (key file) label (records _)); [lia |].
    intros rec Hrec Hk. exfalso. apply Hnotin. apply list_elem_of_In.
    unfold records in Hrec. apply in_flat_map in Hrec as ([k' text] & Hres & Hrec).
    apply in_map_iff in Hrec as (item & <- & _). cbn [fst] in Hk. subst k'.
    apply in_map_iff in Hres as (g & [= <- _] & Hg). now apply in_map.
  - rewrite (Hother file Hin), IH by assumption. lia.
Qed.

Lemma records_In (csvText : SourceFile -> string) file item :
  In file ALL_CSV_FILES ->
  In item (omap lineRecord (dataLines (csvText file))) ->
  In (key file, item) (records (resultsOf csvText)).
Proof.
  intros Hf Hi. unfold records. apply in_flat_map.
  exists (key file, csvText file). split.
  - unfold resultsOf. apply in_map_iff. now exists file.
  - cbn [fst snd]. now apply in_map.
Qed.

Lemma ALL_CSV_FILES_keys : NoDup (List.map key ALL_CSV_FILES).
Proof. apply (bool_decide_unpack _). vm_compute. exact I. Qed.

End ContributionFacts.

(** C9, as the code has it: the series is non-decreasing in [sortTime]
    for all adjacent pairs, indeed strictly increasing, so without two
    rows for one hour, and it holds exactly one row per distinct label
    [Mon-DD HH:00] of the records of all sources; hours of different
    years that share a label share one row. Both variants return this
    series. *)
Theorem masterSeries_shape (Date_parse : string -> option Z) (LocalTZA : Z -> bool -> Z)
        (csvText : SourceFile -> string) :
  exists series,
    finalChartData Date_parse LocalTZA (resultsOf csvText) = Normal series
    /\ Part000.finalChartData Date_parse LocalTZA (resultsOf csvText) = Normal series
    /\ Sorted (fun a b => sortTime a <= sortTime b) series
    /\ StronglySorted Z.lt (List.map sortTime series)
    /\ oneRowPerLabel Date_parse LocalTZA (records (resultsOf csvText)) series.
Proof.
  destruct (finalChartData_series Date_parse LocalTZA csvText) as [H1 H2].
  eexists. split; [exact H1 |]. split; [exact H2 |]. split; [| split].
  - apply series_sorted.
  - apply series_strictly_sorted.
  - apply series_oneRowPerLabel.
Qed.

(** C9 as the specification words it fails: with two orders records one
    year apart, at the same month, day and hour, there are two distinct
    hour buckets and the series has one row, that of the first record;
    the hour of the second record has no row of its own. *)
Lemma masterSeries_not_one_row_per_hour :
  List.map (fun rec => hourOf JsDate.parseISO utcTZA (snd rec)) (records (resultsOf twoYears))
  = [Some 1685613600000; Some 1717236000000]
  /\ exists series,
      finalChartData JsDate.parseISO utcTZA (resultsOf twoYears) = Normal series
      /\ List.map (fun row => (hour row, sortTime row, fields row !! "orders")) series
         = [("Jun-01 10:00", 1685613600000, Some (Num 9))]
      /\ ~ oneRowPerHour JsDate.parseISO utcTZA (records (resultsOf twoYears)) series.
Proof.
  split; [vm_compute; reflexivity |].
  eexists. split; [vm_compute; reflexivity |].
  split; [vm_compute; reflexivity |].
  intros [_ H]. specialize (H 1717236000000). destruct H as [_ H].
  assert (Hin : In 1717236000000 [1685613600000]).
  { apply H. exists ("orders", mkRaw "2024-06-01T10:15:00Z" 7).
    split; [vm_compute; tauto | vm_compute; reflexivity]. }
  destruct Hin as [Hin | []]. discriminate Hin.
Qed.



Lemma masterSeries_shape_witness :
  exists series,
    finalChartData JsDate.parseISO utcTZA (resultsOf twoYears) = Normal series
    /\ Sorted (fun a b => sortTime a <= sortTime b) series
    /\ StronglySorted Z.lt (List.map sortTime series)
    /\ oneRowPerLabel JsDate.parseISO utcTZA (records (resultsOf twoYears)) series.
Proof.
  destruct (masterSeries_shape JsDate.parseISO utcTZA twoYears)
    as (series & H1 & _ & Hs & Hst & Hl).
  exists series. auto.
Defined.

(** ** The sum of the records of one source under one label *)

Section SumFacts.

Variable Date_parse : string -> option Z.
Variable LocalTZA : Z -> bool -> Z.
Variable csvText : SourceFile -> string.
Variable file : SourceFile.
Variable parsed : list RawRecord.
Hypothesis file_configured : In file ALL_CSV_FILES.
Hypothesis file_parsed : parseCSV (csvText file) = Normal parsed.

Local Abbreviation series' :=
  (Array_sort (fun a b => sortTime a - sortTime b)
     (JsMap.values (fold_left (step Date_parse LocalTZA) (records (resultsOf csvText)) []))).

Lemma parsed_records item : In item parsed -> In (key file, item) (records (resultsOf csvText)).
Proof.
  intros Hin. apply records_In; [exact file_configured |].
  rewrite parseCSV_total in file_parsed. injection file_parsed as ->. exact Hin.
Qed.

(** The value of a row for the source is the sum over the records of
    the source under the label of the row. *)
Lemma row_value row :
  In row series' ->
  fields row !! key file
  = Some (Num (sumZ (List.map value
                       (List.filter (underLabel Date_parse LocalTZA (hour row)) parsed)))).
Proof.
  intros Hrow.
  destruct (series_row Date_parse LocalTZA csvText row Hrow) as (_ & _ & _ & Hf).
  rewrite Hf by (unfold sourceKeys; now apply in_map).
  unfold resultsOf.
  rewrite (contribution_own Date_parse LocalTZA csvText ALL_CSV_FILES file (hour row)
             ALL_CSV_FILES_keys file_configured).
  rewrite parseCSV_total in file_parsed. injection file_parsed as ->.
  now rewrite contribution_source.
Qed.

(** A label that a record of the source has is the label of exactly one
    row. *)
Lemma row_of_label item label :
  In item parsed -> labelOf Date_parse LocalTZA item = Some label ->
  exists row, In row series' /\ hour row = label
              /\ forall row', In row' series' -> hour row' = label -> row' = row.
Proof.
  intros Hin Hl.
  assert (Hkey : In label (JsMap.keys (fold_left (step Date_parse LocalTZA)
                                                 (records (resultsOf csvText)) []))).
  { apply theMap_key. exists (key file, item). split; [now apply parsed_records | exact Hl]. }
  apply has_keys, has_get in Hkey.
  destruct (JsMap.get (fold_left (step Date_parse LocalTZA) (records (resultsOf csvText)) []) label)
    as [row |] eqn:G; [| congruence].
  assert (Hrow : In row series') by (apply series_In; now exists label).
  assert (Hh : hour row = label).
  { destruct (theMap_inv Date_parse LocalTZA csvText) as [_ Hinv].
    specialize (Hinv label). rewrite G in Hinv. tauto. }
  exists row. split; [exact Hrow |]. split; [exact Hh |].
  intros row' Hrow' Hh'.
  destruct (series_row Date_parse LocalTZA csvText row' Hrow') as (Hget' & _).
  rewrite Hh' in Hget'. congruence.
Qed.

Lemma underLabel_labelOf label item :
  underLabel Date_parse LocalTZA label item = true
  <-> labelOf Date_parse LocalTZA item = Some label.
Proof.
  unfold underLabel. destruct (labelOf Date_parse LocalTZA item) as [l |].
  - rewrite String.eqb_eq. split; congruence.
  - split; discriminate.
Qed.

Lemma inHour_hourOf t item :
  inHour Date_parse LocalTZA t item = true <-> hourOf Date_parse LocalTZA item = Some t.
Proof.
  unfold inHour. destruct (hourOf Date_parse LocalTZA item) as [t' |].
  - rewrite Z.eqb_eq. split; congruence.
  - split; discriminate.
Qed.

Lemma hourOf_labelOf t item :
  hourOf Date_parse LocalTZA item = Some t ->
  labelOf Date_parse LocalTZA item = Some (hourLabel LocalTZA t).
Proof.
  unfold hourOf, labelOf. destruct (bucket Date_parse LocalTZA item) as [[label t'] |] eqn:B;
    [| discriminate].
  cbn. intros [= ->]. now rewrite (bucket_label Date_parse LocalTZA item label t B).
Qed.

(** Without a label shared by two hours, the records of an hour bucket
    are the records under its label. *)
Lemma inHour_underLabel t :
  collisionFree Date_parse LocalTZA (records (resultsOf csvText)) ->
  (exists item, In item parsed /\ hourOf Date_parse LocalTZA item = Some t) ->
  List.filter (inHour Date_parse LocalTZA t) parsed
  = List.filter (underLabel Date_parse LocalTZA (hourLabel LocalTZA t)) parsed.
Proof.
  intros Hfree (item & Hitem & Ht). apply filter_ext_in. intros x Hx.
  apply eq_true_iff_eq. rewrite inHour_hourOf, underLabel_labelOf. split.
  - apply hourOf_labelOf.
  - intros Hl. rewrite <- Ht.
    apply (Hfree (key file, x) (key file, item));
      [now apply parsed_records | now apply parsed_records |].
    cbn [snd]. now rewrite Hl, (hourOf_labelOf t item Ht).
Qed.

End SumFacts.

(** C6, as the code has it: the value of a row for a source is the sum
    of the values of all the records of that source under the label of
    the row. When the records of the source under a label are two
    records, in either order of arrival and whatever their years, the
    series has one row of that label and its value for the source is
    the sum of the two values. When no two hours of the records share a
    label, the same holds by hour bucket: two records of the source in
    one hour give one row of that hour with the sum of both. *)
Theorem sum_invariant (Date_parse : string -> option Z) (LocalTZA : Z -> bool -> Z)
        (csvText : SourceFile -> string) (file : SourceFile) (parsed : list RawRecord) :
  In file ALL_CSV_FILES ->
  parseCSV (csvText file) = Normal parsed ->
  exists series,
    finalChartData Date_parse LocalTZA (resultsOf csvText) = Normal series
    /\ Part000.finalChartData Date_parse LocalTZA (resultsOf csvText) = Normal series
    /\ (forall row,
          In row series ->
          fields row !! key file
          = Some (Num (sumZ (List.map value
                               (List.filter (underLabel Date_parse LocalTZA (hour row))
                                            parsed)))))
    /\ (forall r1 r2 label,
          Permutation (List.filter (underLabel Date_parse LocalTZA label) parsed) [r1; r2] ->
          exists row,
            In row series
            /\ hour row = label
            /\ fields row !! key file = Some (Num (value r1 + value r2))
            /\ (forall row', In row' series -> hour row' = label -> row' = row))
    /\ (collisionFree Date_parse LocalTZA (records (resultsOf csvText)) ->
        forall r1 r2 t,
          Permutation (List.filter (inHour Date_parse LocalTZA t) parsed) [r1; r2] ->
          exists row,
            In row series
            /\ sortTime row = t
            /\ fields row !! key file = Some (Num (value r1 + value r2))
            /\ (forall row', In row' series -> sortTime row' = t -> row' = row)).
Proof.
  intros Hfile Hparse.
  destruct (finalChartData_series Date_parse LocalTZA csvText) as [H1 H2].
  eexists. split; [exact H1 |]. split; [exact H2 |].
  assert (Hlabel : forall r1 r2 label,
             Permutation (List.filter (underLabel Date_parse LocalTZA label) parsed) [r1; r2] ->
             exists row,
               In row (Array_sort (fun a b => sortTime a - sortTime b)
                         (JsMap.values (fold_left (step Date_parse LocalTZA)
                                                  (records (resultsOf csvText)) [])))
               /\ hour row = label
               /\ fields row !! key file = Some (Num (value r1 + value r2))
               /\ (forall row',
                      In row' (Array_sort (fun a b => sortTime a - sortTime b)
                                 (JsMap.values (fold_left (step Date_parse LocalTZA)
                                                          (records (resultsOf csvText)) []))) ->
                      hour row' = label -> row' = row)).
  { intros r1 r2 label Hperm.
    assert (Hf : In r1 (List.filter (underLabel Date_parse LocalTZA label) parsed))
      by (apply (Permutation_in _ (Permutation_sym Hperm)); now left).
    apply filter_In in Hf as [Hin Hl]. apply underLabel_labelOf in Hl.
    destruct (row_of_label Date_parse LocalTZA csvText file parsed Hfile Hparse r1 label Hin Hl)
      as (row & Hrow & Hh & Huniq).
    exists row. split; [exact Hrow |]. split; [exact Hh |]. split; [| exact Huniq].
    rewrite (row_value Date_parse LocalTZA csvText file parsed Hfile Hparse row Hrow), Hh.
    rewrite (sumZ_perm _ _ (Permutation_map value Hperm)).
    unfold sumZ. cbn [List.map fold_right]. do 2 f_equal. lia. }
  split; [| split].
  - intros row Hrow.
    exact (row_value Date_parse LocalTZA csvText file parsed Hfile Hparse row Hrow).
  - exact Hlabel.
  - intros Hfree r1 r2 t Hperm.
    assert (Hf : In r1 (List.filter (inHour Date_parse LocalTZA t) parsed))
      by (apply (Permutation_in _ (Permutation_sym Hperm)); now left).
    apply filter_In in Hf as [Hin Ht]. apply inHour_hourOf in Ht.
    rewrite (inHour_underLabel Date_parse LocalTZA csvText file parsed Hfile Hparse t Hfree)
      in Hperm by (exists r1; split; assumption).
    destruct (Hlabel r1 r2 (hourLabel LocalTZA t) Hperm) as (row & Hrow & Hh & Hv & Huniq).
    assert (Hst : sortTime row = t).
    { destruct (series_row Date_parse LocalTZA csvText row Hrow) as (_ & _ & (rec & Hrec & Hb) & _).
      assert (E : hourOf Date_parse LocalTZA (snd rec) = hourOf Date_parse LocalTZA r1).
      { apply (Hfree rec (key file, r1));
          [exact Hrec
          | now apply (parsed_records csvText file parsed Hfile Hparse) |].
        cbn [snd]. rewrite (hourOf_labelOf Date_parse LocalTZA t r1 Ht).
        unfold labelOf. rewrite Hb. cbn. now rewrite Hh. }
      unfold hourOf at 1 in E. rewrite Hb, Ht in E. cbn in E. congruence. }
    exists row. split; [exact Hrow |]. split; [exact Hst |]. split; [exact Hv |].
    intros row' Hrow' Hst'. apply Huniq; [exact Hrow' |].
    destruct (series_row Date_parse LocalTZA csvText row' Hrow') as (_ & Hhl & _).
    now rewrite <- Hhl, Hst'.
Qed.

(** C6 as the specification words it fails: two orders records of one
    hour of 2024, with the values 7 and 5, are the only records of their
    hour bucket, and a third record of the same month, day and hour of
    2023 has the value 2. The series has one row, and its orders are 14,
    not 12: the hour bucket of a row is its label, which has no year. *)
Lemma sum_invariant_not_per_hour :
  List.map (fun rec => (hourOf JsDate.parseISO utcTZA (snd rec), value (snd rec)))
           (records (resultsOf acrossYears))
  = [(Some 1717236000000, 7); (Some 1717236000000, 5); (Some 1685613600000, 2)]
  /\ exists series,
      finalChartData JsDate.parseISO utcTZA (resultsOf acrossYears) = Normal series
      /\ Part000.finalChartData JsDate.parseISO utcTZA (resultsOf acrossYears) = Normal series
      /\ List.map (fun row => (hour row, sortTime row, fields row !! "orders")) series
         = [("Jun-01 10:00", 1717236000000, Some (Num 14))]
      /\ ~ sumPerHour JsDate.parseISO utcTZA acrossYears series.
Proof.
  split; [vm_compute; reflexivity |].
  eexists. split; [vm_compute; reflexivity |].
  split; [vm_compute; reflexivity |].
  split; [vm_compute; reflexivity |].
  intros H.
  destruct (H ordersFile
              [mkRaw "2024-06-01T10:15:00Z" 7; mkRaw "2024-06-01T10:40:00Z" 5;
               mkRaw "2023-06-01T10:20:00Z" 2]
              (mkRaw "2024-06-01T10:15:00Z" 7) (mkRaw "2024-06-01T10:40:00Z" 5)
              1717236000000)
    as (row & Hrow & _ & Hv).
  - vm_compute. tauto.
  - vm_compute. reflexivity.
  - vm_compute. reflexivity.
  - destruct Hrow as [<- | []]. vm_compute in Hv. discriminate Hv.
Qed.

Lemma sum_invariant_witness :
  exists series row,
    finalChartData JsDate.parseISO utcTZA (resultsOf sameHour) = Normal series
    /\ In row series
    /\ sortTime row = 1717236000000
    /\ fields row !! "orders" = Some (Num (5 + 7)).
Proof.
  assert (Hfile : In ordersFile ALL_CSV_FILES) by (vm_compute; tauto).
  assert (Hparse : parseCSV (sameHour ordersFile)
                   = Normal [mkRaw "2024-06-01T10:15:00Z" 7; mkRaw "2024-06-01T09:05:00Z" 1;
                             mkRaw "2024-06-01T10:40:00Z" 5])
    by (vm_compute; reflexivity).
  assert (Hfree : collisionFree JsDate.parseISO utcTZA (records (resultsOf sameHour))).
  { intros r r' Hr Hr' Hl. vm_compute in Hr, Hr'.
    decompose [or] Hr; decompose [or] Hr'; subst; try contradiction;
      vm_compute in Hl |- *; first [reflexivity | discriminate Hl]. }
  destruct (sum_invariant JsDate.parseISO utcTZA sameHour ordersFile _ Hfile Hparse)
    as (series & H1 & _ & _ & _ & Hhour).
  destruct (Hhour Hfree (mkRaw "2024-06-01T10:40:00Z" 5) (mkRaw "2024-06-01T10:15:00Z" 7)
                  1717236000000)
    as (row & Hrow & Ht & Hv & _); [vm_compute; apply perm_swap |].
  exists series, row. split; [exact H1 |]. split; [exact Hrow |]. split; [exact Ht | exact Hv].
Defined.

(** ** The retry loop for any number of attempts *)

Section RetryFacts.

Variable network : string -> nat -> FetchOutcome.

Lemma delays_app r t l :
  delays (mkWorld r (t ++ l)%list) = (delays (mkWorld r t) ++ delays (mkWorld r l))%list.
Proof. unfold delays. cbn [trace]. apply flat_map_app. Qed.

Lemma warnings_app r t l :
  warnings (mkWorld r (t ++ l)%list) = (warnings (mkWorld r t) ++ warnings (mkWorld r l))%list.
Proof. unfold warnings. cbn [trace]. apply flat_map_app. Qed.

Lemma doubling_shift (delay : Z) (n : nat) :
  List.map (fun j => delay * 2 ^ Z.of_nat j) (seq 1 n)
  = List.map (fun j => delay * 2 * 2 ^ Z.of_nat j) (seq 0 n).
Proof.
  rewrite <- seq_shift, List.map_map. apply map_ext. intros j.
  rewrite Nat2Z.inj_succ, Z.pow_succ_r by lia. lia.
Qed.

(** An outcome either fails or carries a payload. *)
Lemma failure_or_payload (o : FetchOutcome) :
  (exists e, failure o = Some e /\ payload o = None)
  \/ (exists body, failure o = None /\ payload o = Some body).
Proof.
  destruct o as [e | res]; simpl.
  - left. eauto.
  - destruct (ok res); simpl.
    + destruct (text res); [right | left]; eauto.
    + left. eauto.
Qed.

(** What a run of [k] failures followed by a success does, from any
    point of the loop. *)
Lemma retryLoop_succeeds_after (variant : bool) url name retries body :
  forall k n i delay w,
    (k < n)%nat -> (i + n = retries)%nat ->
    (forall j, (j < k)%nat -> failure (network url (requests w + j)) <> None) ->
    payload (network url (requests w + k)) = Some body ->
    exists w',
      (if variant then retryLoop network url name retries n i delay w
       else retryLoop2 network url name retries n i delay w) = (Normal (Some body), w')
      /\ requests w' = (requests w + S k)%nat
      /\ delays w' = (delays w ++ List.map (fun j => delay * 2 ^ Z.of_nat j) (seq 0 k))%list
      /\ length (warnings w') = (length (warnings w) + k)%nat.
Proof.
  induction k as [| k IH]; intros n i delay w Hk Hi Hfail Hpay.
  - destruct n as [| n]; [lia |]. rewrite Nat.add_0_r in Hpay.
    eexists. split.
    + destruct variant;
        [apply (retryLoop_success network _ _ _ _ _ _ _ _ Hpay)
        | apply (retryLoop2_success network _ _ _ _ _ _ _ _ Hpay)].
    + cbn [requests]. split; [lia |]. split.
      * unfold delays. cbn [trace seq List.map]. rewrite flat_map_app. cbn.
        now rewrite !app_nil_r.
      * unfold warnings. cbn [trace]. rewrite flat_map_app, length_app. cbn. lia.
  - destruct n as [| n]; [lia |].
    assert (Hf0 : failure (network url (requests w)) <> None)
      by (specialize (Hfail 0%nat); rewrite Nat.add_0_r in Hfail; apply Hfail; lia).
    destruct (failure (network url (requests w))) as [e |] eqn:Ef; [| congruence].
    assert (Hi' : i <> (retries - 1)%nat) by lia.
    set (w1 := mkWorld (S (requests w))
                 (trace w ++ [Request url; Warn (warningOf i name e delay); Sleep delay])%list).
    set (w2 := mkWorld (S (requests w))
                 (trace w ++ [Request url; Warn (warningOf2 i name); Sleep delay])%list).
    destruct variant.
    + destruct (IH n (S i) (delay * 2) w1) as (w' & Hrun & Hreq & Hdel & Hwarn).
      * lia.
      * lia.
      * intros j Hj. cbn [requests w1]. replace (S (requests w) + j)%nat
          with (requests w + S j)%nat by lia. apply Hfail. lia.
      * cbn [requests w1]. replace (S (requests w) + k)%nat
          with (requests w + S k)%nat by lia. exact Hpay.
      * exists w'. split; [| split; [| split]].
        -- rewrite (retryLoop_retry network _ _ _ _ _ _ _ _ Ef Hi'). exact Hrun.
        -- rewrite Hreq. cbn [requests w1]. lia.
        -- rewrite Hdel. unfold w1, delays. cbn [trace seq List.map].
           rewrite doubling_shift, flat_map_app, <- app_assoc. cbn [flat_map app].
           do 2 f_equal. lia.
        -- rewrite Hwarn. unfold w1, warnings. cbn [trace].
           rewrite flat_map_app, length_app. cbn. lia.
    + destruct (IH n (S i) (delay * 2) w2) as (w' & Hrun & Hreq & Hdel & Hwarn).
      * lia.
      * lia.
      * intros j Hj. cbn [requests w2]. replace (S (requests w) + j)%nat
          with (requests w + S j)%nat by lia. apply Hfail. lia.
      * cbn [requests w2]. replace (S (requests w) + k)%nat
          with (requests w + S k)%nat by lia. exact Hpay.
      * exists w'. split; [| split; [| split]].
        -- rewrite (retryLoop2_retry network _ _ _ _ _ _ _ _ Ef Hi'). exact Hrun.
        -- rewrite Hreq. cbn [requests w2]. lia.
        -- rewrite Hdel. unfold w2, delays. cbn [trace seq List.map].
           rewrite doubling_shift, flat_map_app, <- app_assoc. cbn [flat_map app].
           do 2 f_equal. lia.
        -- rewrite Hwarn. unfold w2, warnings. cbn [trace].
           rewrite flat_map_app, length_app. cbn. lia.
Qed.

(** What a run that fails until the attempts are used up does, from any
    point of the loop. *)
Lemma retryLoop_all_fail (variant : bool) url name retries eLast :
  forall n i delay w,
    (i + S n = retries)%nat ->
    (forall j, (j < n)%nat -> failure (network url (requests w + j)) <> None) ->
    failure (network url (requests w + n)) = Some eLast ->
    exists w',
      (if variant then retryLoop network url name retries (S n) i delay w
       else retryLoop2 network url name retries (S n) i delay w)
      = (Throw (if variant
                then mkError ("Failed to fetch " ^^ name ^^ " after "
                              ^^ showZ (Z.of_nat MAX_RETRIES) ^^ " attempts.")
                else eLast), w')
      /\ requests w' = (requests w + S n)%nat
      /\ delays w' = (delays w ++ List.map (fun j => delay * 2 ^ Z.of_nat j) (seq 0 n))%list
      /\ length (warnings w') = (length (warnings w) + S n)%nat
      /\ (exists msg, last (trace w') = Some (Warn msg)).
Proof.
  induction n as [| n IH]; intros i delay w Hi Hfail Hlast.
  - rewrite Nat.add_0_r in Hlast. replace i with (retries - 1)%nat by lia.
    destruct variant; eexists;
      (split;
       [first [apply (retryLoop_exhausted network _ _ _ _ _ _ _ Hlast)
              | apply (retryLoop2_exhausted network _ _ _ _ _ _ _ Hlast)] |]);
      cbn [requests]; (split; [lia |]); (split; [| split]).
    + unfold delays. cbn [trace seq List.map]. rewrite flat_map_app. cbn.
      now rewrite !app_nil_r.
    + unfold warnings. cbn [trace]. rewrite flat_map_app, length_app. cbn. lia.
    + cbn [trace]. eexists. rewrite last_app. reflexivity.
    + unfold delays. cbn [trace seq List.map]. rewrite flat_map_app. cbn.
      now rewrite !app_nil_r.
    + unfold warnings. cbn [trace]. rewrite flat_map_app, length_app. cbn. lia.
    + cbn [trace]. eexists. rewrite last_app. reflexivity.
  - assert (Hf0 : failure (network url (requests w)) <> None)
      by (specialize (Hfail 0%nat); rewrite Nat.add_0_r in Hfail; apply Hfail; lia).
    destruct (failure (network url (requests w))) as [e |] eqn:Ef; [| congruence].
    assert (Hi' : i <> (retries - 1)%nat) by lia.
    set (w1 := mkWorld (S (requests w))
                 (trace w ++ [Request url; Warn (warningOf i name e delay); Sleep delay])%list).
    set (w2 := mkWorld (S (requests w))
                 (trace w ++ [Request url; Warn (warningOf2 i name); Sleep delay])%list).
    destruct variant.
    + destruct (IH (S i) (delay * 2) w1) as (w' & Hrun & Hreq & Hdel & Hwarn & Hend).
      * lia.
      * intros j Hj. cbn [requests w1]. replace (S (requests w) + j)%nat
          with (requests w + S j)%nat by lia. apply Hfail. lia.
      * cbn [requests w1]. replace (S (requests w) + n)%nat
          with (requests w + S n)%nat by lia. exact Hlast.
      * exists w'. split; [| split; [| split; [| split]]].
        -- rewrite (retryLoop_retry network _ _ _ _ _ _ _ _ Ef Hi'). exact Hrun.
        -- rewrite Hreq. cbn [requests w1]. lia.
        -- rewrite Hdel. unfold w1, delays. cbn [trace seq List.map].
           rewrite doubling_shift, flat_map_app, <- app_assoc. cbn [flat_map app].
           do 2 f_equal. lia.
        -- rewrite Hwarn. unfold w1, warnings. cbn [trace].
           rewrite flat_map_app, length_app. cbn. lia.
        -- exact Hend.
    + destruct (IH (S i) (delay * 2) w2) as (w' & Hrun & Hreq & Hdel & Hwarn & Hend).
      * lia.
      * intros j Hj. cbn [requests w2]. replace (S (requests w) + j)%nat
          with (requests w + S j)%nat by lia. apply Hfail. lia.
      * cbn [requests w2]. replace (S (requests w) + n)%nat
          with (requests w + S n)%nat by lia. exact Hlast.
      * exists w'. split; [| split; [| split; [| split]]].
        -- rewrite (retryLoop2_retry network _ _ _ _ _ _ _ _ Ef Hi'). exact Hrun.
        -- rewrite Hreq. cbn [requests w2]. lia.
        -- rewrite Hdel. unfold w2, delays. cbn [trace seq List.map].
           rewrite doubling_shift, flat_map_app, <- app_assoc. cbn [flat_map app].
           do 2 f_equal. lia.
        -- rewrite Hwarn. unfold w2, warnings. cbn [trace].
           rewrite flat_map_app, length_app. cbn. lia.
        -- exact Hend.
Qed.

(** A payload that is returned is the payload of the last request
    made, from any point of the loop. *)
Lemma retryLoop_returns_payload (variant : bool) url name retries body w' :
  forall n i delay w,
    (if variant then retryLoop network url name retries n i delay w
     else retryLoop2 network url name retries n i delay w) = (Normal (Some body), w') ->
    exists k, (k < n)%nat
              /\ payload (network url (requests w + k)) = Some body
              /\ (forall j, (j < k)%nat -> failure (network url (requests w + j)) <> None)
              /\ requests w' = (requests w + S k)%nat.
Proof.
  induction n as [| n IH]; intros i delay w Hrun.
  - destruct variant; discriminate Hrun.
  - destruct (failure_or_payload (network url (requests w)))
      as [(e & Ef & _) | (b & Ef & Ep)].
    + destruct (Nat.eq_dec i (retries - 1)%nat) as [-> | Hi].
      * destruct variant;
          [rewrite (retryLoop_exhausted network _ _ _ _ _ _ _ Ef) in Hrun
          | rewrite (retryLoop2_exhausted network _ _ _ _ _ _ _ Ef) in Hrun];
          discriminate Hrun.
      * assert (Hrec : exists w1, requests w1 = S (requests w) /\
                  (if variant then retryLoop network url name retries n (S i) (delay * 2) w1
                   else retryLoop2 network url name retries n (S i) (delay * 2) w1)
                  = (Normal (Some body), w')).
        { destruct variant;
            [rewrite (retryLoop_retry network _ _ _ _ _ _ _ _ Ef Hi) in Hrun
            | rewrite (retryLoop2_retry network _ _ _ _ _ _ _ _ Ef Hi) in Hrun];
            eexists; (split; [| exact Hrun]); reflexivity. }
        destruct Hrec as (w1 & Hreq1 & Hrun1).
        destruct (IH _ _ _ Hrun1) as (k & Hk & Hp & Hfail & Hreq).
        exists (S k). rewrite Hreq1 in *. split; [lia |]. split; [| split].
        -- replace (requests w + S k)%nat with (S (requests w) + k)%nat by lia. exact Hp.
        -- intros j Hj. destruct j as [| j].
           ++ rewrite Nat.add_0_r, Ef. discriminate.
           ++ replace (requests w + S j)%nat with (S (requests w) + j)%nat by lia.
              apply Hfail. lia.
        -- lia.
    + exists 0%nat. rewrite Nat.add_0_r.
      destruct variant;
        [rewrite (retryLoop_success network _ _ _ _ _ _ _ _ Ep) in Hrun
        | rewrite (retryLoop2_success network _ _ _ _ _ _ _ _ Ep) in Hrun];
        injection Hrun as <- <-; (split; [lia |]); (split; [exact Ep |]);
        (split; [intros j Hj; lia | cbn [requests]; lia]).
Qed.

End RetryFacts.

(** X1: for any number of attempts, when the first [k] requests fail
    and the next one succeeds within the attempts allowed, both variants
    return that payload after [k + 1] requests, [k] warnings and the
    [k] delays 1000, 2000, 4000, ... doubling each time; with [k = 0]
    there is no delay and no warning. *)
Theorem fetchWithRetry_succeeds_after (network : string -> nat -> FetchOutcome)
        (url name body : string) (retries k : nat) :
  (k < retries)%nat ->
  firstFail network url k ->
  payload (network url k) = Some body ->
  exists w w2,
    fetchWithRetry network url name retries initialWorld = (Normal (Some body), w)
    /\ requests w = S k /\ delays w = backoff k /\ length (warnings w) = k
    /\ fetchWithRetry2 network url name retries initialWorld = (Normal (Some body), w2)
    /\ requests w2 = S k /\ delays w2 = backoff k /\ length (warnings w2) = k.
Proof.
  intros Hk Hfail Hpay.
  destruct (retryLoop_succeeds_after network true url name retries body
              k retries 0%nat INITIAL_DELAY_MS initialWorld Hk eq_refl Hfail Hpay)
    as (w & Hrun & Hreq & Hdel & Hwarn).
  destruct (retryLoop_succeeds_after network false url name retries body
              k retries 0%nat 1000 initialWorld Hk eq_refl Hfail Hpay)
    as (w2 & Hrun2 & Hreq2 & Hdel2 & Hwarn2).
  exists w, w2. repeat split; assumption.
Qed.

Lemma fetchWithRetry_succeeds_after_witness :
  exists w w2,
    fetchWithRetry flakyNetwork "u" "Orders" 5 initialWorld
    = (Normal (Some "timestamp,value"), w)
    /\ requests w = 3%nat /\ delays w = [1000; 2000] /\ length (warnings w) = 2%nat
    /\ fetchWithRetry2 flakyNetwork "u" "Orders" 5 initialWorld
       = (Normal (Some "timestamp,value"), w2)
    /\ requests w2 = 3%nat /\ delays w2 = [1000; 2000] /\ length (warnings w2) = 2%nat.
Proof.
  apply (fetchWithRetry_succeeds_after flakyNetwork "u" "Orders" "timestamp,value" 5 2).
  - lia.
  - intros j Hj. destruct j as [| [| j]]; [discriminate | discriminate | lia].
  - reflexivity.
Defined.

(** X2: for any number [n + 1] of attempts, when every request fails
    the run makes exactly [n + 1] requests, logs [n + 1] warnings,
    sleeps [n] times with the delays 1000, 2000, 4000, ... and ends on a
    warning, not on a delay. App.jsx then throws an error that says
    [after 3 attempts] whatever the number of attempts is; the second
    variant throws the error of the last request. *)
Theorem fetchWithRetry_exhausted (network : string -> nat -> FetchOutcome)
        (url name : string) (n : nat) (eLast : JsError) :
  firstFail network url n ->
  failure (network url n) = Some eLast ->
  exists w w2,
    fetchWithRetry network url name (S n) initialWorld
    = (Throw (mkError ("Failed to fetch " ^^ name ^^ " after 3 attempts.")), w)
    /\ requests w = S n /\ delays w = backoff n
    /\ length (warnings w) = S n
    /\ (exists msg, last (trace w) = Some (Warn msg))
    /\ fetchWithRetry2 network url name (S n) initialWorld = (Throw eLast, w2)
    /\ requests w2 = S n /\ delays w2 = backoff n
    /\ length (warnings w2) = S n
    /\ (exists msg, last (trace w2) = Some (Warn msg)).
Proof.
  intros Hfail Hlast.
  destruct (retryLoop_all_fail network true url name (S n) eLast
              n 0%nat INITIAL_DELAY_MS initialWorld eq_refl Hfail Hlast)
    as (w & Hrun & Hreq & Hdel & Hwarn & Hend).
  destruct (retryLoop_all_fail network false url name (S n) eLast
              n 0%nat 1000 initialWorld eq_refl Hfail Hlast)
    as (w2 & Hrun2 & Hreq2 & Hdel2 & Hwarn2 & Hend2).
  exists w, w2. repeat split; assumption.
Qed.

Lemma fetchWithRetry_exhausted_witness :
  exists w w2,
    fetchWithRetry downNetwork "u" "Orders" 5 initialWorld
    = (Throw (mkError "Failed to fetch Orders after 3 attempts."), w)
    /\ requests w = 5%nat /\ delays w = [1000; 2000; 4000; 8000]
    /\ length (warnings w) = 5%nat
    /\ (exists msg, last (trace w) = Some (Warn msg))
    /\ fetchWithRetry2 downNetwork "u" "Orders" 5 initialWorld
       = (Throw (mkError "HTTP Error 503: Service Unavailable"), w2)
    /\ requests w2 = 5%nat /\ delays w2 = [1000; 2000; 4000; 8000]
    /\ length (warnings w2) = 5%nat
    /\ (exists msg, last (trace w2) = Some (Warn msg)).
Proof.
  apply (fetchWithRetry_exhausted downNetwork "u" "Orders" 4
           (mkError "HTTP Error 503: Service Unavailable")).
  - intros j Hj. discriminate.
  - reflexivity.
Defined.

(** X3: a body that [fetchWithRetry] returns is the body of the last
    request it made, and that request succeeded: the response was [ok]
    and its text could be read; every request before it failed. The body
    of a response whose status is not a success is never returned. *)
Theorem fetchWithRetry_returns_ok_body (network : string -> nat -> FetchOutcome)
        (url name body : string) (retries : nat) (variant : bool) (w : World) :
  (if variant then fetchWithRetry network url name retries initialWorld
   else fetchWithRetry2 network url name retries initialWorld) = (Normal (Some body), w) ->
  exists k res,
    (k < retries)%nat /\ requests w = S k
    /\ network url k = Resolved res /\ ok res = true /\ text res = Normal body
    /\ firstFail network url k.
Proof.
  intros Hrun.
  destruct (retryLoop_returns_payload network variant url name retries body w
              retries 0%nat (if variant then INITIAL_DELAY_MS else 1000) initialWorld)
    as (k & Hk & Hp & Hfail & Hreq).
  { destruct variant; exact Hrun. }
  cbn in Hp, Hreq. unfold payload in Hp.
  destruct (network url k) as [e | res] eqn:En; [discriminate |].
  exists k, res. destruct (ok res) eqn:Eok; [| discriminate Hp].
  destruct (text res) as [b |] eqn:Et; [| discriminate Hp].
  cbn in Hp. injection Hp as ->.
  repeat split; try assumption; try reflexivity.
Qed.

Lemma fetchWithRetry_returns_ok_body_witness :
  exists k res,
    (k < 3)%nat
    /\ flakyNetwork "u" k = Resolved res /\ ok res = true
    /\ text res = Normal "timestamp,value".
Proof.
  destruct (fetchWithRetry_returns_ok_body flakyNetwork "u" "Orders" "timestamp,value" 3 true
              (mkWorld 3 [Request "u";
                          Warn (warningOf 0 "Orders" (mkError "Failed to fetch") 1000);
                          Sleep 1000; Request "u";
                          Warn (warningOf 1 "Orders"
                                  (mkError "HTTP Error 503: Service Unavailable") 2000);
                          Sleep 2000; Request "u"]))
    as (k & res & Hk & _ & Hn & Hok & Ht & _).
  - vm_compute. reflexivity.
  - exists k, res. auto.
Defined.

(** ** More facts on the strings of the parser *)

Section TrimFacts.

Local Arguments String.append : simpl nomatch.

Lemma append_assoc (a b c : string) : (a ^^ b) ^^ c = a ^^ b ^^ c.
Proof. induction a as [| x a IH]; simpl; [reflexivity | now rewrite IH]. Qed.

Lemma append_empty_r (a : string) : a ^^ "" = a.
Proof. induction a as [| x a IH]; simpl; [reflexivity | now rewrite IH]. Qed.

Lemma trimStart_white ws : allWhite ws = true -> trimStart ws = "".
Proof.
  induction ws as [| c ws IH]; simpl; [reflexivity |].
  intros H. apply andb_prop in H as [Hc Hws]. rewrite Hc. now apply IH.
Qed.

Lemma trimStart_app_white ws s : allWhite ws = true -> trimStart (ws ^^ s) = trimStart s.
Proof.
  induction ws as [| c ws IH]; simpl; [reflexivity |].
  intros H. apply andb_prop in H as [Hc Hws]. rewrite Hc. now apply IH.
Qed.

Lemma trimStart_app_visible a b : allWhite a = false -> trimStart (a ^^ b) = trimStart a ^^ b.
Proof.
  induction a as [| c a IH]; simpl; [discriminate |].
  destruct (isWhiteSpace c); simpl; [exact IH | reflexivity].
Qed.

Lemma trimStart_visible a : allWhite a = false -> allWhite (trimStart a) = false.
Proof.
  induction a as [| c a IH]; simpl; [discriminate |].
  destruct (isWhiteSpace c) eqn:E; simpl; [exact IH | now rewrite E].
Qed.

Lemma trimEnd_white ws : allWhite ws = true -> trimEnd ws = "".
Proof.
  induction ws as [| c ws IH]; simpl; [reflexivity |].
  intros H. apply andb_prop in H as [Hc Hws]. now rewrite (IH Hws), Hc.
Qed.

Lemma trimEnd_empty_white s : trimEnd s = "" -> allWhite s = true.
Proof.
  induction s as [| c s IH]; simpl; [reflexivity |].
  destruct (trimEnd s) eqn:E; [| discriminate].
  destruct (isWhiteSpace c); [intros _; now apply IH | discriminate].
Qed.

Lemma trimEnd_app a b :
  trimEnd (a ^^ b) = if String.eqb (trimEnd b) "" then trimEnd a else a ^^ trimEnd b.
Proof.
  induction a as [| c a IH]; simpl.
  - destruct (String.eqb_spec (trimEnd b) ""); congruence.
  - rewrite IH. destruct (String.eqb_spec (trimEnd b) "") as [E | E]; [reflexivity |].
    destruct (a ^^ trimEnd b) eqn:Ea; [| reflexivity].
    exfalso. destruct a; simpl in Ea; [contradiction | discriminate].
Qed.

(** [trim] does not see white space around the text. *)
Lemma trim_padding ws1 text ws2 :
  allWhite ws1 = true -> allWhite ws2 = true -> trim (ws1 ^^ text ^^ ws2) = trim text.
Proof.
  intros H1 H2. unfold trim. rewrite (trimStart_app_white _ _ H1).
  destruct (allWhite text) eqn:Et.
  - rewrite (trimStart_app_white _ _ Et), (trimStart_white _ H2), (trimStart_white _ Et).
    reflexivity.
  - rewrite (trimStart_app_visible _ _ Et), trimEnd_app, (trimEnd_white _ H2). reflexivity.
Qed.

Lemma noChar_split_one sep s : noChar sep s = true -> split sep s = [s].
Proof.
  induction s as [| c s IH]; simpl; [reflexivity |].
  intros H. apply andb_prop in H as [Hc Hs]. apply negb_true_iff in Hc.
  now rewrite Hc, (IH Hs).
Qed.

Lemma split_app_sep sep a b :
  noChar sep a = true -> split sep (a ^^ String sep b) = a :: split sep b.
Proof.
  induction a as [| c a IH]; simpl.
  - intros _. now rewrite Ascii.eqb_refl.
  - intros H. apply andb_prop in H as [Hc Ha]. apply negb_true_iff in Hc.
    now rewrite Hc, (IH Ha).
Qed.

Lemma noChar_trimStart c s : noChar c s = true -> noChar c (trimStart s) = true.
Proof.
  induction s as [| d s IH]; simpl; [reflexivity |].
  intros H. destruct (isWhiteSpace d); [| exact H].
  apply andb_prop in H as [_ Hs]. now apply IH.
Qed.

Lemma noChar_trimEnd c s : noChar c s = true -> noChar c (trimEnd s) = true.
Proof.
  induction s as [| d s IH]; simpl; [reflexivity |].
  intros H. apply andb_prop in H as [Hd Hs]. specialize (IH Hs).
  destruct (trimEnd s) eqn:E.
  - destruct (isWhiteSpace d); simpl; [reflexivity | now rewrite Hd].
  - cbn [noChar] in *. now rewrite Hd, IH.
Qed.

Lemma noChar_removeAll c d s : noChar c s = true -> noChar c (removeAll d s) = true.
Proof.
  induction s as [| x s IH]; simpl; [reflexivity |].
  intros H. apply andb_prop in H as [Hx Hs].
  destruct (Ascii.eqb x d); simpl; [now apply IH | now rewrite Hx, IH].
Qed.

Lemma removeAll_noChar c s : noChar c (removeAll c s) = true.
Proof.
  induction s as [| x s IH]; simpl; [reflexivity |].
  destruct (Ascii.eqb x c) eqn:E; simpl; [exact IH | now rewrite E, IH].
Qed.

(** The pieces of a split do not hold the separator, and hold no
    character that the text does not hold. *)
Lemma split_pieces_sep sep s : Forall (fun p => noChar sep p = true) (split sep s).
Proof.
  induction s as [| c s IH]; simpl; [repeat constructor |].
  destruct (Ascii.eqb c sep) eqn:E; [constructor; [reflexivity | exact IH] |].
  destruct (split sep s) as [| hd tl]; [repeat constructor; simpl; now rewrite E |].
  apply Forall_cons in IH as [Hhd Htl]. constructor; [| exact Htl].
  simpl. now rewrite E, Hhd.
Qed.

Lemma split_pieces_other c sep s :
  noChar c s = true -> Forall (fun p => noChar c p = true) (split sep s).
Proof.
  induction s as [| d s IH]; simpl; [repeat constructor |].
  intros H. apply andb_prop in H as [Hd Hs]. specialize (IH Hs).
  destruct (Ascii.eqb d sep); [constructor; [reflexivity | exact IH] |].
  destruct (split sep s) as [| hd tl]; [repeat constructor; simpl; now rewrite Hd |].
  apply Forall_cons in IH as [Hhd Htl]. constructor; [| exact Htl].
  simpl. now rewrite Hd, Hhd.
Qed.

(** A string is clean at the start when it does not begin with white
    space. *)
Lemma trimStart_fixed s : trimStart (trimStart s) = trimStart s.
Proof.
  induction s as [| c s IH]; simpl; [reflexivity |].
  destruct (isWhiteSpace c) eqn:E; [exact IH | simpl; now rewrite E].
Qed.

Lemma trimEnd_fixed s : trimEnd (trimEnd s) = trimEnd s.
Proof.
  induction s as [| c s IH]; simpl; [reflexivity |].
  destruct (trimEnd s) as [| d r] eqn:E.
  - destruct (isWhiteSpace c) eqn:Ec; simpl; [reflexivity | now rewrite Ec].
  - cbn [trimEnd]. cbn [trimEnd] in IH. now rewrite IH.
Qed.

Lemma trimStart_trimEnd s :
  trimStart s = s -> trimStart (trimEnd s) = trimEnd s.
Proof.
  destruct s as [| c s]; simpl; [reflexivity |].
  destruct (isWhiteSpace c) eqn:Ec.
  - intros H. exfalso.
    assert (L : (String.length (trimStart s) <= String.length s)%nat).
    { clear. induction s as [| d s IH]; simpl; [lia |]. destruct (isWhiteSpace d); simpl; lia. }
    rewrite H in L. simpl in L. lia.
  - intros _. destruct (trimEnd s); simpl; now rewrite Ec.
Qed.

Lemma trim_fixed s : trim (trim s) = trim s.
Proof.
  unfold trim. rewrite (trimStart_trimEnd (trimStart s)) by apply trimStart_fixed.
  apply trimEnd_fixed.
Qed.

End TrimFacts.

(** X4: white space around the payload, blank lines included, does not
    change what [parseCSV] returns, in either variant. A payload whose
    first line is blank therefore loses its first data line, which is
    taken for the header. *)
Theorem parseCSV_ignores_padding (ws1 text ws2 : string) :
  allWhite ws1 = true -> allWhite ws2 = true ->
  parseCSV (ws1 ^^ text ^^ ws2) = parseCSV text
  /\ Part000Csv.parseCSV (ws1 ^^ text ^^ ws2) = Part000Csv.parseCSV text.
Proof.
  intros H1 H2.
  rewrite (parseCSV_variant (ws1 ^^ text ^^ ws2)), (parseCSV_variant text).
  assert (E : parseCSV (ws1 ^^ text ^^ ws2) = parseCSV text).
  { rewrite !parseCSV_total. unfold dataLines. now rewrite (trim_padding _ _ _ H1 H2). }
  split; exact E.
Qed.

Lemma parseCSV_ignores_padding_witness :
  parseCSV (chr 10 ^^ ("2024-01-01T00:00:00Z,5" ^^ chr 10 ^^ "2024-01-01T01:00:00Z,6")
                   ^^ chr 10)
  = Normal [mkRaw "2024-01-01T01:00:00Z" 6].
Proof.
  rewrite (proj1 (parseCSV_ignores_padding (chr 10)
                    ("2024-01-01T00:00:00Z,5" ^^ chr 10 ^^ "2024-01-01T01:00:00Z,6") (chr 10)
                    eq_refl eq_refl)).
  vm_compute. reflexivity.
Defined.

(** X5: the first line is discarded whatever it holds: when it has a
    visible character, the records are those of the lines after it (up
    to the white space that ends the payload) and do not depend on the
    header, in either variant. *)
Theorem parseCSV_header_discarded (header body : string) :
  allWhite header = false -> noChar LF header = true ->
  parseCSV (header ^^ chr 10 ^^ body)
  = Normal (omap lineRecord (split LF (trimEnd body)))
  /\ Part000Csv.parseCSV (header ^^ chr 10 ^^ body)
     = Normal (omap lineRecord (split LF (trimEnd body))).
Proof.
  intros Hv Hn. rewrite (parseCSV_variant (header ^^ chr 10 ^^ body)).
  enough (E : parseCSV (header ^^ chr 10 ^^ body)
              = Normal (omap lineRecord (split LF (trimEnd body)))) by (split; exact E).
  rewrite parseCSV_total. unfold dataLines, trim.
  rewrite (trimStart_app_visible _ _ Hv), trimEnd_app.
  change (chr 10 ^^ body) with (String LF body). cbn [trimEnd].
  pose proof (noChar_trimStart _ _ Hn) as Hn'.
  destruct (trimEnd body) as [| d r] eqn:Eb.
  - change (isWhiteSpace LF) with true. cbn [String.eqb].
    rewrite (noChar_split_one _ _ (noChar_trimEnd _ _ Hn')). reflexivity.
  - cbn [String.eqb]. now rewrite (split_app_sep _ _ _ Hn').
Qed.

Lemma parseCSV_header_discarded_witness :
  parseCSV ("any header, even with commas" ^^ chr 10 ^^ "2024-01-01T00:00:00Z,5" ^^ chr 10)
  = parseCSV ("timestamp,value" ^^ chr 10 ^^ "2024-01-01T00:00:00Z,5" ^^ chr 10).
Proof.
  rewrite (proj1 (parseCSV_header_discarded "any header, even with commas"
                    ("2024-01-01T00:00:00Z,5" ^^ chr 10) eq_refl eq_refl)).
  rewrite (proj1 (parseCSV_header_discarded "timestamp,value"
                    ("2024-01-01T00:00:00Z,5" ^^ chr 10) eq_refl eq_refl)).
  reflexivity.
Defined.

(** X6: the fields after the second one are ignored: a line with more
    than two fields gives the item of its first two fields. *)
Theorem parseCSV_line_extra_fields (f0 f1 rest : string) :
  noChar COMMA f0 = true -> noChar COMMA f1 = true ->
  parseCSV_line (f0 ^^ "," ^^ f1 ^^ "," ^^ rest) = parseCSV_line (f0 ^^ "," ^^ f1)
  /\ Part000Csv.parseCSV_line (f0 ^^ "," ^^ f1 ^^ "," ^^ rest)
     = Part000Csv.parseCSV_line (f0 ^^ "," ^^ f1).
Proof.
  intros H0 H1.
  assert (H : parseCSV_line (f0 ^^ "," ^^ f1 ^^ "," ^^ rest) = parseCSV_line (f0 ^^ "," ^^ f1)).
  { rewrite !parseCSV_line_total. unfold lineItem.
    change (f0 ^^ "," ^^ f1 ^^ "," ^^ rest) with (f0 ^^ String COMMA (f1 ^^ String COMMA rest)).
    change (f0 ^^ "," ^^ f1) with (f0 ^^ String COMMA f1).
    rewrite !(split_app_sep _ _ _ H0), (split_app_sep _ _ _ H1), (noChar_split_one _ _ H1).
    reflexivity. }
  split; exact H.
Qed.

Lemma parseCSV_line_extra_fields_witness :
  parseCSV_line ("2024-01-01T00:00:00Z,5,US,note")
  = Normal (mkRaw "2024-01-01T00:00:00Z" 5).
Proof.
  change "2024-01-01T00:00:00Z,5,US,note"
    with ("2024-01-01T00:00:00Z" ^^ "," ^^ "5" ^^ "," ^^ "US,note").
  rewrite (proj1 (parseCSV_line_extra_fields "2024-01-01T00:00:00Z" "5" "US,note"
                    eq_refl eq_refl)).
  vm_compute. reflexivity.
Defined.

Section ParserOutput.

Lemma In_tl {A} (x : A) (l : list A) : In x (List.tl l) -> In x l.
Proof. destruct l; simpl; auto. Qed.

Lemma lineRecord_clean line rec :
  noChar LF line = true -> lineRecord line = Some rec ->
  timestamp rec <> ""
  /\ trim (timestamp rec) = timestamp rec
  /\ noChar DQUOTE (timestamp rec) = true
  /\ noChar COMMA (timestamp rec) = true
  /\ noChar LF (timestamp rec) = true.
Proof.
  intros Hl. unfold lineRecord.
  pose proof (split_pieces_sep COMMA line) as Hc.
  pose proof (split_pieces_other LF COMMA line Hl) as Hn.
  destruct (split COMMA line) as [| f0 [| f1 parts]]; try discriminate.
  apply Forall_cons in Hc as [Hc0 _]. apply Forall_cons in Hn as [Hn0 _].
  destruct (String.eqb_spec (trim (removeAll DQUOTE f0)) "") as [| Hne]; [discriminate |].
  intros [= <-]. cbn [timestamp]. unfold trim at 2 3 4 5.
  repeat split.
  - exact Hne.
  - apply trim_fixed.
  - apply noChar_trimEnd, noChar_trimStart, removeAll_noChar.
  - now apply noChar_trimEnd, noChar_trimStart, noChar_removeAll.
  - now apply noChar_trimEnd, noChar_trimStart, noChar_removeAll.
Qed.

End ParserOutput.

(** X7: every record that [parseCSV] returns, in either variant, has a
    timestamp that is not empty, has no white space at either end, and
    holds no double quote, no comma and no line feed. *)
Theorem parseCSV_records_clean (csvText : string) (records : list RawRecord) (rec : RawRecord) :
  parseCSV csvText = Normal records \/ Part000Csv.parseCSV csvText = Normal records ->
  In rec records ->
  timestamp rec <> ""
  /\ trim (timestamp rec) = timestamp rec
  /\ noChar DQUOTE (timestamp rec) = true
  /\ noChar COMMA (timestamp rec) = true
  /\ noChar LF (timestamp rec) = true.
Proof.
  intros Hp Hin.
  assert (E : parseCSV csvText = Normal records) by (destruct Hp as [E | E]; exact E).
  rewrite parseCSV_total in E. injection E as <-.
  apply list_elem_of_In, list_elem_of_omap in Hin as (line & Hline & Hrec).
  apply list_elem_of_In in Hline. unfold dataLines in Hline. apply In_tl in Hline.
  apply (lineRecord_clean line rec); [| exact Hrec].
  pose proof (split_pieces_sep LF (trim csvText)) as H.
  rewrite Forall_forall in H. apply H. now apply list_elem_of_In.
Qed.

Lemma parseCSV_records_clean_witness :
  timestamp (mkRaw "2024-01-01T00:00:00Z" 5) <> ""
  /\ trim "2024-01-01T00:00:00Z" = "2024-01-01T00:00:00Z"
  /\ noChar DQUOTE "2024-01-01T00:00:00Z" = true.
Proof.
  destruct (parseCSV_records_clean P6_input
              [mkRaw "2024-01-01T00:00:00Z" 5; mkRaw "2024-01-01T01:00:00Z" 0]
              (mkRaw "2024-01-01T00:00:00Z" 5)) as (H1 & H2 & H3 & _).
  - left. vm_compute. reflexivity.
  - now left.
  - auto.
Defined.

(** ** More facts on the range filter *)

Section WindowFacts.

Lemma filteredData_anchor front lastRow d :
  filteredData (front ++ [lastRow])%list d
  = List.filter (fun r => sortTime lastRow - d * 86400000 <=? sortTime r)
                (front ++ [lastRow])%list.
Proof.
  unfold filteredData. rewrite nth_error_last_snoc.
  destruct (length (front ++ [lastRow])%list =? 0)%nat eqn:E.
  - apply Nat.eqb_eq in E. rewrite length_app in E. simpl in E. lia.
  - now rewrite window_ms.
Qed.

Lemma filteredData_snoc front lastRow d :
  0 <= d ->
  filteredData (front ++ [lastRow])%list d
  = (List.filter (fun r => sortTime lastRow - d * 86400000 <=? sortTime r) front
     ++ [lastRow])%list.
Proof.
  intros Hd. rewrite filteredData_anchor.
  rewrite List.filter_app. cbn [List.filter].
  replace (sortTime lastRow - d * 86400000 <=? sortTime lastRow) with true
    by (symmetry; apply Z.leb_le; lia).
  reflexivity.
Qed.

Lemma filter_filter_implied {A} (p q : A -> bool) (l : list A) :
  (forall x, p x = true -> q x = true) ->
  List.filter p (List.filter q l) = List.filter p l.
Proof.
  intros H. induction l as [| x l IH]; [reflexivity |].
  cbn [List.filter]. destruct (q x) eqn:Eq.
  - cbn [List.filter]. now rewrite IH.
  - rewrite IH. destruct (p x) eqn:Ep; [| reflexivity].
    apply H in Ep. congruence.
Qed.

Lemma filter_sorted_suffix (threshold : Z) (l : list HourlyRow) :
  StronglySorted (fun a b => sortTime a <= sortTime b) l ->
  exists n, List.filter (fun r => threshold <=? sortTime r) l = skipn n l.
Proof.
  induction 1 as [| x l Hl IH Hx].
  - exists 0%nat. reflexivity.
  - cbn [List.filter]. destruct (threshold <=? sortTime x) eqn:E.
    + exists 0%nat. cbn [skipn]. f_equal.
      apply Z.leb_le in E.
      clear IH Hl. induction l as [| y l IHl]; [reflexivity |].
      apply Forall_cons in Hx as [Hy Hrest]. cbn [List.filter].
      replace (threshold <=? sortTime y) with true by (symmetry; apply Z.leb_le; lia).
      f_equal. now apply IHl.
    + destruct IH as [n Hn]. exists (S n). exact Hn.
Qed.

End WindowFacts.

(** X8: on a series that is sorted by [sortTime], as the aggregation
    returns it, the filter returns a suffix of the series: it drops rows
    at the front only. *)
Theorem filteredData_suffix (data : list HourlyRow) (d : Z) :
  Sorted (fun a b => sortTime a <= sortTime b) data ->
  exists n, filteredData data d = skipn n data.
Proof.
  intros Hs. apply Sorted_StronglySorted in Hs; [| intros a b c; lia].
  destruct data as [| r data] using rev_ind; [exists 0%nat; reflexivity |].
  rewrite filteredData_anchor.
  now apply filter_sorted_suffix.
Qed.

Lemma filteredData_suffix_witness : exists n, filteredData january 1 = skipn n january.
Proof.
  apply filteredData_suffix. unfold january. cbn [List.map].
  repeat (constructor; [| try constructor; vm_compute; discriminate]). constructor.
Defined.

(** X9: with a window of zero or more days, the last row of a series is
    always kept, and it is the last row of the result: the filtered
    series of a series that is not empty is not empty. *)
Theorem filteredData_keeps_last (front : list HourlyRow) (lastRow : HourlyRow) (d : Z) :
  0 <= d ->
  last (filteredData (front ++ [lastRow])%list d) = Some lastRow
  /\ In lastRow (filteredData (front ++ [lastRow])%list d).
Proof.
  intros Hd. rewrite (filteredData_snoc front lastRow d Hd). split.
  - apply last_snoc.
  - apply in_or_app. right. now left.
Qed.

Lemma filteredData_keeps_last_witness :
  last (filteredData january 0) = Some (emptyRowAt (1704067200000 + 9 * msPerDay)).
Proof.
  apply (proj1 (filteredData_keeps_last (firstn 9 january)
                  (emptyRowAt (1704067200000 + 9 * msPerDay)) 0 ltac:(lia))).
Defined.

(** X10: narrowing the window commutes with filtering: for windows
    [0 <= d1 <= d2], filtering the series already filtered to [d2] days
    gives the series filtered to [d1] days. In particular filtering
    twice to the same window changes nothing. *)
Theorem filteredData_narrow (data : list HourlyRow) (d1 d2 : Z) :
  0 <= d1 -> d1 <= d2 ->
  filteredData (filteredData data d2) d1 = filteredData data d1.
Proof.
  intros H1 H12.
  destruct data as [| lastRow front _] using rev_ind; [reflexivity |].
  rewrite (filteredData_snoc front lastRow d2) by lia.
  rewrite !(filteredData_snoc _ lastRow d1) by lia.
  f_equal. apply filter_filter_implied.
  intros r Hr. apply Z.leb_le in Hr. apply Z.leb_le. lia.
Qed.

Lemma filteredData_narrow_witness :
  filteredData (filteredData january 7) 3 = filteredData january 3.
Proof. apply filteredData_narrow; lia. Defined.

(** ** More facts on the summary statistics *)

Section StatsFacts.
Import SummaryWidget SummarySpec.

Lemma sumZ_abs_nonneg (xs : list Z) : 0 <= sumZ (List.map Z.abs xs).
Proof. induction xs as [| x xs IH]; unfold sumZ in *; cbn [List.map fold_right]; lia. Qed.

(** The sum that [reduce] computes over doubles is the integer sum, as
    long as the absolute values add up to less than 2^53. *)
Lemma fold_add_ofZ (xs : list Z) (acc : Z) :
  Z.abs acc + sumZ (List.map Z.abs xs) < 2 ^ 53 ->
  fold_left Binary64.add (List.map Binary64.ofZ xs) (Binary64.ofZ acc)
  = Binary64.ofZ (acc + sumZ xs).
Proof.
  revert acc. induction xs as [| x xs IH]; intros acc H.
  - cbn [List.map fold_left]. unfold sumZ. cbn [fold_right]. now rewrite Z.add_0_r.
  - pose proof (sumZ_abs_nonneg xs) as Hpos.
    unfold sumZ in H, Hpos |- *. cbn [List.map fold_left fold_right] in *.
    rewrite add_ofZ by lia. fold (sumZ xs).
    rewrite IH by (unfold sumZ; lia). f_equal. lia.
Qed.

Lemma collected_hourly data c :
  hourlyOrders (fold_left collect data c)
  = (hourlyOrders c ++ List.map (fun r => Binary64.ofZ (orders_of r)) data)%list
  /\ hourlyLabels (fold_left collect data c)
     = (hourlyLabels c ++ List.map (fun r => Binary64.ofZ (labels_of r)) data)%list
  /\ hourlyLabor (fold_left collect data c)
     = (hourlyLabor c ++ List.map (fun r => Binary64.ofZ (labor_of r)) data)%list.
Proof.
  revert c. induction data as [| item data IH]; intros c; cbn [fold_left List.map].
  - now rewrite !app_nil_r.
  - destruct (IH (collect c item)) as (Ho & Hl & Hb). rewrite Ho, Hl, Hb.
    unfold collect. cbn [hourlyOrders hourlyLabels hourlyLabor].
    now rewrite <- !app_assoc.
Qed.

(** The average of a column of integer counts. *)
Lemma getStats_avg_counts (f : HourlyRow -> Z) (item : HourlyRow) (data : list HourlyRow) :
  sumZ (List.map (fun r => Z.abs (f r)) (item :: data)) < 2 ^ 53 ->
  avg (getStats (List.map (fun r => Binary64.ofZ (f r)) (item :: data)))
  = Binary64.div (Binary64.ofZ (sumZ (List.map f (item :: data))))
                 (Binary64.ofZ (Z.of_nat (length (item :: data)))).
Proof.
  intros H. unfold getStats. rewrite length_map.
  change (length (item :: data) =? 0)%nat with false. cbn [avg].
  rewrite <- (List.map_map f Binary64.ofZ).
  rewrite fold_add_ofZ by (rewrite List.map_map; cbn [Z.abs]; lia).
  reflexivity.
Qed.

Lemma peak_orders_fold formatDay days acc :
  let p := fst (fold_left (peakStep formatDay) days acc) in
  count (fst acc) <= count p
  /\ (forall day, In day days -> day_orders (snd day) <= count p)
  /\ (p = fst acc
      \/ exists day, In day days /\ count (fst acc) < day_orders (snd day)
                     /\ p = mkPeak (day_orders (snd day)) (formatDay (fst day)) None).
Proof.
  cbn zeta. revert acc. induction days as [| day days IH]; intros acc.
  - cbn. split; [lia |]. split; [tauto | now left].
  - cbn [fold_left]. destruct (IH (peakStep formatDay acc day)) as (Hge & Hall & Hcase).
    assert (Hstep : fst (peakStep formatDay acc day)
                    = if count (fst acc) <? day_orders (snd day)
                      then mkPeak (day_orders (snd day)) (formatDay (fst day)) None
                      else fst acc) by reflexivity.
    rewrite Hstep in Hge, Hcase.
    destruct (count (fst acc) <? day_orders (snd day)) eqn:E;
      [apply Z.ltb_lt in E | apply Z.ltb_ge in E]; cbn [count] in Hge.
    + split; [lia |]. split.
      * intros d [<- | Hd]; [lia | now apply Hall].
      * right. destruct Hcase as [-> | (d & Hd & Hlt & ->)].
        -- exists day. split; [now left | split; [exact E | reflexivity]].
        -- exists d. split; [now right | split; [cbn [count] in Hlt; lia | reflexivity]].
    + split; [lia |]. split.
      * intros d [<- | Hd]; [lia | now apply Hall].
      * destruct Hcase as [-> | (d & Hd & Hlt & ->)]; [now left |].
        right. exists d. split; [now right | split; [lia | reflexivity]].
Qed.

Lemma peak_labels_fold formatDay days acc :
  let p := snd (fold_left (peakStep formatDay) days acc) in
  count (snd acc) <= count p
  /\ (forall day, In day days -> day_labels (snd day) <= count p)
  /\ (p = snd acc
      \/ exists day, In day days /\ count (snd acc) < day_labels (snd day)
                     /\ p = mkPeak (day_labels (snd day)) (formatDay (fst day)) None).
Proof.
  cbn zeta. revert acc. induction days as [| day days IH]; intros acc.
  - cbn. split; [lia |]. split; [tauto | now left].
  - cbn [fold_left]. destruct (IH (peakStep formatDay acc day)) as (Hge & Hall & Hcase).
    assert (Hstep : snd (peakStep formatDay acc day)
                    = if count (snd acc) <? day_labels (snd day)
                      then mkPeak (day_labels (snd day)) (formatDay (fst day)) None
                      else snd acc) by reflexivity.
    rewrite Hstep in Hge, Hcase.
    destruct (count (snd acc) <? day_labels (snd day)) eqn:E;
      [apply Z.ltb_lt in E | apply Z.ltb_ge in E]; cbn [count] in Hge.
    + split; [lia |]. split.
      * intros d [<- | Hd]; [lia | now apply Hall].
      * right. destruct Hcase as [-> | (d & Hd & Hlt & ->)].
        -- exists day. split; [now left | split; [exact E | reflexivity]].
        -- exists d. split; [now right | split; [cbn [count] in Hlt; lia | reflexivity]].
    + split; [lia |]. split.
      * intros d [<- | Hd]; [lia | now apply Hall].
      * destruct Hcase as [-> | (d & Hd & Hlt & ->)]; [now left |].
        right. exists d. split; [now right | split; [lia | reflexivity]].
Qed.

(** The total of a day is the count of its entry, or 0 without entry. *)
Lemma dailyTotal_entry data dateKey :
  let m := dailyMap (fold_left collect data (mkCollected [] [] [] [] [])) in
  (exists counts, In (dateKey, counts) m
                  /\ day_orders counts = dailyTotal orders_of data dateKey
                  /\ day_labels counts = dailyTotal labels_of data dateKey)
  \/ (dailyTotal orders_of data dateKey = 0 /\ dailyTotal labels_of data dateKey = 0).
Proof.
  cbn zeta. destruct (dailyInv_collected data) as [_ Hget]. specialize (Hget dateKey).
  destruct (JsMap.get _ dateKey) as [counts |] eqn:G.
  - left. exists counts. split; [now apply get_In | exact Hget].
  - right. unfold dailyTotal. now rewrite Hget.
Qed.

End StatsFacts.

(** On three times 0.1 the average is above the maximum: the sum
    0.30000000000000004 is rounded, and so is its third. *)
Example getStats_average_above_maximum :
  let tenth := Binary64.div (Binary64.ofZ 1) (Binary64.ofZ 10) in
  let s := SummaryWidget.getStats [tenth; tenth; tenth] in
  SummaryWidget.max s = tenth
  /\ Binary64.ltb (SummaryWidget.max s) (SummaryWidget.avg s) = true.
Proof. vm_compute. split; reflexivity. Qed.

(** X11: for a list that is not empty and holds no NaN, [getStats]
    gives a minimum and a maximum that are elements of the list and
    bound every element. Nothing of the kind holds of the average, a
    rounded quotient of a rounded sum. *)
Theorem getStats_min_max (x : Binary64.double) (xs : list Binary64.double) :
  Forall (fun a => Binary64.isNaN a = false) (x :: xs) ->
  let s := SummaryWidget.getStats (x :: xs) in
  In (SummaryWidget.min s) (x :: xs) /\ In (SummaryWidget.max s) (x :: xs)
  /\ (forall a, In a (x :: xs) ->
        Binary64.leb (SummaryWidget.min s) a = true
        /\ Binary64.leb a (SummaryWidget.max s) = true).
Proof.
  intros Hall. cbn zeta. unfold SummaryWidget.getStats.
  change (length (x :: xs) =? 0)%nat with false.
  cbn [SummaryWidget.min SummaryWidget.max].
  destruct (Math_min_spec x xs Hall) as [Hmin Hlo].
  destruct (Math_max_spec x xs Hall) as [Hmax Hhi].
  split; [exact Hmin |]. split; [exact Hmax |].
  intros a Ha. split; [now apply Hlo | now apply Hhi].
Qed.

Lemma getStats_min_max_witness :
  let s := SummaryWidget.getStats [Binary64.ofZ 3; Binary64.ofZ 1; Binary64.ofZ 2] in
  Binary64.leb (SummaryWidget.min s) (Binary64.ofZ 2) = true
  /\ Binary64.leb (Binary64.ofZ 2) (SummaryWidget.max s) = true.
Proof.
  assert (Hall : Forall (fun a => Binary64.isNaN a = false)
                        [Binary64.ofZ 3; Binary64.ofZ 1; Binary64.ofZ 2])
    by (repeat constructor).
  apply (proj2 (proj2 (getStats_min_max (Binary64.ofZ 3)
                         [Binary64.ofZ 1; Binary64.ofZ 2] Hall)) (Binary64.ofZ 2)).
  right. right. now left.
Defined.

(** X12: the three hourly volume statistics are taken over every row of
    the window, hours without labor included: they are [getStats] of
    the whole column, and the average of orders, labels and labor is the
    total over the window divided, as doubles are, by the number of
    rows. The total is exact as long as the absolute values of the
    column add up to less than 2^53. *)
Theorem volume_average_over_all_rows (formatDay : string -> string)
        (initialDayName : option string) (item : HourlyRow) (data : list HourlyRow) :
  let a := SummaryWidget.aggregates formatDay initialDayName (item :: data) in
  let rows := Binary64.ofZ (Z.of_nat (length (item :: data))) in
  let total f := sumZ (List.map f (item :: data)) in
  let column f := List.map (fun r => Binary64.ofZ (f r)) (item :: data) in
  SummaryWidget.ordersStats a = SummaryWidget.getStats (column SummaryWidget.orders_of)
  /\ SummaryWidget.labelsStats a = SummaryWidget.getStats (column SummaryWidget.labels_of)
  /\ SummaryWidget.laborStats a = SummaryWidget.getStats (column SummaryWidget.labor_of)
  /\ (total (fun r => Z.abs (SummaryWidget.orders_of r)) < 2 ^ 53 ->
   SummaryWidget.avg (SummaryWidget.ordersStats a)
   = Binary64.div (Binary64.ofZ (total SummaryWidget.orders_of)) rows)
  /\ (total (fun r => Z.abs (SummaryWidget.labels_of r)) < 2 ^ 53 ->
      SummaryWidget.avg (SummaryWidget.labelsStats a)
      = Binary64.div (Binary64.ofZ (total SummaryWidget.labels_of)) rows)
  /\ (total (fun r => Z.abs (SummaryWidget.labor_of r)) < 2 ^ 53 ->
      SummaryWidget.avg (SummaryWidget.laborStats a)
      = Binary64.div (Binary64.ofZ (total SummaryWidget.labor_of)) rows).
Proof.
  cbn zeta. rewrite aggregates_nonempty by discriminate. cbn zeta.
  cbn [SummaryWidget.ordersStats SummaryWidget.labelsStats SummaryWidget.laborStats].
  destruct (collected_hourly (item :: data) (SummaryWidget.mkCollected [] [] [] [] []))
    as (Ho & Hl & Hb).
  rewrite Ho, Hl, Hb. cbn [SummaryWidget.hourlyOrders SummaryWidget.hourlyLabels
                           SummaryWidget.hourlyLabor app].
  split; [reflexivity |]. split; [reflexivity |]. split; [reflexivity |].
  split; [| split]; intros H; now apply getStats_avg_counts.
Qed.

Lemma volume_average_over_all_rows_witness :
  SummaryWidget.avg
    (SummaryWidget.labelsStats
       (SummaryWidget.aggregates_App (fun date => date)
          [SummarySpec.idleHour; SummarySpec.busyHour]))
  = Binary64.div (Binary64.ofZ 20) (Binary64.ofZ 2).
Proof.
  destruct (volume_average_over_all_rows (fun date => date) (Some "N/A")
              SummarySpec.idleHour [SummarySpec.busyHour]) as (_ & _ & _ & _ & Hlabels & _).
  apply Hlabels. vm_compute. reflexivity.
Defined.

(** X13: when no row of the window has labor, the efficiency statistic
    is 0 for minimum, maximum and average: the division by zero labor is
    never made. *)
Theorem efficiency_without_labor (formatDay : string -> string)
        (initialDayName : option string) (item : HourlyRow) (data : list HourlyRow) :
  (forall r, In r (item :: data) -> SummaryWidget.labor_of r <= 0) ->
  SummaryWidget.labelsPerLabor
    (SummaryWidget.aggregates formatDay initialDayName (item :: data))
  = SummaryWidget.mkStats None (Binary64.ofZ 0) (Binary64.ofZ 0) (Binary64.ofZ 0).
Proof.
  intros H. rewrite labelsPerLabor_collected.
  replace (List.filter SummarySpec.hasLabor (item :: data)) with (@nil HourlyRow);
    [reflexivity |].
  symmetry. generalize dependent (item :: data). intros l Hl.
  induction l as [| r l IH]; [reflexivity |].
  cbn [List.filter]. unfold SummarySpec.hasLabor at 1.
  replace (0 <? SummaryWidget.labor_of r) with false
    by (symmetry; apply Z.ltb_ge; apply Hl; now left).
  apply IH. intros r' Hr'. apply Hl. now right.
Qed.

Lemma efficiency_without_labor_witness :
  SummaryWidget.labelsPerLabor
    (SummaryWidget.aggregates_App (fun date => date) [SummarySpec.idleHour])
  = SummaryWidget.mkStats None (Binary64.ofZ 0) (Binary64.ofZ 0) (Binary64.ofZ 0).
Proof.
  apply efficiency_without_labor.
  intros r [<- | []]. vm_compute. discriminate.
Defined.

(** X14: for a series that is not empty, the peak count of orders is at
    least 0 and at least the total of every day; it is 0 with the date
    ['N/A'], or it is positive, equal to the total of some day, and the
    date is the formatted key of that day. The same holds for labels. *)
Theorem peak_day_is_maximum (formatDay : string -> string) (initialDayName : option string)
        (data : list HourlyRow) :
  data <> [] ->
  let a := SummaryWidget.aggregates formatDay initialDayName data in
  (forall dateKey,
      SummarySpec.dailyTotal SummaryWidget.orders_of data dateKey
      <= SummaryWidget.count (SummaryWidget.maxDailyOrders a))
  /\ (SummaryWidget.count (SummaryWidget.maxDailyOrders a) = 0
       /\ SummaryWidget.date (SummaryWidget.maxDailyOrders a) = "N/A"
      \/ exists dateKey,
           0 < SummarySpec.dailyTotal SummaryWidget.orders_of data dateKey
           /\ SummaryWidget.count (SummaryWidget.maxDailyOrders a)
              = SummarySpec.dailyTotal SummaryWidget.orders_of data dateKey
           /\ SummaryWidget.date (SummaryWidget.maxDailyOrders a) = formatDay dateKey)
  /\ (forall dateKey,
        SummarySpec.dailyTotal SummaryWidget.labels_of data dateKey
        <= SummaryWidget.count (SummaryWidget.maxDailyLabels a))
  /\ (SummaryWidget.count (SummaryWidget.maxDailyLabels a) = 0
       /\ SummaryWidget.date (SummaryWidget.maxDailyLabels a) = "N/A"
      \/ exists dateKey,
           0 < SummarySpec.dailyTotal SummaryWidget.labels_of data dateKey
           /\ SummaryWidget.count (SummaryWidget.maxDailyLabels a)
              = SummarySpec.dailyTotal SummaryWidget.labels_of data dateKey
           /\ SummaryWidget.date (SummaryWidget.maxDailyLabels a) = formatDay dateKey).
Proof.
  intros Hne. cbn zeta. rewrite (aggregates_nonempty formatDay _ data Hne). cbn zeta.
  cbn [SummaryWidget.maxDailyOrders SummaryWidget.maxDailyLabels].
  set (m := SummaryWidget.dailyMap
              (fold_left SummaryWidget.collect data (SummaryWidget.mkCollected [] [] [] [] []))).
  set (acc0 := (SummaryWidget.mkPeak 0 "N/A" initialDayName,
                SummaryWidget.mkPeak 0 "N/A" initialDayName)).
  destruct (peak_orders_fold formatDay m acc0) as (Hge & Hall & Hcase).
  destruct (peak_labels_fold formatDay m acc0) as (Hge' & Hall' & Hcase').
  cbn [fst snd acc0 SummaryWidget.count] in Hge, Hge', Hcase, Hcase'.
  pose proof (dailyMap_totals data) as Ht. fold m in Ht. rewrite Forall_forall in Ht.
  split; [| split; [| split]].
  - intros dateKey. destruct (dailyTotal_entry data dateKey) as [(c & Hin & Ho & _) | [H0 _]].
    + rewrite <- Ho. apply (Hall (dateKey, c) Hin).
    + rewrite H0. exact Hge.
  - destruct Hcase as [-> | (day & Hin & Hlt & ->)]; [left; split; reflexivity |].
    right. exists (fst day).
    destruct (Ht day (proj2 (list_elem_of_In _ _) Hin)) as [Ho _].
    cbn [SummaryWidget.count SummaryWidget.date]. rewrite <- Ho. repeat split. exact Hlt.
  - intros dateKey. destruct (dailyTotal_entry data dateKey) as [(c & Hin & _ & Hl) | [_ H0]].
    + rewrite <- Hl. apply (Hall' (dateKey, c) Hin).
    + rewrite H0. exact Hge'.
  - destruct Hcase' as [-> | (day & Hin & Hlt & ->)]; [left; split; reflexivity |].
    right. exists (fst day).
    destruct (Ht day (proj2 (list_elem_of_In _ _) Hin)) as [_ Hl].
    cbn [SummaryWidget.count SummaryWidget.date]. rewrite <- Hl. repeat split. exact Hlt.
Qed.

Lemma peak_day_is_maximum_witness :
  SummarySpec.dailyTotal SummaryWidget.orders_of SummarySpec.quietDays "2024-01-01"
  <= SummaryWidget.count
       (SummaryWidget.maxDailyOrders
          (SummaryWidget.aggregates_App (fun date => date) SummarySpec.quietDays)).
Proof.
  assert (Hne : SummarySpec.quietDays <> []) by discriminate.
  apply (proj1 (peak_day_is_maximum (fun date => date) (Some "N/A")
                  SummarySpec.quietDays Hne)).
Defined.

(** ** The truncation to the hour in a zone of constant offset *)

Section TruncationFacts.

Variable LocalTZA : Z -> bool -> Z.
Variable offset : Z.
Hypothesis constant_offset : forall t isUTC, LocalTZA t isUTC = offset.

Lemma setMinutes0_constant (t : Z) :
  setMinutes0 LocalTZA t = (t + offset) / msPerHour * msPerHour - offset.
Proof.
  unfold setMinutes0, LocalTime, UTC, MakeDate, MakeTime, Day, HourFromTime.
  rewrite !constant_offset.
  unfold msPerDay, msPerHour, msPerMinute, msPerSecond.
  set (u := t + offset).
  assert (H : u / 86400000 = u / 3600000 / 24) by (rewrite Z.div_div by lia; reflexivity).
  rewrite H. pose proof (Z.div_mod (u / 3600000) 24 ltac:(lia)). lia.
Qed.

Lemma setMinutes0_range (t : Z) :
  setMinutes0 LocalTZA t <= t < setMinutes0 LocalTZA t + msPerHour.
Proof.
  rewrite setMinutes0_constant. unfold msPerHour.
  pose proof (Z.div_mod (t + offset) 3600000 ltac:(lia)).
  pose proof (Z.mod_pos_bound (t + offset) 3600000 ltac:(lia)). lia.
Qed.

Lemma setMinutes0_same_hour (t1 t2 : Z) :
  setMinutes0 LocalTZA t1 = setMinutes0 LocalTZA t2
  <-> (t1 + offset) / msPerHour = (t2 + offset) / msPerHour.
Proof. rewrite !setMinutes0_constant. unfold msPerHour. lia. Qed.

End TruncationFacts.

(** X15: in a time zone of constant offset, the truncation of
    [getHourlyKey] moves a time back by less than one hour, is
    idempotent and monotone, and two times get the same [sortTime]
    exactly when they lie in the same clock hour of local time; two
    timestamps of the same clock hour get the same label and the same
    [sortTime]. *)
Theorem hour_truncation (Date_parse : string -> option Z) (LocalTZA : Z -> bool -> Z)
        (offset : Z) :
  (forall t isUTC, LocalTZA t isUTC = offset) ->
  (forall t, setMinutes0 LocalTZA t <= t < setMinutes0 LocalTZA t + msPerHour)
  /\ (forall t, setMinutes0 LocalTZA (setMinutes0 LocalTZA t) = setMinutes0 LocalTZA t)
  /\ (forall t1 t2, t1 <= t2 -> setMinutes0 LocalTZA t1 <= setMinutes0 LocalTZA t2)
  /\ (forall t1 t2,
        setMinutes0 LocalTZA t1 = setMinutes0 LocalTZA t2
        <-> (t1 + offset) / msPerHour = (t2 + offset) / msPerHour)
  /\ (forall s1 s2 t1 t2,
        Date_parse s1 = Some t1 -> Date_parse s2 = Some t2 ->
        (t1 + offset) / msPerHour = (t2 + offset) / msPerHour ->
        getHourlyKey Date_parse LocalTZA s1 = getHourlyKey Date_parse LocalTZA s2
        /\ getHourlyKey2 Date_parse LocalTZA s1 = getHourlyKey2 Date_parse LocalTZA s2).
Proof.
  intros Hoff.
  split; [apply (setMinutes0_range LocalTZA offset Hoff) |].
  split.
  { intros t. rewrite !(setMinutes0_constant LocalTZA offset Hoff). unfold msPerHour.
    replace ((t + offset) / 3600000 * 3600000 - offset + offset)
      with ((t + offset) / 3600000 * 3600000) by lia.
    rewrite Z.div_mul by lia. reflexivity. }
  split.
  { intros t1 t2 H. rewrite !(setMinutes0_constant LocalTZA offset Hoff). unfold msPerHour.
    assert ((t1 + offset) / 3600000 <= (t2 + offset) / 3600000)
      by (apply Z.div_le_mono; lia). lia. }
  split; [apply (setMinutes0_same_hour LocalTZA offset Hoff) |].
  intros s1 s2 t1 t2 H1 H2 Hsame.
  apply (setMinutes0_same_hour LocalTZA offset Hoff) in Hsame.
  unfold getHourlyKey, getHourlyKey2. rewrite H1, H2, Hsame. split; reflexivity.
Qed.

Lemma hour_truncation_witness :
  setMinutes0 utcTZA 1717236900000 = setMinutes0 utcTZA 1717238999999
  /\ getHourlyKey2 parseISO utcTZA "2024-06-01T10:15:00Z"
     = getHourlyKey2 parseISO utcTZA "2024-06-01T10:49:59Z".
Proof.
  destruct (hour_truncation parseISO utcTZA 0 (fun _ _ => eq_refl))
    as (_ & _ & _ & Hsame & Hkey).
  split.
  - apply Hsame. reflexivity.
  - apply (Hkey "2024-06-01T10:15:00Z" "2024-06-01T10:49:59Z" 1717236900000 1717238999000);
      reflexivity.
Defined.

(** ** Facts on the component [App] *)

Section AppFacts.

Lemma messageOf_nonempty (err : JsError) : App.messageOf err <> "".
Proof.
  unfold App.messageOf. destruct (String.eqb_spec (message err) ""); [discriminate | assumption].
Qed.

End AppFacts.

(** X16: when every fetch succeeded, whatever the payloads hold, the
    run ends without error: the data is the aggregated series, the
    loading flag is down, and what is rendered is the dashboard over the
    filtered series. Malformed CSV never leads to the error screen. Both
    variants behave so. *)
Theorem processAllFiles_success (Date_parse : string -> option Z) (LocalTZA : Z -> bool -> Z)
        (csvText : SourceFile -> string) (s : App.State) :
  exists series,
    finalChartData Date_parse LocalTZA (resultsOf csvText) = Normal series
    /\ App.processAllFiles Date_parse LocalTZA (Normal csvText) s
       = App.mkState series false None (App.selectedRangeDays s)
    /\ App.render (App.processAllFiles Date_parse LocalTZA (Normal csvText) s)
       = App.Dashboard (App.selectedRangeDays s)
                       (filteredData series (App.selectedRangeDays s))
    /\ App.processAllFiles2 Date_parse LocalTZA (Normal csvText) s
       = App.mkState series false None (App.selectedRangeDays s)
    /\ App.render2 (App.processAllFiles2 Date_parse LocalTZA (Normal csvText) s)
       = App.mkView2 None (App.Content (App.selectedRangeDays s)
                                       (filteredData series (App.selectedRangeDays s))).
Proof.
  destruct (finalChartData_series Date_parse LocalTZA csvText) as [H1 H2].
  eexists. split; [exact H1 |].
  unfold App.processAllFiles, App.processAllFiles2.
  cbn [mbind completion_bind]. rewrite H1, H2.
  repeat split.
Qed.

(** X17: when a fetch was rejected, the run keeps the data it had, puts
    the loading flag down and sets an error message that is never
    empty. App.jsx then renders the error screen alone, also when it
    holds data; the second variant renders the error as a banner above
    the dashboard over the data it had. *)
Theorem processAllFiles_failure (Date_parse : string -> option Z) (LocalTZA : Z -> bool -> Z)
        (err : JsError) (s : App.State) :
  App.processAllFiles Date_parse LocalTZA (Throw err) s
  = App.mkState (App.data s) false (Some (App.messageOf err)) (App.selectedRangeDays s)
  /\ App.messageOf err <> ""
  /\ (message err <> "" -> App.messageOf err = message err)
  /\ App.render (App.processAllFiles Date_parse LocalTZA (Throw err) s)
     = App.ErrorScreen (App.messageOf err)
  /\ App.render2 (App.processAllFiles2 Date_parse LocalTZA (Throw err) s)
     = App.mkView2 (Some (App.messageOf err))
         (App.Content (App.selectedRangeDays s)
                      (filteredData (App.data s) (App.selectedRangeDays s))).
Proof.
  pose proof (messageOf_nonempty err) as Hne.
  split; [reflexivity |]. split; [exact Hne |]. split.
  { intros Hm. unfold App.messageOf. destruct (String.eqb_spec (message err) ""); congruence. }
  unfold App.render, App.render2, App.processAllFiles, App.processAllFiles2.
  cbn [mbind completion_bind App.loading App.error App.data App.selectedRangeDays andb].
  destruct (String.eqb_spec (App.messageOf err) ""); [contradiction |].
  split; reflexivity.
Qed.

Lemma processAllFiles_failure_witness :
  App.messageOf (mkError "Failed to fetch Orders after 3 attempts.")
  = "Failed to fetch Orders after 3 attempts.".
Proof.
  apply (proj1 (proj2 (proj2 (processAllFiles_failure parseISO utcTZA
                                (mkError "Failed to fetch Orders after 3 attempts.")
                                App.initial)))).
  discriminate.
Defined.

(** ** More facts on the aggregation *)

Section TotalsFacts.

Variable Date_parse : string -> option Z.
Variable LocalTZA : Z -> bool -> Z.

Local Abbreviation labelOf'' := (labelOf Date_parse LocalTZA).
Local Abbreviation contribution'' := (contribution Date_parse LocalTZA).

Lemma labelOf_parse item :
  is_Some (labelOf'' item) <-> is_Some (Date_parse (timestamp item)).
Proof.
  unfold labelOf, bucket, getHourlyKey2.
  destruct (Date_parse (timestamp item)); cbn; split; intros [x Hx]; eauto; discriminate.
Qed.

Lemma or0_Num z : or0 (Some (Num z)) = z.
Proof. cbn. destruct (Z.eqb_spec z 0); congruence. Qed.

Lemma sumZ_zero {A} (l : list A) : sumZ (List.map (fun _ => 0) l) = 0.
Proof. unfold sumZ. induction l; simpl; lia. Qed.

Lemma sumZ_add {A} (f g : A -> Z) (l : list A) :
  sumZ (List.map (fun x => f x + g x) l) = sumZ (List.map f l) + sumZ (List.map g l).
Proof. unfold sumZ. induction l; simpl; lia. Qed.

Lemma sumZ_indicator_absent (l0 : string) (v : Z) (labels : list string) :
  ~ In l0 labels ->
  sumZ (List.map (fun l => if String.eqb l0 l then v else 0) labels) = 0.
Proof.
  induction labels as [| l labels IH]; intros Hnotin; [reflexivity |].
  unfold sumZ in *. cbn [List.map fold_right].
  destruct (String.eqb_spec l0 l) as [-> | Hne]; [exfalso; apply Hnotin; now left |].
  rewrite IH; [lia |]. intros Hin. apply Hnotin. now right.
Qed.

(** Over labels without repetition, one label is hit once. *)
Lemma sumZ_indicator (l0 : string) (v : Z) (labels : list string) :
  NoDup labels -> In l0 labels ->
  sumZ (List.map (fun l => if String.eqb l0 l then v else 0) labels) = v.
Proof.
  induction 1 as [| l labels Hnotin Hnd IH]; intros Hin; [destruct Hin |].
  change (sumZ (List.map (fun l => if String.eqb l0 l then v else 0) (l :: labels)))
    with ((if String.eqb l0 l then v else 0)
          + sumZ (List.map (fun l => if String.eqb l0 l then v else 0) labels)).
  destruct (String.eqb_spec l0 l) as [-> | Hne].
  - rewrite sumZ_indicator_absent; [lia |].
    intros Hl. apply Hnotin. now apply list_elem_of_In.
  - destruct Hin as [-> | Hin]; [congruence |]. rewrite IH by exact Hin. lia.
Qed.

(** Over a list of labels without repetition that holds the label of
    every record, the contributions add up to the total of the source. *)
Lemma contributions_total k recs labels :
  NoDup labels ->
  (forall rec l, In rec recs -> labelOf'' (snd rec) = Some l -> In l labels) ->
  sumZ (List.map (fun l => contribution'' k l recs) labels)
  = sourceTotal Date_parse k recs.
Proof.
  intros Hnd. induction recs as [| [k' item] recs IH]; intros Hcover.
  - unfold sourceTotal, contribution. cbn. apply sumZ_zero.
  - assert (Hsplit : forall l, contribution'' k l ((k', item) :: recs)
                       = (if inBucket Date_parse LocalTZA k l (k', item) then value item else 0)
                         + contribution'' k l recs).
    { intros l. unfold contribution. cbn [List.filter].
      destruct (inBucket Date_parse LocalTZA k l (k', item)); unfold sumZ; cbn; lia. }
    rewrite (map_ext _ _ Hsplit), sumZ_add, IH
      by (intros rec l Hin; apply Hcover; now right).
    unfold sourceTotal. cbn [List.filter fst snd].
    unfold inBucket, underLabel. cbn [fst snd].
    destruct (String.eqb k' k); cbn [andb].
    + destruct (labelOf'' item) as [l0 |] eqn:El.
      * rewrite bool_decide_eq_true_2
          by (apply labelOf_parse; rewrite El; eauto).
        rewrite (sumZ_indicator l0 (value item) labels Hnd)
          by (apply (Hcover (k', item) l0); [now left | exact El]).
        unfold sumZ. cbn. lia.
      * rewrite bool_decide_eq_false_2
          by (intros Hs; apply labelOf_parse in Hs; rewrite El in Hs; destruct Hs; discriminate).
        rewrite sumZ_zero. lia.
    + rewrite sumZ_zero. lia.
Qed.

End TotalsFacts.

(** X18: the aggregation loses no value and counts none twice: for every
    configured source, the total of its column over the series is the
    total of the values of its records whose timestamp parses; the
    records whose timestamp does not parse add nothing. *)
Theorem aggregation_conserves_totals (Date_parse : string -> option Z)
        (LocalTZA : Z -> bool -> Z) (csvText : SourceFile -> string) :
  exists series,
    finalChartData Date_parse LocalTZA (resultsOf csvText) = Normal series
    /\ Part000.finalChartData Date_parse LocalTZA (resultsOf csvText) = Normal series
    /\ forall file, In file ALL_CSV_FILES ->
         columnTotal (key file) series
         = sourceTotal Date_parse (key file) (records (resultsOf csvText)).
Proof.
  destruct (finalChartData_series Date_parse LocalTZA csvText) as [H1 H2].
  eexists. split; [exact H1 |]. split; [exact H2 |].
  intros file Hfile.
  destruct (series_oneRowPerLabel Date_parse LocalTZA csvText) as [Hnd Hlabels].
  rewrite <- (contributions_total Date_parse LocalTZA (key file) _ _ Hnd)
    by (intros rec l Hin Hl; apply Hlabels; eauto).
  unfold columnTotal. rewrite List.map_map. f_equal. apply map_ext_in.
  intros row Hrow.
  destruct (series_row Date_parse LocalTZA csvText row Hrow) as (_ & _ & _ & Hf).
  rewrite Hf by (unfold sourceKeys; now apply in_map). apply or0_Num.
Qed.

Lemma aggregation_conserves_totals_witness :
  exists series,
    finalChartData parseISO utcTZA (resultsOf sameHour) = Normal series
    /\ columnTotal "orders" series = 13.
Proof.
  destruct (aggregation_conserves_totals parseISO utcTZA sameHour) as (series & H1 & _ & H).
  exists series. split; [exact H1 |].
  change (columnTotal "orders" series) with (columnTotal (key ordersFile) series).
  rewrite (H ordersFile) by (vm_compute; tauto).
  vm_compute. reflexivity.
Defined.

(** X19: the series is empty exactly when no record of any source has a
    timestamp that parses; such records are dropped without error, and
    every row of the series comes from a record whose timestamp parses
    to an instant of the row's hour. *)
Theorem series_empty_iff_nothing_parses (Date_parse : string -> option Z)
        (LocalTZA : Z -> bool -> Z) (csvText : SourceFile -> string) :
  exists series,
    finalChartData Date_parse LocalTZA (resultsOf csvText) = Normal series
    /\ Part000.finalChartData Date_parse LocalTZA (resultsOf csvText) = Normal series
    /\ (series = [] <->
        forall rec, In rec (records (resultsOf csvText)) ->
                    Date_parse (timestamp (snd rec)) = None)
    /\ (forall row, In row series ->
          exists rec t, In rec (records (resultsOf csvText))
                        /\ Date_parse (timestamp (snd rec)) = Some t
                        /\ sortTime row = setMinutes0 LocalTZA t
                        /\ hour row = hourLabel LocalTZA (sortTime row)).
Proof.
  destruct (finalChartData_series Date_parse LocalTZA csvText) as [H1 H2].
  eexists. split; [exact H1 |]. split; [exact H2 |].
  destruct (series_oneRowPerLabel Date_parse LocalTZA csvText) as [_ Hlabels].
  split; [split |].
  - intros Hempty rec Hin.
    destruct (Date_parse (timestamp (snd rec))) as [t |] eqn:Ep; [| reflexivity].
    exfalso.
    assert (Hl : is_Some (labelOf Date_parse LocalTZA (snd rec)))
      by (apply labelOf_parse; rewrite Ep; eauto).
    destruct Hl as [l Hl].
    assert (Hin' : In l (List.map hour
              (Array_sort (fun a b => sortTime a - sortTime b)
                 (JsMap.values (fold_left (step Date_parse LocalTZA)
                                          (records (resultsOf csvText)) [])))))
      by (apply Hlabels; eauto).
    rewrite Hempty in Hin'. destruct Hin'.
  - intros Hnone.
    destruct (Array_sort _ _) as [| row series] eqn:Es; [reflexivity |].
    exfalso.
    assert (Hin : In (hour row) (List.map hour (row :: series))) by now left.
    apply Hlabels in Hin as (rec & Hrec & Hl).
    assert (Hs : is_Some (Date_parse (timestamp (snd rec))))
      by (apply (proj1 (labelOf_parse Date_parse LocalTZA (snd rec))); rewrite Hl; eauto).
    rewrite (Hnone rec Hrec) in Hs. destruct Hs; discriminate.
  - intros row Hrow.
    destruct (series_row Date_parse LocalTZA csvText row Hrow)
      as (_ & Hlabel & (rec & Hrec & Hb) & _).
    unfold bucket, getHourlyKey2 in Hb.
    destruct (Date_parse (timestamp (snd rec))) as [t |] eqn:Ep; [| discriminate].
    injection Hb as _ Ht.
    exists rec, t. repeat split; [exact Hrec | exact Ep | now symmetry | now symmetry].
Qed.

Lemma series_empty_iff_nothing_parses_witness :
  finalChartData parseISO utcTZA (resultsOf (feed ["yesterday,7"; "12:30,4"] ["n/a,3"]))
  = Normal [].
Proof.
  destruct (series_empty_iff_nothing_parses parseISO utcTZA
              (feed ["yesterday,7"; "12:30,4"] ["n/a,3"]))
    as (series & H1 & _ & [_ Hempty] & _).
  rewrite H1. f_equal. apply Hempty.
  intros rec Hin. vm_compute in Hin.
  destruct Hin as [<- | [<- | [<- | []]]]; reflexivity.
Defined.

(** ** The order of the records *)

Section OrderFacts.

Variable Date_parse : string -> option Z.
Variable LocalTZA : Z -> bool -> Z.

Local Abbreviation step_ := (step Date_parse LocalTZA).
Local Abbreviation aggInv_ := (aggInv Date_parse LocalTZA).

Lemma zeroFields_outside k : ~ In k sourceKeys -> zeroFields !! k = None.
Proof.
  intros Hk. unfold zeroFields. cbn [fold_left List.map ALL_CSV_FILES key fst snd].
  rewrite !lookup_insert_ne; [apply lookup_empty | | | |];
    intros <-; apply Hk; unfold sourceKeys; cbn; tauto.
Qed.

Lemma fieldsInv_step m rec :
  In (fst rec) sourceKeys -> fieldsInv m -> fieldsInv (step_ m rec).
Proof.
  destruct rec as [k0 item]. cbn [fst]. intros Hk0 Hinv.
  unfold step. cbn [fst snd]. rewrite addItem_upsert.
  destruct (bucket Date_parse LocalTZA item) as [[label0 t0] |]; [| exact Hinv].
  intros label row Hget k Hk.
  destruct (decide (label0 = label)) as [<- | Hne].
  - rewrite upsert_get_eq in Hget. injection Hget as <-.
    rewrite addToField_lookup.
    destruct (decide (k0 = k)) as [<- | _]; [contradiction |].
    destruct (JsMap.get m label0) as [row0 |] eqn:G; cbn [default from_option]; unfold id.
    + now apply (Hinv label0 row0 G).
    + cbn [fields]. now apply zeroFields_outside.
  - rewrite upsert_get_ne in Hget by exact Hne. now apply (Hinv label row Hget).
Qed.

Lemma fieldsInv_fold recs :
  Forall (fun rec => In (fst rec) sourceKeys) recs -> fieldsInv (fold_left step_ recs []).
Proof.
  induction recs as [| rec recs IH] using rev_ind; intros H.
  - intros label row Hget. discriminate Hget.
  - apply Forall_app in H as [Hrecs Hrec]. apply Forall_cons in Hrec as [Hrec _].
    rewrite fold_left_app. cbn [fold_left]. apply fieldsInv_step; [exact Hrec | now apply IH].
Qed.

Lemma values_hours recs m : aggInv_ recs m -> List.map hour (JsMap.values m) = JsMap.keys m.
Proof.
  intros [Hnd Hinv].
  assert (H : forall label row, In (label, row) m -> hour row = label).
  { intros label row Hin. apply (In_get _ _ _ Hnd) in Hin.
    specialize (Hinv label). rewrite Hin in Hinv. tauto. }
  clear Hnd Hinv. induction m as [| [label row] m IH]; [reflexivity |].
  cbn. rewrite (H label row) by now left. f_equal. apply IH.
  intros l r Hin. apply H. now right.
Qed.

Lemma values_In recs m row :
  aggInv_ recs m -> (In row (JsMap.values m) <-> JsMap.get m (hour row) = Some row).
Proof.
  intros Hinv. destruct Hinv as [Hnd Hget]. split.
  - intros Hin. unfold JsMap.values in Hin. apply in_map_iff in Hin as ([label r] & <- & Hin).
    apply (In_get _ _ _ Hnd) in Hin. cbn [snd].
    specialize (Hget label). rewrite Hin in Hget. destruct Hget as [-> _]. exact Hin.
  - intros H. apply get_In in H. unfold JsMap.values.
    change row with (snd (hour row, row)). now apply in_map.
Qed.

Lemma values_NoDup recs m : aggInv_ recs m -> NoDup (JsMap.values m).
Proof.
  intros Hinv. apply (NoDup_fmap_1 hour).
  change (hour <$> JsMap.values m) with (List.map hour (JsMap.values m)).
  rewrite (values_hours recs m Hinv). apply Hinv.
Qed.

Lemma values_sortTime_NoDup recs m : aggInv_ recs m -> NoDup (List.map sortTime (JsMap.values m)).
Proof.
  intros Hinv. apply (NoDup_fmap_1 (hourLabel LocalTZA)).
  replace (hourLabel LocalTZA <$> List.map sortTime (JsMap.values m))
    with (List.map hour (JsMap.values m)).
  - rewrite (values_hours recs m Hinv). apply Hinv.
  - change (hourLabel LocalTZA <$> List.map sortTime (JsMap.values m))
      with (List.map (hourLabel LocalTZA) (List.map sortTime (JsMap.values m))).
    rewrite List.map_map. apply map_ext_in. intros row Hin.
    apply (values_In recs m row Hinv) in Hin.
    destruct Hinv as [_ Hget]. specialize (Hget (hour row)). rewrite Hin in Hget.
    symmetry. tauto.
Qed.

Lemma contribution_perm k label recs1 recs2 :
  Permutation recs1 recs2 ->
  contribution Date_parse LocalTZA k label recs1 = contribution Date_parse LocalTZA k label recs2.
Proof.
  intros Hp. unfold contribution. apply sumZ_perm, Permutation_map.
  induction Hp as [| x l l' Hp IH | x y l | l l' l'' Hp1 IH1 Hp2 IH2]; cbn [List.filter].
  - reflexivity.
  - destruct (inBucket _ _ _ _ x); [now constructor | exact IH].
  - destruct (inBucket _ _ _ _ x), (inBucket _ _ _ _ y);
      try reflexivity. apply perm_swap.
  - now transitivity (List.filter (inBucket Date_parse LocalTZA k label) l').
Qed.

(** With the same records in another order and no label shared by two
    hours, the row of a label is the same. *)
Lemma row_order_independent recs1 recs2 m1 m2 label row1 row2 :
  Forall (fun rec => In (fst rec) sourceKeys) recs1 ->
  Permutation recs1 recs2 ->
  collisionFree Date_parse LocalTZA recs1 ->
  aggInv_ recs1 m1 -> fieldsInv m1 ->
  aggInv_ recs2 m2 -> fieldsInv m2 ->
  JsMap.get m1 label = Some row1 -> JsMap.get m2 label = Some row2 ->
  row1 = row2.
Proof.
  intros Hkeys Hperm Hfree [_ Hinv1] Hdom1 [_ Hinv2] Hdom2 G1 G2.
  pose proof (Hdom1 label row1 G1) as Hout1. pose proof (Hdom2 label row2 G2) as Hout2.
  specialize (Hinv1 label). specialize (Hinv2 label). rewrite G1 in Hinv1. rewrite G2 in Hinv2.
  destruct Hinv1 as (Hh1 & _ & (r1 & Hin1 & Hb1) & Hf1).
  destruct Hinv2 as (Hh2 & _ & (r2 & Hin2 & Hb2) & Hf2).
  apply (Permutation_in _ (Permutation_sym Hperm)) in Hin2.
  assert (Ht : sortTime row1 = sortTime row2).
  { assert (E : hourOf Date_parse LocalTZA (snd r1) = hourOf Date_parse LocalTZA (snd r2)).
    { apply Hfree; [exact Hin1 | exact Hin2 |]. unfold labelOf. now rewrite Hb1, Hb2. }
    unfold hourOf in E. rewrite Hb1, Hb2 in E. cbn in E. congruence. }
  assert (Hfields : fields row1 = fields row2).
  { apply map_eq. intros k.
    destruct (decide (In k sourceKeys)) as [Hk | Hk].
    - rewrite (Hf1 k Hk), (Hf2 k Hk). do 2 f_equal. now apply contribution_perm.
    - now rewrite (Hout1 k Hk), (Hout2 k Hk). }
  destruct row1, row2. cbn in *. congruence.
Qed.

Lemma strict_of_sorted_NoDup (l : list HourlyRow) :
  StronglySorted (fun a b => sortTime a <= sortTime b) l ->
  NoDup (List.map sortTime l) ->
  StronglySorted (fun a b => sortTime a < sortTime b) l.
Proof.
  induction 1 as [| x l Hl IH Hx]; intros Hnd; [constructor |].
  cbn in Hnd. apply NoDup_cons in Hnd as [Hnotin Hnd].
  constructor; [now apply IH |].
  apply Forall_forall. intros y Hy.
  rewrite Forall_forall in Hx. specialize (Hx y Hy).
  assert (sortTime x <> sortTime y).
  { intros E. apply Hnotin. rewrite E. apply list_elem_of_In, in_map. now apply list_elem_of_In. }
  lia.
Qed.

(** Two strictly sorted lists with the same elements are equal. *)
Lemma strict_sorted_unique (l1 l2 : list HourlyRow) :
  StronglySorted (fun a b => sortTime a < sortTime b) l1 ->
  StronglySorted (fun a b => sortTime a < sortTime b) l2 ->
  Permutation l1 l2 -> l1 = l2.
Proof.
  intros H1. revert l2. induction H1 as [| x l1 Hl1 IH Hx]; intros l2 H2 Hp.
  - now apply Permutation_nil in Hp.
  - destruct H2 as [| y l2 Hl2 Hy].
    + apply Permutation_sym, Permutation_nil in Hp. discriminate.
    + assert (x = y).
      { assert (Hxin : In x (y :: l2)) by (apply (Permutation_in _ Hp); now left).
        assert (Hyin : In y (x :: l1))
          by (apply (Permutation_in _ (Permutation_sym Hp)); now left).
        destruct Hxin as [-> | Hxin]; [reflexivity |].
        destruct Hyin as [-> | Hyin]; [reflexivity |].
        rewrite Forall_forall in Hx, Hy.
        specialize (Hx y (proj2 (list_elem_of_In _ _) Hyin)).
        specialize (Hy x (proj2 (list_elem_of_In _ _) Hxin)). lia. }
      subst y. f_equal. apply IH; [exact Hl2 |]. now apply Permutation_cons_inv in Hp.
Qed.

Lemma Array_sort_perm_unique (l1 l2 : list HourlyRow) :
  Permutation l1 l2 -> NoDup (List.map sortTime l1) ->
  Array_sort (fun a b => sortTime a - sortTime b) l1
  = Array_sort (fun a b => sortTime a - sortTime b) l2.
Proof.
  intros Hp Hnd.
  pose proof (Array_sort_perm sortTime l1) as P1.
  pose proof (Array_sort_perm sortTime l2) as P2.
  apply strict_sorted_unique.
  - apply strict_of_sorted_NoDup; [apply (Array_sort_sorted sortTime) |].
    now rewrite (Permutation_map sortTime P1).
  - apply strict_of_sorted_NoDup; [apply (Array_sort_sorted sortTime) |].
    rewrite (Permutation_map sortTime P2). now rewrite <- (Permutation_map sortTime Hp).
  - rewrite P1, P2. exact Hp.
Qed.

Lemma series_order_independent recs1 recs2 :
  Forall (fun rec => In (fst rec) sourceKeys) recs1 ->
  Permutation recs1 recs2 ->
  collisionFree Date_parse LocalTZA recs1 ->
  Array_sort (fun a b => sortTime a - sortTime b) (JsMap.values (fold_left step_ recs1 []))
  = Array_sort (fun a b => sortTime a - sortTime b) (JsMap.values (fold_left step_ recs2 [])).
Proof.
  intros Hkeys Hperm Hfree.
  assert (Hkeys2 : Forall (fun rec => In (fst rec) sourceKeys) recs2)
    by (rewrite <- Hperm; exact Hkeys).
  pose proof (aggInv_fold Date_parse LocalTZA recs1 Hkeys) as I1.
  pose proof (aggInv_fold Date_parse LocalTZA recs2 Hkeys2) as I2.
  pose proof (fieldsInv_fold recs1 Hkeys) as D1.
  pose proof (fieldsInv_fold recs2 Hkeys2) as D2.
  set (m1 := fold_left step_ recs1 []) in *. set (m2 := fold_left step_ recs2 []) in *.
  assert (Hsame : forall label, JsMap.get m1 label = JsMap.get m2 label).
  { intros label.
    destruct (JsMap.get m1 label) as [row1 |] eqn:G1, (JsMap.get m2 label) as [row2 |] eqn:G2.
    - f_equal. exact (row_order_independent recs1 recs2 m1 m2 label row1 row2
                        Hkeys Hperm Hfree I1 D1 I2 D2 G1 G2).
    - exfalso. destruct I1 as [_ H1], I2 as [_ H2].
      specialize (H1 label). specialize (H2 label). rewrite G1 in H1. rewrite G2 in H2.
      destruct H1 as (_ & _ & (rec & Hin & Hb) & _).
      apply (H2 rec (Permutation_in _ Hperm Hin)). unfold labelOf. now rewrite Hb.
    - exfalso. destruct I1 as [_ H1], I2 as [_ H2].
      specialize (H1 label). specialize (H2 label). rewrite G1 in H1. rewrite G2 in H2.
      destruct H2 as (_ & _ & (rec & Hin & Hb) & _).
      apply (H1 rec (Permutation_in _ (Permutation_sym Hperm) Hin)).
      unfold labelOf. now rewrite Hb.
    - reflexivity. }
  apply Array_sort_perm_unique; [| apply (values_sortTime_NoDup recs1 m1 I1)].
  apply NoDup_Permutation; [apply (values_NoDup recs1 m1 I1)
                           | apply (values_NoDup recs2 m2 I2) |].
  intros row. rewrite !list_elem_of_In.
  rewrite (values_In recs1 m1 row I1), (values_In recs2 m2 row I2), Hsame. reflexivity.
Qed.

End OrderFacts.

(** X20: the series does not depend on the order in which the records
    arrive, provided the records are those of configured sources and no
    two hours of the records share a label: two lists of results whose
    records are the same up to order, files or lines reordered, give
    the same series. *)
Theorem aggregation_order_independent (Date_parse : string -> option Z)
        (LocalTZA : Z -> bool -> Z) (results1 results2 : list (string * string)) :
  Forall (fun rec => In (fst rec) sourceKeys) (records results1) ->
  Permutation (records results1) (records results2) ->
  collisionFree Date_parse LocalTZA (records results1) ->
  finalChartData Date_parse LocalTZA results1 = finalChartData Date_parse LocalTZA results2
  /\ Part000.finalChartData Date_parse LocalTZA results1
     = Part000.finalChartData Date_parse LocalTZA results2.
Proof.
  intros Hkeys Hperm Hfree.
  rewrite !finalChartData_variant. unfold finalChartData.
  rewrite !hourlyDataMap_records. cbn [mbind completion_bind mret completion_ret].
  rewrite (series_order_independent Date_parse LocalTZA _ _ Hkeys Hperm Hfree).
  split; reflexivity.
Qed.

Lemma aggregation_order_independent_witness :
  finalChartData parseISO utcTZA (resultsOf scenario)
  = finalChartData parseISO utcTZA (rev (resultsOf scenario)).
Proof.
  apply (aggregation_order_independent parseISO utcTZA
           (resultsOf scenario) (rev (resultsOf scenario))).
  - apply records_keys.
  - vm_compute. apply perm_swap.
  - intros r r' Hr Hr' _. vm_compute in Hr, Hr'.
    destruct Hr as [<- | [<- | []]], Hr' as [<- | [<- | []]]; reflexivity.
Defined.
